(** * gkb_cpu_monitor: keyboard CPU meter with notification blink

    A shallow embedding of [gkb_cpu_monitor.py].  Python integers are [Z],
    Python floats are IEEE 754 binary64 numbers in the bit-level
    specification of the Standard Library ([spec_float] with [prec = 53]
    and [emax = 1024]), strings are [string], dictionaries are [gmap]s
    keyed by strings, and the calls to the outside world (the g810-led
    program, [time.sleep], [print], psutil) are events appended to a trace
    by a small state-and-exception monad.  The properties of the load
    color are proved over all binary64 floats, through the real values of
    the floats and the correctness of the rounded operations. *)

From Stdlib Require Import ZArith Lia Bool List Ascii String.
From Stdlib Require Import HexadecimalString HexadecimalN DecimalString DecimalZ.
From Stdlib Require Import SpecFloat.
From Stdlib Require Import Reals Lra.
From stdpp Require Import base option list gmap strings.

Local Open Scope Z_scope.

(** ** Python numbers *)

Module Py.

(** binary64 *)
Definition prec : Z := 53.
Definition emax : Z := 1024.

Abbreviation float := spec_float.

Definition fmul : float -> float -> float := SFmul prec emax.
Definition fdiv : float -> float -> float := SFdiv prec emax.
Definition fsub : float -> float -> float := SFsub prec emax.
Definition flt : float -> float -> bool := SFltb.
Definition fle : float -> float -> bool := SFleb.

(** [float(z)]: the nearest binary64 number (exact up to 2^53). *)
Definition float_of_Z (z : Z) : float := binary_normalize prec emax z 0 false.

(** The exceptions the program can meet. *)
Inductive exn :=
| SystemExit
| NameError (name : string)
| ValueError (msg : string)
| TypeError
| AttributeError
| IndexError
| KeyError (key : string)
| OverflowError
| ZeroDivisionError
| OSError.

Inductive result (A : Type) :=
| Ok (a : A)
| Raise (e : exn).
Arguments Ok {A} a.
Arguments Raise {A} e.

(** A number is an [int] or a [float]. *)
Inductive num :=
| Int (z : Z)
| Float (f : float).

Definition to_float (x : num) : float :=
  match x with
  | Int z => float_of_Z z
  | Float f => f
  end.

(** [x < y].  Two ints compare as integers; with a float on either side
    the int operand is converted (exact for the small literals the program
    compares against). *)
Definition num_lt (x y : num) : bool :=
  match x, y with
  | Int a, Int b => a <? b
  | _, _ => flt (to_float x) (to_float y)
  end.

(** [x * y] *)
Definition num_mul (x y : num) : num :=
  match x, y with
  | Int a, Int b => Int (a * b)
  | _, _ => Float (fmul (to_float x) (to_float y))
  end.

(** [int(f)] on a float truncates toward zero; it raises on NaN and on
    the infinities. *)
Definition int_of_float (f : float) : result Z :=
  match f with
  | S754_zero _ => Ok 0
  | S754_finite s m e =>
      let a := match e with
               | Zneg k => Z.shiftr (Zpos m) (Zpos k)
               | _ => Z.shiftl (Zpos m) e
               end in
      Ok (if s then - a else a)
  | S754_infinity _ => Raise OverflowError
  | S754_nan => Raise (ValueError "cannot convert float NaN to integer")
  end.

(** [int(x)] *)
Definition int_of_num (x : num) : result Z :=
  match x with
  | Int z => Ok z
  | Float f => int_of_float f
  end.

(** [a / b] on two ints: the correctly rounded quotient. *)
Definition int_truediv (a b : Z) : result float :=
  if b =? 0 then Raise ZeroDivisionError
  else
    let neg := xorb (a <? 0) (b <? 0) in
    if a =? 0 then Ok (S754_zero neg)
    else
      let '(q, e, l) := SFdiv_core_binary prec emax (Z.abs a) 0 (Z.abs b) 0 in
      match binary_round_aux prec emax neg q e l with
      | S754_infinity _ => Raise OverflowError
      | r => Ok r
      end.

(** The interface behind [min] and [max]: the [<] of the operands. *)
Class Ord (A : Type) := lt : A -> A -> bool.
#[export] Instance ord_Z : Ord Z := Z.ltb.
#[export] Instance ord_num : Ord num := num_lt.

(** [min(a, b)] keeps [a] unless [b < a]; [max(a, b)] keeps [a] unless
    [b > a]. *)
Definition min {A} `{Ord A} (a b : A) : A := if lt b a then b else a.
Definition max {A} `{Ord A} (a b : A) : A := if lt a b then b else a.

(** [hex(z)] *)
Definition hex (z : Z) : string :=
  String.append (if z <? 0 then "-0x"%string else "0x"%string)
    (HexadecimalString.NilZero.string_of_uint (N.to_hex_uint (Z.abs_N z))).

(** [s[n:]] *)
Fixpoint drop (n : nat) (s : string) : string :=
  match n, s with
  | O, _ => s
  | S _, EmptyString => EmptyString
  | S n', String _ s' => drop n' s'
  end.

Definition upper_ascii (c : ascii) : ascii :=
  let n := nat_of_ascii c in
  if (97 <=? n)%nat && (n <=? 122)%nat then ascii_of_nat (n - 32) else c.

(** [s.upper()] *)
Fixpoint upper (s : string) : string :=
  match s with
  | EmptyString => EmptyString
  | String c s' => String (upper_ascii c) (upper s')
  end.

End Py.

Import Py.

(** ** General purpose functions *)

Definition limit {A} `{Py.Ord A} (min_thr max_thr number : A) : A :=
  Py.max (Py.min number max_thr) min_thr.

Definition int_to_hexstring (dec : Z) : string :=
  let out := Py.drop 2 (Py.hex dec) in
  let out := if negb (Nat.eqb (String.length out mod 2) 0)
             then ("0" ++ out)%string else out in
  Py.upper out.

(** ** Keyboard color change functions *)

(** [get_load_color] is called with the average of the cache, a float; the
    result is the list of the three channels, or the exception of the
    conversion to [int]. *)
Definition get_load_color (percentage : float) : result (list Z) :=
  let percentage := fdiv percentage (float_of_Z 100) in
  let rgb := [Float (fmul (float_of_Z 2) percentage);
              Float (fmul (float_of_Z 2) (fsub (float_of_Z 1) percentage));
              Int 0] in
  let step acc x :=
    match acc with
    | Raise e => Raise e
    | Ok done =>
        match int_of_num (num_mul (limit (Int 0) (Int 1) x) (Int 255)) with
        | Ok v => Ok (done ++ [v])
        | Raise e => Raise e
        end
    end in
  fold_left step rgb (Ok []).

(** ** The machine: global variables, the outside world and its trace *)

(** The value of a settings field as the parser stores it. *)
Inductive value :=
| VNone
| VStr (s : string)
| VInt (z : Z)
| VFloat (f : float)
| VTuple (l : list Z).

(** What the g810-led call can do: succeed, be missing
    ([FileNotFoundError]), or fail in any other way. *)
Inductive dev_outcome := DevOk | DevNotFound | DevFailed.

(** A line written by [print]. *)
Inductive line :=
| Text (s : string)
| Repr (e : exn)
| LoadColor (rgb : list Z)
| LoadValue (cpu_load : float).

Inductive event :=
| EvG810 (color_string : string)
| EvSleep (secs : float)
| EvPrint (l : line)
| EvClear
| EvCpuPercent
| EvStartThread.

(** The answers of the outside world: the outcome of the n-th g810-led
    call and the n-th reading of [psutil.cpu_percent()]. *)
Record env := {
  device : nat -> dev_outcome;
  cpu_percent : nat -> float
}.

Record machine := {
  NOTIFY : string;
  cpu_load_cache : list Z;
  current_sampling : nat;
  meter_color : option (list Z);
  notification_settings_list : list (gmap string value);
  trace : list event;
  ndev : nat;
  ncpu : nat
}.

Definition M (A : Type) : Type := machine -> result A * machine.

Definition ret {A} (a : A) : M A := fun s => (Ok a, s).
Definition raise {A} (e : exn) : M A := fun s => (Raise e, s).
Definition bind {A B} (c : M A) (k : A -> M B) : M B :=
  fun s => match c s with
           | (Ok a, s') => k a s'
           | (Raise e, s') => (Raise e, s')
           end.
Definition lift {A} (r : result A) : M A := fun s => (r, s).
Definition gets {A} (f : machine -> A) : M A := fun s => (Ok (f s), s).
Definition modify (f : machine -> machine) : M unit := fun s => (Ok tt, f s).

Declare Scope py_scope.
Delimit Scope py_scope with py.
Notation "x <- c ;; k" := (bind c (fun x => k))
  (at level 100, c at next level, right associativity) : py_scope.
Notation "c ;; k" := (bind c (fun _ => k))
  (at level 100, right associativity) : py_scope.
Local Open Scope py_scope.

Definition emit (ev : event) : M unit :=
  modify (fun s => {| NOTIFY := NOTIFY s;
                      cpu_load_cache := cpu_load_cache s;
                      current_sampling := current_sampling s;
                      meter_color := meter_color s;
                      notification_settings_list := notification_settings_list s;
                      trace := trace s ++ [ev];
                      ndev := ndev s;
                      ncpu := ncpu s |}).

Definition set_NOTIFY (v : string) : M unit :=
  modify (fun s => {| NOTIFY := v;
                      cpu_load_cache := cpu_load_cache s;
                      current_sampling := current_sampling s;
                      meter_color := meter_color s;
                      notification_settings_list := notification_settings_list s;
                      trace := trace s;
                      ndev := ndev s;
                      ncpu := ncpu s |}).

Definition set_cpu_load_cache (v : list Z) : M unit :=
  modify (fun s => {| NOTIFY := NOTIFY s;
                      cpu_load_cache := v;
                      current_sampling := current_sampling s;
                      meter_color := meter_color s;
                      notification_settings_list := notification_settings_list s;
                      trace := trace s;
                      ndev := ndev s;
                      ncpu := ncpu s |}).

Definition set_current_sampling (v : nat) : M unit :=
  modify (fun s => {| NOTIFY := NOTIFY s;
                      cpu_load_cache := cpu_load_cache s;
                      current_sampling := v;
                      meter_color := meter_color s;
                      notification_settings_list := notification_settings_list s;
                      trace := trace s;
                      ndev := ndev s;
                      ncpu := ncpu s |}).

Definition set_meter_color (v : list Z) : M unit :=
  modify (fun s => {| NOTIFY := NOTIFY s;
                      cpu_load_cache := cpu_load_cache s;
                      current_sampling := current_sampling s;
                      meter_color := Some v;
                      notification_settings_list := notification_settings_list s;
                      trace := trace s;
                      ndev := ndev s;
                      ncpu := ncpu s |}).

Definition set_notification_settings_list (v : list (gmap string value)) : M unit :=
  modify (fun s => {| NOTIFY := NOTIFY s;
                      cpu_load_cache := cpu_load_cache s;
                      current_sampling := current_sampling s;
                      meter_color := meter_color s;
                      notification_settings_list := v;
                      trace := trace s;
                      ndev := ndev s;
                      ncpu := ncpu s |}).

(** [print(l)] *)
Definition print (l : line) : M unit := emit (EvPrint l).

(** [exit()] *)
Definition exit {A} : M A := raise SystemExit.

(** [time.sleep(secs)] raises on a negative or NaN duration and on one
    too long for the clock (2^63 nanoseconds). *)
Definition sleep_ok (secs : float) : bool :=
  fle (S754_zero false) secs
  && flt (fmul secs (float_of_Z 1000000000)) (float_of_Z (2 ^ 63)).

(** The checks come in this order: NaN, then the range of the clock in
    nanoseconds (from -2^63 up to 2^63, so that the infinities are out of
    it on either side), then the sign. *)
Definition sleep (secs : float) : M unit :=
  if sleep_ok secs then emit (EvSleep secs)
  else match secs with
       | S754_nan => raise (ValueError "Invalid value NaN (not a number)")
       | S754_infinity _ => raise OverflowError
       | _ =>
           let ns := fmul secs (float_of_Z 1000000000) in
           if flt ns (float_of_Z (- 2 ^ 63)) || negb (flt ns (float_of_Z (2 ^ 63)))
           then raise OverflowError
           else raise (ValueError "sleep length must be non-negative")
       end.

Section World.

Variable E : env.

(** [subprocess.check_output(["g810-led", "-a", color_string])] *)
Definition g810_led (color_string : string) : M dev_outcome :=
  emit (EvG810 color_string);;
  n <- gets ndev;;
  modify (fun s => {| NOTIFY := NOTIFY s;
                      cpu_load_cache := cpu_load_cache s;
                      current_sampling := current_sampling s;
                      meter_color := meter_color s;
                      notification_settings_list := notification_settings_list s;
                      trace := trace s;
                      ndev := S (ndev s);
                      ncpu := ncpu s |});;
  ret (device E n).

(** [psutil.cpu_percent()] *)
Definition psutil_cpu_percent : M float :=
  emit EvCpuPercent;;
  n <- gets ncpu;;
  modify (fun s => {| NOTIFY := NOTIFY s;
                      cpu_load_cache := cpu_load_cache s;
                      current_sampling := current_sampling s;
                      meter_color := meter_color s;
                      notification_settings_list := notification_settings_list s;
                      trace := trace s;
                      ndev := ndev s;
                      ncpu := S (ncpu s) |});;
  ret (cpu_percent E n).

(** The string handed to g810-led. *)
Definition color_string (rgb : list Z) : string :=
  fold_left (fun acc color => String.append acc (int_to_hexstring (limit 0 255 color)))
            rgb EmptyString.

Definition set_keyboard_color (rgb : list Z) (ignore_errors : Z) : M unit :=
  o <- g810_led (color_string rgb);;
  match o with
  | DevOk => ret tt
  | DevNotFound =>
      print (Text "Program g810-led not found; install it from https://github.com/MatMoul/g810-led");;
      exit
  | DevFailed =>
      if ignore_errors =? 0 then
        print (Text "Program g810-led failed; check keyboard connection");;
        exit
      else ret tt
  end.

(** [for i in range(n): body] *)
Fixpoint for_range (n : nat) (body : M unit) : M unit :=
  match n with
  | O => ret tt
  | S n' => body;; for_range n' body
  end.

Definition notification_blink (color1 color2 : list Z) (count : Z) (interval : float) : M unit :=
  for_range (Z.to_nat count)
    (set_keyboard_color color1 0;;
     sleep interval;;
     set_keyboard_color color2 0;;
     sleep interval).

End World.

(** ** Notifications management functions *)

(** A D-Bus message, as far as the program looks at it: the list of its
    arguments ([message.get_args_list()]). *)
Definition dbus_message := list string.

Definition notification_event (message : dbus_message) : M unit :=
  match message with
  | [] => raise IndexError
  | arg0 :: _ => set_NOTIFY arg0
  end.

(** An element of the parsed XML tree: its tag, its text and its children
    in document order. *)
#[local] Unset Elimination Schemes.
Inductive element :=
| Element (tag : string) (text : option string) (children : list element).

#[local] Set Elimination Schemes.

Definition tag (e : element) : string := let '(Element t _ _) := e in t.
Definition text (e : element) : option string := let '(Element _ t _) := e in t.
Definition children (e : element) : list element := let '(Element _ _ c) := e in c.

Definition NOTIFICATION_SETTINGS_MANDATORY_ATTRIBUTES : list string :=
  ["name"; "color"; "count"; "interval"]%string.

(** [s.split(",")] *)
Fixpoint split_comma (s : string) : list string :=
  match s with
  | EmptyString => [EmptyString]
  | String c s' =>
      if Ascii.eqb c ","%char then EmptyString :: split_comma s'
      else match split_comma s' with
           | [] => [String c EmptyString]
           | w :: ws => String c w :: ws
           end
  end.

(** [map(f, l)], stopping at the first exception. *)
Fixpoint map_result {A B} (f : A -> result B) (l : list A) : result (list B) :=
  match l with
  | [] => Ok []
  | x :: l' =>
      match f x with
      | Raise e => Raise e
      | Ok y => match map_result f l' with
                | Raise e => Raise e
                | Ok ys => Ok (y :: ys)
                end
      end
  end.

Section Parser.

(** Python's [int(s)] and [float(s)] on a string. *)
Variable int_of_string : string -> result Z.
Variable float_of_string : string -> result float.

(** The body of the loop over the children of one [notification] node. *)
Definition assign_element (obj : gmap string value) (el : element)
  : result (gmap string value) :=
  if String.eqb (tag el) "name" then
    Ok (<["name"%string := match text el with Some s => VStr s | None => VNone end]> obj)
  else if String.eqb (tag el) "color" then
    match text el with
    | None => Raise AttributeError
    | Some s =>
        match map_result int_of_string (split_comma s) with
        | Raise e => Raise e
        | Ok l => Ok (<["color"%string := VTuple l]> obj)
        end
    end
  else if String.eqb (tag el) "count" then
    match text el with
    | None => Raise TypeError
    | Some s =>
        match int_of_string s with
        | Raise e => Raise e
        | Ok z => Ok (<["count"%string := VInt z]> obj)
        end
    end
  else if String.eqb (tag el) "interval" then
    match text el with
    | None => Raise TypeError
    | Some s =>
        match float_of_string s with
        | Raise e => Raise e
        | Ok f => Ok (<["interval"%string := VFloat f]> obj)
        end
    end
  else Ok obj.

Fixpoint assign_elements (obj : gmap string value) (els : list element)
  : result (gmap string value) :=
  match els with
  | [] => Ok obj
  | el :: els' =>
      match assign_element obj el with
      | Raise e => Raise e
      | Ok obj' => assign_elements obj' els'
      end
  end.

(** The check that the object has all required keys. *)
Fixpoint check_mandatory (obj : gmap string value) (attributes : list string)
  : result unit :=
  match attributes with
  | [] => Ok tt
  | attribute :: rest =>
      match obj !! attribute with
      | None =>
          Raise (ValueError
                   (String.append "Missing element in notification settings XML: " attribute))
      | Some _ => check_mandatory obj rest
      end
  end.

Fixpoint parse_nodes (nodes : list element) (out_list : list (gmap string value))
  : result (list (gmap string value)) :=
  match nodes with
  | [] => Ok out_list
  | node :: nodes' =>
      match assign_elements ∅ (children node) with
      | Raise e => Raise e
      | Ok obj =>
          match check_mandatory obj NOTIFICATION_SETTINGS_MANDATORY_ATTRIBUTES with
          | Raise e => Raise e
          | Ok _ => parse_nodes nodes' (out_list ++ [obj])
          end
      end
  end.

(** [xml_parser.parse(path)] either raises or yields the root element;
    [iterfind('notification')] walks the children of the root with that
    tag. *)
Definition parse_notification_settings_from_xml (doc : result element)
  : result (list (gmap string value)) :=
  match doc with
  | Raise e => Raise e
  | Ok root =>
      parse_nodes
        (filter (fun n => String.eqb (tag n) "notification" = true) (children root)) []
  end.

End Parser.

(** ** Main *)

Definition SAMPLING : float := S754_finite false 7205759403792794 (-55).
Definition SAMPLES : nat := 25.

(** The parsed command line. *)
Record args := {
  verbose : Z;
  persistent : Z;
  notify : Z
}.

(** [d[key]] *)
Definition getitem (d : gmap string value) (key : string) : M value :=
  match d !! key with
  | Some v => ret v
  | None => raise (KeyError key)
  end.

(** The uses the blink makes of its arguments: [for color in rgb],
    [range(count)] and [time.sleep(interval)].  The parser stores a tuple
    of ints, an int and a float under these keys, so that the [TypeError]s
    are never met on a parsed list. *)
Definition as_colors (v : value) : M (list Z) :=
  match v with
  | VTuple l => ret l
  | _ => raise TypeError
  end.

Definition as_count (v : value) : M Z :=
  match v with
  | VInt z => ret z
  | _ => raise TypeError
  end.

Definition as_seconds (v : value) : M float :=
  match v with
  | VFloat f => ret f
  | VInt z => ret (float_of_Z z)
  | _ => raise TypeError
  end.

(** [NOTIFY == v] *)
Definition name_eq (NOTIFY : string) (v : value) : bool :=
  match v with
  | VStr s => String.eqb NOTIFY s
  | _ => false
  end.

(** The machine when the module has been loaded and the setup variables of
    the main block are assigned. *)
Definition initial : machine := {|
  NOTIFY := "";
  cpu_load_cache := repeat 50 SAMPLES;
  current_sampling := 0%nat;
  meter_color := None;
  notification_settings_list := [];
  trace := [];
  ndev := 0;
  ncpu := 0
|}.

(** [sum(l)] *)
Definition sum (l : list Z) : Z := fold_left Z.add l 0.

(** The moving average of the main loop: store the sample at the cursor,
    advance the cursor and wrap it at the end of the cache, and average the
    whole cache. *)
Definition record_sample (sample : Z) : M float :=
  cache <- gets cpu_load_cache;;
  i <- gets current_sampling;;
  (if (i <? length cache)%nat then set_cpu_load_cache (<[i := sample]> cache)
   else raise IndexError);;
  set_current_sampling (i + 1)%nat;;
  i <- gets current_sampling;;
  cache <- gets cpu_load_cache;;
  (if (length cache <=? i)%nat then set_current_sampling 0%nat else ret tt);;
  lift (int_truediv (sum cache) (Z.of_nat (length cache))).

Section Main.

Variable E : env.
Variable A : args.

(** The branch of the loop body taken when no notification is present. *)
Definition monitoring : M unit :=
  reading <- psutil_cpu_percent E;;
  sample <- lift (int_of_float reading);;
  cpu_load <- record_sample sample;;
  color <- lift (get_load_color cpu_load);;
  set_meter_color color;;
  set_keyboard_color E color (persistent A);;
  (if verbose A =? 0 then ret tt
   else
     emit EvClear;;
     print (Text "G Series Keyboard control");;
     print (LoadColor color);;
     print (LoadValue cpu_load));;
  sleep SAMPLING.

(** The [for notification in notification_settings_list] loop with its
    [break].  The arguments of [notification_blink] are evaluated from left
    to right: the color of the setting, then [meter_color], which is
    unbound until the monitoring branch has run once, then the count and
    the interval. *)
Fixpoint blink_first_match (name : string) (settings : list (gmap string value)) : M unit :=
  match settings with
  | [] => ret tt
  | notification :: rest =>
      n <- getitem notification "name";;
      if name_eq name n then
        c <- getitem notification "color";;
        mc <- gets meter_color;;
        color2 <- match mc with
                  | Some rgb => ret rgb
                  | None => raise (NameError "meter_color")
                  end;;
        k <- getitem notification "count";;
        i <- getitem notification "interval";;
        count <- as_count k;;
        color1 <- as_colors c;;
        interval <- as_seconds i;;
        notification_blink E color1 color2 count interval
      else blink_first_match name rest
  end.

(** The branch taken when a notification is present. *)
Definition blinking : M unit :=
  name <- gets NOTIFY;;
  (if verbose A =? 0 then ret tt
   else print (Text (String.append "Notification active: " name)));;
  settings <- gets notification_settings_list;;
  blink_first_match name settings;;
  set_NOTIFY "".

(** One iteration of [while True]. *)
Definition tick : M unit :=
  name <- gets NOTIFY;;
  if String.eqb name "" then monitoring else blinking.

(** The messages the scanner thread handles before the n-th iteration of
    the loop; an exception in the handler stays in that thread.  The
    writes of the thread are taken between two iterations: within one
    iteration the loop sees the [NOTIFY] it read at the top. *)
Variable bus : nat -> list dbus_message.

Definition deliver (messages : list dbus_message) : M unit :=
  fun s => (Ok tt,
            fold_left (fun s message =>
                         match notification_event message s with
                         | (Ok _, s') => s'
                         | (Raise _, _) => s
                         end) messages s).

(** [fuel] iterations of the loop, starting with iteration [n]. *)
Fixpoint main_loop (fuel : nat) (n : nat) : M unit :=
  match fuel with
  | O => ret tt
  | S fuel' =>
      (if notify A =? 0 then ret tt else deliver (bus n));;
      tick;;
      main_loop fuel' (S n)
  end.

Variable int_of_string : string -> result Z.
Variable float_of_string : string -> result float.

(** The setup of the notification monitoring. *)
Definition setup (doc : result element) : M unit :=
  if notify A =? 0 then ret tt
  else
    match parse_notification_settings_from_xml int_of_string float_of_string doc with
    | Ok l =>
        set_notification_settings_list l;;
        emit EvStartThread
    | Raise SystemExit => exit
    | Raise e =>
        print (Text "Error in executing notification monitoring setup; check notification setting file");;
        print (Repr e);;
        exit
    end.

Definition main (doc : result element) (fuel : nat) : M unit :=
  setup doc;;
  main_loop fuel 0.

End Main.

(** ** Reference definitions used by the statements *)

(** A value clamped to [[lo, hi]]. *)
Definition clamp (lo hi v : Z) : Z := Z.max lo (Z.min v hi).

(** One uppercase hexadecimal digit, and a channel as two of them, the high
    one first, padded with a zero. *)
Definition hex_digit (d : Z) : ascii :=
  ascii_of_nat (Z.to_nat (if d <? 10 then 48 + d else 55 + d)).

Definition hex2 (v : Z) : string :=
  String (hex_digit (v / 16)) (String (hex_digit (v mod 16)) EmptyString).

Definition rrggbb (r g b : Z) : string :=
  String.append (hex2 (clamp 0 255 r))
    (String.append (hex2 (clamp 0 255 g)) (hex2 (clamp 0 255 b))).

Definition is_upper_hex (c : ascii) : bool :=
  let n := nat_of_ascii c in
  ((48 <=? n)%nat && (n <=? 57)%nat) || ((65 <=? n)%nat && (n <=? 70)%nat).

(** Reading the two digits back. *)
Definition unhex_digit (c : ascii) : Z :=
  let n := Z.of_nat (nat_of_ascii c) in if n <? 58 then n - 48 else n - 55.

Definition unhex2 (s : string) : Z :=
  match s with
  | String a (String b EmptyString) => 16 * unhex_digit a + unhex_digit b
  | _ => -1
  end.

(** [P] holds of 0, 1, ..., n - 1. *)
Definition below (n : nat) (P : Z -> bool) : bool :=
  forallb P (map Z.of_nat (seq 0 n)).

Definition is_g810 (ev : event) : bool :=
  match ev with
  | EvG810 _ => true
  | _ => false
  end.

(** The display commands of a trace, in order. *)
Definition display_commands (t : list event) : list event := List.filter is_g810 t.

(** The machine after the events [evs] and [k] more g810-led calls. *)
Definition advance (s : machine) (evs : list event) (k : nat) : machine :=
  {| NOTIFY := NOTIFY s;
     cpu_load_cache := cpu_load_cache s;
     current_sampling := current_sampling s;
     meter_color := meter_color s;
     notification_settings_list := notification_settings_list s;
     trace := trace s ++ evs;
     ndev := (ndev s + k)%nat;
     ncpu := ncpu s |}.

(** The machine with the pending notification cleared. *)
Definition cleared (s : machine) : machine :=
  {| NOTIFY := "";
     cpu_load_cache := cpu_load_cache s;
     current_sampling := current_sampling s;
     meter_color := meter_color s;
     notification_settings_list := notification_settings_list s;
     trace := trace s;
     ndev := ndev s;
     ncpu := ncpu s |}.

(** One blink: the pattern color, a pause, the load color, a pause. *)
Definition blink_cycle (color1 color2 : list Z) (interval : float) : list event :=
  [EvG810 (color_string color1); EvSleep interval;
   EvG810 (color_string color2); EvSleep interval].

Fixpoint blink_trace (n : nat) (color1 color2 : list Z) (interval : float) : list event :=
  match n with
  | O => []
  | S n' => blink_cycle color1 color2 interval ++ blink_trace n' color1 color2 interval
  end.

(** The display commands alone: the two colors in turn, the pattern color
    first. *)
Fixpoint alternate (n : nat) (a b : event) : list event :=
  match n with
  | O => []
  | S n' => a :: alternate n' b a
  end.

(** The line the verbose mode prints when a notification is present. *)
Definition active_line (A : args) (name : string) : list event :=
  if verbose A =? 0 then []
  else [EvPrint (Text (String.append "Notification active: " name))].

(** A settings object whose name is present and differs from [name]. *)
Definition other_name (name : string) (d : gmap string value) : Prop :=
  exists v, d !! "name"%string = Some v /\ name_eq name v = false.

(** A settings object for [name] with the given pattern. *)
Definition setting_for (name : string) (color : list Z) (count : Z) (interval : float)
           (d : gmap string value) : Prop :=
  d !! "name"%string = Some (VStr name)
  /\ d !! "color"%string = Some (VTuple color)
  /\ d !! "count"%string = Some (VInt count)
  /\ d !! "interval"%string = Some (VFloat interval).

(** The cache as the sampler keeps it: percentages, and a cursor inside
    it. *)
Definition percentage (v : Z) : Prop := 0 <= v <= 100.

Definition sampler_ok (s : machine) : Prop :=
  (current_sampling s < length (cpu_load_cache s))%nat
  /\ Forall percentage (cpu_load_cache s).

(** The settings document. *)

(** The [notification] nodes of the document, in order. *)
Definition notification_nodes (root : element) : list element :=
  filter (fun n => String.eqb (tag n) "notification" = true) (children root).

(** The node has a child with this tag. *)
Definition has_tag (a : string) (node : element) : bool :=
  existsb (fun el => String.eqb (tag el) a) (children node).

(** The first mandatory attribute the node has no child for. *)
Definition first_missing (node : element) : option string :=
  List.find (fun a => negb (has_tag a node)) NOTIFICATION_SETTINGS_MANDATORY_ATTRIBUTES.

Definition missing_message (a : string) : string :=
  String.append "Missing element in notification settings XML: " a.

Definition is_print (ev : event) : bool :=
  match ev with
  | EvPrint _ => true
  | _ => false
  end.

(** ** Sample data *)

Module Sample.

(** 0.3 and 0.5 seconds. *)
Definition seconds_0_3 : float := S754_finite false 5404319552844595 (-54).
Definition seconds_0_5 : float := S754_finite false 4503599627370496 (-53).

Definition telegram : gmap string value :=
  <["name"%string := VStr "Telegram Desktop"]>
    (<["color"%string := VTuple [0; 190; 255]]>
       (<["count"%string := VInt 2]>
          (<["interval"%string := VFloat seconds_0_3]> ∅))).

Definition spotify : gmap string value :=
  <["name"%string := VStr "Spotify"]>
    (<["color"%string := VTuple [255; 255; 255]]>
       (<["count"%string := VInt 1]>
          (<["interval"%string := VFloat seconds_0_5]> ∅))).

(** A keyboard that always answers, one that is disconnected, and a CPU
    at 40%. *)
Definition connected : env :=
  {| device := fun _ => DevOk; cpu_percent := fun _ => float_of_Z 40 |}.

Definition disconnected : env :=
  {| device := fun _ => DevFailed; cpu_percent := fun _ => float_of_Z 40 |}.

Definition quiet : args := {| verbose := 0; persistent := 0; notify := 1 |}.
Definition tolerant : args := {| verbose := 0; persistent := 1; notify := 1 |}.

(** The machine in the middle of a run: the load color of 40% on the
    keyboard and a notification pending. *)
Definition pending (name : string) : machine :=
  {| NOTIFY := name;
     cpu_load_cache := repeat 40 SAMPLES;
     current_sampling := 1%nat;
     meter_color := Some [204; 255; 0];
     notification_settings_list := [telegram; spotify];
     trace := [];
     ndev := 0;
     ncpu := 0 |}.

(** The machine right after the setup, with a notification delivered
    before the first iteration of the loop. *)
Definition early (name : string) : machine :=
  {| NOTIFY := name;
     cpu_load_cache := repeat 50 SAMPLES;
     current_sampling := 0%nat;
     meter_color := None;
     notification_settings_list := [telegram; spotify];
     trace := [EvStartThread];
     ndev := 0;
     ncpu := 0 |}.

(** Stand-ins for Python's [int(s)] and [float(s)] on the texts of the
    sample documents.  [int_of_string] reads an optional sign followed by
    one decimal digit or more, and refuses every other string with the
    [ValueError] of [int] (Python reads also white space around the number
    and underscores between its digits); [float_of_string] reads the two
    durations above and what [int_of_string] reads, and refuses every other
    string with the [ValueError] of [float]. *)
Definition int_of_string (s : string) : result Z :=
  let digits := match s with
                | String "+"%char d => d
                | String "-"%char d => d
                | _ => s
                end in
  match digits, DecimalString.NilEmpty.uint_of_string digits with
  | String _ _, Some d =>
      Ok (match s with
          | String "-"%char _ => - Z.of_uint d
          | _ => Z.of_uint d
          end)
  | _, _ =>
      Raise (ValueError
               (String.append "invalid literal for int() with base 10: '"
                  (String.append s "'")))
  end.

Definition float_of_string (s : string) : result float :=
  if String.eqb s "0.3" then Ok seconds_0_3
  else if String.eqb s "0.5" then Ok seconds_0_5
  else match int_of_string s with
       | Ok z => Ok (float_of_Z z)
       | Raise _ =>
           Raise (ValueError
                    (String.append "could not convert string to float: '"
                       (String.append s "'")))
       end.

Definition leaf (t s : string) : element := Element t (Some s) [].

Definition telegram_node : element :=
  Element "notification" None
    [leaf "name" "Telegram Desktop"; leaf "color" "0,190,255";
     leaf "count" "2"; leaf "interval" "0.3"].

Definition spotify_node : element :=
  Element "notification" None
    [leaf "name" "Spotify"; leaf "color" "255,255,255";
     leaf "count" "1"; leaf "interval" "0.5"].

(** The Spotify record without its interval. *)
Definition spotify_node_no_interval : element :=
  Element "notification" None
    [leaf "name" "Spotify"; leaf "color" "255,255,255"; leaf "count" "1"].

(** The Spotify record without its interval and with a count that is no
    number, and a record without interval that starts with a count element
    without text. *)
Definition spotify_node_bad_count : element :=
  Element "notification" None
    [leaf "name" "Spotify"; leaf "color" "255,255,255"; leaf "count" "abc"].

Definition spotify_node_empty_count : element :=
  Element "notification" None
    [Element "count" None []; leaf "name" "Spotify"; leaf "color" "255,255,255"].

Definition document : element :=
  Element "notifications" None [telegram_node; spotify_node].

Definition bad_count_document : element :=
  Element "notifications" None [telegram_node; spotify_node_bad_count].

Definition empty_count_document : element :=
  Element "notifications" None [spotify_node_empty_count].

Definition incomplete_document : element :=
  Element "notifications" None [telegram_node; spotify_node_no_interval].

(** A bus on which "Telegram Desktop" notifies before the first iteration
    of the loop. *)
Definition early_bus (n : nat) : list dbus_message :=
  match n with
  | O => [["Telegram Desktop"; "0"; ""; "New message"]%string]
  | S _ => []
  end.

End Sample.

(** The machine after the sampler has stored [v]. *)
Definition recorded (s : machine) (v : Z) : machine :=
  {| NOTIFY := NOTIFY s;
     cpu_load_cache := <[current_sampling s := v]> (cpu_load_cache s);
     current_sampling :=
       if (length (cpu_load_cache s) <=? current_sampling s + 1)%nat then 0%nat
       else (current_sampling s + 1)%nat;
     meter_color := meter_color s;
     notification_settings_list := notification_settings_list s;
     trace := trace s;
     ndev := ndev s;
     ncpu := ncpu s |}.

(** The machine after [psutil.cpu_percent()] has been read. *)
Definition polled (s : machine) : machine :=
  {| NOTIFY := NOTIFY s;
     cpu_load_cache := cpu_load_cache s;
     current_sampling := current_sampling s;
     meter_color := meter_color s;
     notification_settings_list := notification_settings_list s;
     trace := trace s ++ [EvCpuPercent];
     ndev := ndev s;
     ncpu := S (ncpu s) |}.

(** The machine with a new load color. *)
Definition colored (s : machine) (rgb : list Z) : machine :=
  {| NOTIFY := NOTIFY s;
     cpu_load_cache := cpu_load_cache s;
     current_sampling := current_sampling s;
     meter_color := Some rgb;
     notification_settings_list := notification_settings_list s;
     trace := trace s;
     ndev := ndev s;
     ncpu := ncpu s |}.

(** What the verbose mode prints in the monitoring branch. *)
Definition load_lines (A : args) (rgb : list Z) (cpu_load : float) : list event :=
  if verbose A =? 0 then []
  else [EvClear; EvPrint (Text "G Series Keyboard control");
        EvPrint (LoadColor rgb); EvPrint (LoadValue cpu_load)].


(** ** Feeding the sampler *)

(** [n] recordings of the same value, with their averages in order. *)
Fixpoint feed (n : nat) (v : Z) : M (list float) :=
  match n with
  | O => ret []
  | S n' =>
      average <- record_sample v;;
      averages <- feed n' v;;
      ret (average :: averages)
  end.

(** The machine after [n] recordings of [v]. *)
Fixpoint recorded_n (n : nat) (s : machine) (v : Z) : machine :=
  match n with
  | O => s
  | S n' => recorded_n n' (recorded s v) v
  end.


(** ** The color of a load *)

(** What the loop of [get_load_color] makes of one channel. *)
Definition channel (x : num) : result Z :=
  int_of_num (num_mul (limit (Int 0) (Int 1) x) (Int 255)).

(** The red and the green channel before the loop. *)
Definition raw_red (percentage : float) : float :=
  fmul (float_of_Z 2) (fdiv percentage (float_of_Z 100)).

Definition raw_green (percentage : float) : float :=
  fmul (float_of_Z 2) (fsub (float_of_Z 1) (fdiv percentage (float_of_Z 100))).

(** A computation that leaves the length of the cache as it is, whether it
    ends normally or raises. *)
Definition keeps_length {A} (c : M A) : Prop :=
  forall s, length (cpu_load_cache (snd (c s))) = length (cpu_load_cache s).

(** ** The real numbers behind binary64 *)

Module Ieee.

Definition emin : Z := SpecFloat.emin prec emax.
Definition fexp : Z -> Z := SpecFloat.fexp prec emax.

Definition bpow (e : Z) : R := powerRZ 2 e.

(** The number m * 2^e. *)
Definition F2R (m e : Z) : R := (IZR m * bpow e)%R.

(** The real value of a float (0 for the infinities and NaN). *)
Definition value (f : float) : R :=
  match f with
  | S754_finite s m e => if s then (- F2R (Zpos m) e)%R else F2R (Zpos m) e
  | _ => 0%R
  end.

Definition canonical (m : positive) (e : Z) : Prop :=
  canonical_mantissa prec emax m e = true.

(** The non-negative numbers of the format, without a bound on the
    exponent. *)
Definition format (x : R) : Prop :=
  x = 0%R \/ exists m e, canonical m e /\ x = F2R (Zpos m) e.

(** F is a number of the format nearest to v. *)
Definition nearest (v F : R) : Prop :=
  format F /\ forall G, format G -> (Rabs (F - v) <= Rabs (G - v))%R.

(** The position of v between m * 2^e and (m + 1) * 2^e. *)
Definition located (v : R) (m e : Z) (l : location) : Prop :=
  match l with
  | loc_Exact => v = F2R m e
  | loc_Inexact Lt => (F2R m e < v < (IZR m + / 2) * bpow e)%R
  | loc_Inexact Eq => v = ((IZR m + / 2) * bpow e)%R
  | loc_Inexact Gt => ((IZR m + / 2) * bpow e < v < F2R (m + 1) e)%R
  end.

(** [f] is the float of sign [s] for the rounded magnitude F: a zero, a
    finite float, or an infinity when the exponent is out of range. *)
Definition rounded (s : bool) (f : float) (F : R) : Prop :=
  (F = 0%R /\ f = S754_zero s)
  \/ exists m e, canonical m e /\ F = F2R (Zpos m) e
                 /\ f = if e <=? emax - prec then S754_finite s m e else S754_infinity s.

(** A zero or a positive finite float. *)
Definition nonneg (f : float) : Prop :=
  match f with
  | S754_zero _ => True
  | S754_finite false m e => SpecFloat.bounded prec emax m e = true
  | _ => False
  end.

End Ieee.

(** A zero, a negative float or minus infinity. *)
Definition nonpos (f : float) : Prop :=
  match f with
  | S754_zero _ => True
  | S754_finite true m e => Ieee.canonical m e
  | S754_infinity true => True
  | _ => False
  end.

(** Plus infinity, or a finite float of value at least 1. *)
Definition at_least_one (f : float) : Prop :=
  f = S754_infinity false \/ (Ieee.nonneg f /\ (1 <= Ieee.value f)%R).

(** ** Further reference definitions *)

(** Reading a string of uppercase hexadecimal digits, the most significant
    digit first. *)
Fixpoint unhex_from (acc : Z) (s : string) : Z :=
  match s with
  | EmptyString => acc
  | String c s' => unhex_from (16 * acc + unhex_digit c) s'
  end.

Definition unhex (s : string) : Z := unhex_from 0 s.

(** A computation that leaves [f] of the machine as it is, whether it ends
    normally or raises. *)
Definition leaves {X A} (f : machine -> X) (c : M A) : Prop :=
  forall s, f (snd (c s)) = f s.

(** [f] does not look at the trace or at the count of g810-led calls. *)
Definition untraced {X} (f : machine -> X) : Prop :=
  forall s evs k, f (advance s evs k) = f s.

(** What the sampler and the blink read: the cache, the cursor, the stored
    load color, the settings and the count of CPU readings. *)
Definition sampler_view (s : machine)
  : list Z * nat * option (list Z) * list (gmap string value) * nat :=
  (cpu_load_cache s, current_sampling s, meter_color s,
   notification_settings_list s, ncpu s).

(** The machine with [name] in the pending cell. *)
Definition noted (s : machine) (name : string) : machine :=
  {| NOTIFY := name;
     cpu_load_cache := cpu_load_cache s;
     current_sampling := current_sampling s;
     meter_color := meter_color s;
     notification_settings_list := notification_settings_list s;
     trace := trace s;
     ndev := ndev s;
     ncpu := ncpu s |}.

(** Settings that the parser accepts without a check: a count of zero and
    an interval of minus one second. *)
Module Unchecked.

Definition minus_one : float := S754_finite true 4503599627370496 (-52).

Definition muted : gmap string value :=
  <["name"%string := VStr "Muted"]>
    (<["color"%string := VTuple [255; 0; 0]]>
       (<["count"%string := VInt 0]>
          (<["interval"%string := VFloat minus_one]> ∅))).

Definition hasty : gmap string value :=
  <["name"%string := VStr "Hasty"]>
    (<["color"%string := VTuple [255; 0; 0]]>
       (<["count"%string := VInt 1]>
          (<["interval"%string := VFloat minus_one]> ∅))).

(** The machine in the middle of a run with these settings and a
    notification pending. *)
Definition pending (name : string) : machine :=
  {| NOTIFY := name;
     cpu_load_cache := repeat 40 SAMPLES;
     current_sampling := 1%nat;
     meter_color := Some [204; 255; 0];
     notification_settings_list := [muted; hasty];
     trace := [];
     ndev := 0;
     ncpu := 0 |}.

End Unchecked.

(** ** The objects of the parser *)

(** The type each conversion of the parser gives to its field. *)
Definition typed (key : string) (v : value) : Prop :=
  (key = "name"%string /\ (v = VNone \/ exists s, v = VStr s))
  \/ (key = "color"%string /\ exists c, v = VTuple c)
  \/ (key = "count"%string /\ exists k, v = VInt k)
  \/ (key = "interval"%string /\ exists i, v = VFloat i).

Definition well_typed (obj : gmap string value) : Prop :=
  forall key v, obj !! key = Some v -> typed key v.

(** A settings object with the four fields, and nothing else. *)
Definition complete (obj : gmap string value) : Prop :=
  well_typed obj
  /\ forall a, In a NOTIFICATION_SETTINGS_MANDATORY_ATTRIBUTES -> is_Some (obj !! a).

(** The element has one of the four tags the parser looks for. *)
Definition known (el : element) : bool :=
  existsb (String.eqb (tag el)) NOTIFICATION_SETTINGS_MANDATORY_ATTRIBUTES.

(** The document without what the parser does not look at: the tag and
    the text of the root, the children of the root that are no
    [notification], and in each [notification] the children with another
    tag than the four. *)
Definition pruned (root : element) : element :=
  Element "notifications" None
    (map (fun node =>
            Element "notification" (text node)
              (filter (fun el => known el = true) (children node)))
         (notification_nodes root)).

(** ** Feeding the sampler with any samples *)

(** The recordings of the samples [vs], one after the other, with their
    averages in order. *)
Fixpoint record_all (vs : list Z) : M (list float) :=
  match vs with
  | [] => ret []
  | v :: vs' =>
      average <- record_sample v;;
      averages <- record_all vs';;
      ret (average :: averages)
  end.

(** ** What a run prints *)

(** The lines printed in a trace. *)
Definition prints (t : list event) : list event := List.filter is_print t.

(** A computation that prints nothing when it ends normally. *)
Definition silent {A} (c : M A) : Prop :=
  forall s a s', c s = (Ok a, s') -> prints (trace s') = prints (trace s).

(** * Properties *)

(** ** The color string *)

Lemma below_spec n P v : below n P = true -> 0 <= v < Z.of_nat n -> P v = true.
Proof.
  unfold below. rewrite forallb_forall. intros H Hv. apply H.
  apply in_map_iff. exists (Z.to_nat v). split; [lia|]. apply in_seq. lia.
Qed.

Lemma limit_clamp (c : Z) : limit 0 255 c = clamp 0 255 c.
Proof.
  unfold limit, Py.max, Py.min, Py.lt, ord_Z, clamp.
  destruct (Z.ltb_spec 255 c);
    [destruct (Z.ltb_spec 255 0) | destruct (Z.ltb_spec c 0)]; lia.
Qed.

Lemma clamp_range v : 0 <= clamp 0 255 v <= 255.
Proof. unfold clamp. lia. Qed.

Lemma hex_byte v : 0 <= v <= 255 -> int_to_hexstring v = hex2 v.
Proof.
  intros Hv.
  assert (H : below 256 (fun v => String.eqb (int_to_hexstring v) (hex2 v)) = true)
    by (vm_compute; reflexivity).
  apply String.eqb_eq. apply (below_spec _ _ _ H). lia.
Qed.

Lemma hex2_shape v :
  0 <= v <= 255 ->
  String.length (hex2 v) = 2%nat
  /\ forallb is_upper_hex (list_ascii_of_string (hex2 v)) = true
  /\ unhex2 (hex2 v) = v.
Proof.
  intros Hv.
  assert (H : below 256 (fun v => Nat.eqb (String.length (hex2 v)) 2
                                  && forallb is_upper_hex (list_ascii_of_string (hex2 v))
                                  && (unhex2 (hex2 v) =? v)) = true)
    by (vm_compute; reflexivity).
  pose proof (below_spec _ _ v H ltac:(lia)) as Hb. cbv beta in Hb.
  apply andb_prop in Hb as [Hb H3]. apply andb_prop in Hb as [H1 H2].
  apply Nat.eqb_eq in H1. apply Z.eqb_eq in H3. auto.
Qed.

Lemma color_string_triple r g b : color_string [r; g; b] = rrggbb r g b.
Proof.
  unfold color_string, rrggbb. cbn [fold_left].
  rewrite !limit_clamp, !hex_byte by apply clamp_range.
  reflexivity.
Qed.

Lemma set_keyboard_color_trace E rgb ie s :
  exists rest,
    trace (snd (set_keyboard_color E rgb ie s)) = trace s ++ EvG810 (color_string rgb) :: rest.
Proof.
  unfold set_keyboard_color, g810_led, bind, emit, modify, gets, ret, print, exit, raise.
  cbn. destruct (device E (ndev s)); cbn.
  - exists []. reflexivity.
  - eexists. rewrite <- app_assoc. reflexivity.
  - destruct (ie =? 0); cbn.
    + eexists. rewrite <- app_assoc. reflexivity.
    + exists []. reflexivity.
Qed.

(** C4, as the claim states it, fails: the string for a triple has six
    characters, not eight. *)
Lemma C4_eight_characters_refuted :
  ~ (forall r g b : Z, String.length (color_string [r; g; b]) = 8%nat).
Proof. intros H. specialize (H 0 0 0). vm_compute in H. discriminate. Qed.

(** C4 (amended): for every RGB triple of integers the string passed to the
    g810-led command is the six-character string RRGGBB: each channel
    clamped to [0,255] and written as two uppercase hexadecimal digits,
    padded with a zero, from which the clamped value can be read back. *)
Theorem C4_color_string_rrggbb :
  forall (E : env) (r g b ignore_errors : Z) (s : machine),
    (exists rest,
        trace (snd (set_keyboard_color E [r; g; b] ignore_errors s))
        = trace s ++ EvG810 (rrggbb r g b) :: rest)
    /\ String.length (rrggbb r g b) = 6%nat
    /\ forallb is_upper_hex (list_ascii_of_string (rrggbb r g b)) = true
    /\ unhex2 (substring 0 2 (rrggbb r g b)) = clamp 0 255 r
    /\ unhex2 (substring 2 2 (rrggbb r g b)) = clamp 0 255 g
    /\ unhex2 (substring 4 2 (rrggbb r g b)) = clamp 0 255 b.
Proof.
  intros E r g b ie s.
  split.
  { rewrite <- color_string_triple. apply set_keyboard_color_trace. }
  pose proof (hex2_shape _ (clamp_range r)) as (Lr & Ur & Dr).
  pose proof (hex2_shape _ (clamp_range g)) as (Lg & Ug & Dg).
  pose proof (hex2_shape _ (clamp_range b)) as (Lb & Ub & Db).
  unfold rrggbb.
  destruct (hex2 (clamp 0 255 r)) as [|r1 [|r2 [|]]] eqn:Er; try discriminate.
  destruct (hex2 (clamp 0 255 g)) as [|g1 [|g2 [|]]] eqn:Eg; try discriminate.
  destruct (hex2 (clamp 0 255 b)) as [|b1 [|b2 [|]]] eqn:Eb; try discriminate.
  cbn in *.
  repeat split; auto.
  repeat (apply andb_prop in Ur as [? Ur]). repeat (apply andb_prop in Ug as [? Ug]).
  repeat (apply andb_prop in Ub as [? Ub]).
  repeat (apply andb_true_intro; split); auto.
Qed.

(** ** The monad *)

Lemma bind_ok {A B} (c : M A) (k : A -> M B) s a s' :
  c s = (Ok a, s') -> bind c k s = k a s'.
Proof. intros H. unfold bind. rewrite H. reflexivity. Qed.

Lemma bind_raise {A B} (c : M A) (k : A -> M B) s e s' :
  c s = (Raise e, s') -> bind c k s = (Raise e, s').
Proof. intros H. unfold bind. rewrite H. reflexivity. Qed.

Lemma bind_raise_fst {A B} (c : M A) (k : A -> M B) s e :
  fst (c s) = Raise e -> fst (bind c k s) = Raise e.
Proof. unfold bind. destruct (c s) as [[a|e'] s']; cbn; intros H; [discriminate | congruence]. Qed.

Lemma advance_advance s a j b k :
  advance (advance s a j) b k = advance s (a ++ b) (j + k).
Proof. unfold advance. cbn. f_equal; [apply eq_sym, app_assoc | lia]. Qed.

Lemma advance_nil s : advance s [] 0 = s.
Proof. destruct s. unfold advance. cbn. f_equal; [apply app_nil_r | lia]. Qed.

Lemma emit_advance ev s : emit ev s = (Ok tt, advance s [ev] 0).
Proof. unfold emit, modify, advance. cbn. repeat f_equal. lia. Qed.

Lemma sleep_advance secs s :
  sleep_ok secs = true -> sleep secs s = (Ok tt, advance s [EvSleep secs] 0).
Proof. intros H. unfold sleep. rewrite H. apply emit_advance. Qed.

Lemma g810_led_advance E cs s :
  g810_led E cs s = (Ok (device E (ndev s)), advance s [EvG810 cs] 1).
Proof. unfold g810_led, bind, emit, modify, gets, ret, advance. cbn. repeat f_equal. lia. Qed.

(** ** The display command *)

Lemma set_keyboard_color_ok E rgb ie s :
  device E (ndev s) = DevOk ->
  set_keyboard_color E rgb ie s = (Ok tt, advance s [EvG810 (color_string rgb)] 1).
Proof.
  intros H. unfold set_keyboard_color.
  rewrite (bind_ok _ _ _ _ _ (g810_led_advance E _ s)), H. reflexivity.
Qed.

Lemma set_keyboard_color_swallowed E rgb ie s :
  device E (ndev s) = DevFailed -> ie <> 0 ->
  set_keyboard_color E rgb ie s = (Ok tt, advance s [EvG810 (color_string rgb)] 1).
Proof.
  intros H Hie. unfold set_keyboard_color.
  rewrite (bind_ok _ _ _ _ _ (g810_led_advance E _ s)), H.
  apply Z.eqb_neq in Hie. rewrite Hie. reflexivity.
Qed.

Lemma set_keyboard_color_failed E rgb s :
  device E (ndev s) = DevFailed ->
  set_keyboard_color E rgb 0 s
  = (Raise SystemExit,
     advance s [EvG810 (color_string rgb);
                EvPrint (Text "Program g810-led failed; check keyboard connection")] 1).
Proof.
  intros H. unfold set_keyboard_color.
  rewrite (bind_ok _ _ _ _ _ (g810_led_advance E _ s)), H. cbv iota.
  rewrite Z.eqb_refl.
  unfold print. rewrite (bind_ok _ _ _ _ _ (emit_advance _ _)).
  rewrite advance_advance. reflexivity.
Qed.

Lemma set_keyboard_color_not_found E rgb ie s :
  device E (ndev s) = DevNotFound ->
  fst (set_keyboard_color E rgb ie s) = Raise SystemExit.
Proof.
  intros H. unfold set_keyboard_color.
  rewrite (bind_ok _ _ _ _ _ (g810_led_advance E _ s)), H. cbv iota.
  unfold print. rewrite (bind_ok _ _ _ _ _ (emit_advance _ _)). reflexivity.
Qed.

(** ** The blink *)

Lemma blink_body_ok E c1 c2 interval s :
  sleep_ok interval = true ->
  device E (ndev s) = DevOk ->
  device E (S (ndev s)) = DevOk ->
  (set_keyboard_color E c1 0;; sleep interval;; set_keyboard_color E c2 0;; sleep interval)%py s
  = (Ok tt, advance s (blink_cycle c1 c2 interval) 2).
Proof.
  intros Hs H0 H1.
  rewrite (bind_ok _ _ _ _ _ (set_keyboard_color_ok E c1 0 s H0)).
  rewrite (bind_ok _ _ _ _ _ (sleep_advance _ _ Hs)).
  rewrite advance_advance.
  erewrite bind_ok.
  2:{ apply set_keyboard_color_ok. cbn.
      rewrite <- H1. f_equal. lia. }
  rewrite sleep_advance by exact Hs. rewrite !advance_advance.
  reflexivity.
Qed.

Lemma notification_blink_ok E c1 c2 interval n : forall s,
  sleep_ok interval = true ->
  (forall k, (k < 2 * n)%nat -> device E (ndev s + k) = DevOk) ->
  for_range n
    (set_keyboard_color E c1 0;; sleep interval;; set_keyboard_color E c2 0;; sleep interval)%py s
  = (Ok tt, advance s (blink_trace n c1 c2 interval) (2 * n)).
Proof.
  induction n as [|n IH]; intros s Hs Hdev.
  - cbn. rewrite advance_nil. reflexivity.
  - cbn [for_range].
    rewrite (bind_ok _ _ _ tt (advance s (blink_cycle c1 c2 interval) 2)).
    + rewrite IH; [| exact Hs |].
      * rewrite advance_advance. cbn [blink_trace]. f_equal. f_equal. lia.
      * intros k Hk. cbn. replace (ndev s + 2 + k)%nat with (ndev s + (2 + k))%nat by lia.
        apply Hdev. lia.
    + apply blink_body_ok; [exact Hs | |].
      * specialize (Hdev 0%nat). rewrite Nat.add_0_r in Hdev. apply Hdev. lia.
      * specialize (Hdev 1%nat). replace (ndev s + 1)%nat with (S (ndev s)) in Hdev by lia.
        apply Hdev. lia.
Qed.

Lemma display_commands_app t u :
  display_commands (t ++ u) = display_commands t ++ display_commands u.
Proof. unfold display_commands. apply List.filter_app. Qed.

Lemma display_commands_blink_trace n c1 c2 interval :
  display_commands (blink_trace n c1 c2 interval)
  = alternate (2 * n) (EvG810 (color_string c1)) (EvG810 (color_string c2)).
Proof.
  induction n as [|n IH]; [reflexivity|].
  cbn [blink_trace]. rewrite display_commands_app, IH.
  replace (2 * S n)%nat with (S (S (2 * n))) by lia. reflexivity.
Qed.

Lemma length_alternate n a b : length (alternate n a b) = n.
Proof. revert a b. induction n as [|n IH]; intros a b; cbn; [reflexivity | now rewrite IH]. Qed.

Lemma getitem_some d key v s : d !! key = Some v -> getitem d key s = (Ok v, s).
Proof. intros H. unfold getitem. rewrite H. reflexivity. Qed.

Lemma name_eq_refl name : name_eq name (VStr name) = true.
Proof. apply String.eqb_refl. Qed.

Lemma blink_first_match_skip E name pre rest s :
  Forall (other_name name) pre ->
  blink_first_match E name (pre ++ rest) s = blink_first_match E name rest s.
Proof.
  induction 1 as [|d pre (v & Hv & Hne) _ IH]; [reflexivity|].
  cbn [app blink_first_match].
  rewrite (bind_ok _ _ _ _ _ (getitem_some _ _ _ s Hv)), Hne. exact IH.
Qed.

Lemma blink_first_match_none E name settings s :
  Forall (other_name name) settings ->
  blink_first_match E name settings s = (Ok tt, s).
Proof.
  intros H. rewrite <- (app_nil_r settings).
  rewrite blink_first_match_skip by exact H. reflexivity.
Qed.

Lemma blink_first_match_hit E name color count interval d rest mc s :
  setting_for name color count interval d ->
  meter_color s = Some mc ->
  blink_first_match E name (d :: rest) s = notification_blink E color mc count interval s.
Proof.
  intros (Hn & Hc & Hk & Hi) Hmc. cbn [blink_first_match].
  rewrite (bind_ok _ _ _ _ _ (getitem_some _ _ _ s Hn)), name_eq_refl.
  rewrite (bind_ok _ _ _ _ _ (getitem_some _ _ _ s Hc)).
  unfold gets at 1. unfold bind at 1. rewrite Hmc.
  unfold ret at 1. unfold bind at 1.
  rewrite (bind_ok _ _ _ _ _ (getitem_some _ _ _ s Hk)).
  rewrite (bind_ok _ _ _ _ _ (getitem_some _ _ _ s Hi)).
  reflexivity.
Qed.

Lemma blink_first_match_unset E name color count interval d rest s :
  setting_for name color count interval d ->
  meter_color s = None ->
  blink_first_match E name (d :: rest) s = (Raise (NameError "meter_color"), s).
Proof.
  intros (Hn & Hc & Hk & Hi) Hmc. cbn [blink_first_match].
  rewrite (bind_ok _ _ _ _ _ (getitem_some _ _ _ s Hn)), name_eq_refl.
  rewrite (bind_ok _ _ _ _ _ (getitem_some _ _ _ s Hc)).
  unfold gets at 1. unfold bind at 1. rewrite Hmc. reflexivity.
Qed.

(** The iteration of the loop when a notification is present. *)
Lemma tick_blinking E A s :
  NOTIFY s <> EmptyString ->
  tick E A s
  = (blink_first_match E (NOTIFY s) (notification_settings_list s);; set_NOTIFY "")%py
      (advance s (active_line A (NOTIFY s)) 0).
Proof.
  intros Hne. unfold tick.
  unfold gets at 1. unfold bind at 1.
  apply String.eqb_neq in Hne. rewrite Hne.
  unfold blinking. unfold gets at 1. unfold bind at 1.
  unfold active_line.
  destruct (verbose A =? 0).
  - unfold ret at 1. unfold bind at 1. unfold gets at 1. unfold bind at 1.
    rewrite advance_nil. reflexivity.
  - unfold print. rewrite (bind_ok _ _ _ _ _ (emit_advance _ _)).
    unfold gets at 1. unfold bind at 1. reflexivity.
Qed.

(** C1: a pending notification whose name matches a setting with pattern
    color C, [count] repetitions and half-cycle [interval] makes the loop
    issue exactly 2*count display commands, C first and then the load color
    in turn, with a sleep of [interval] after each of them; the load color
    is the one stored when the blink starts and stays the stored one. *)
Theorem C1_blink_sequence :
  forall (E : env) (A : args) (s : machine) (name : string)
         (pre post : list (gmap string value)) (d : gmap string value)
         (C mc : list Z) (count : Z) (interval : float),
    NOTIFY s = name ->
    name <> EmptyString ->
    notification_settings_list s = pre ++ d :: post ->
    Forall (other_name name) pre ->
    setting_for name C count interval d ->
    meter_color s = Some mc ->
    0 <= count ->
    sleep_ok interval = true ->
    (forall k, (k < 2 * Z.to_nat count)%nat -> device E (ndev s + k) = DevOk) ->
    let blink := blink_trace (Z.to_nat count) C mc interval in
    tick E A s
    = (Ok tt, cleared (advance s (active_line A name ++ blink) (2 * Z.to_nat count)))
    /\ display_commands (active_line A name ++ blink)
       = alternate (2 * Z.to_nat count) (EvG810 (color_string C)) (EvG810 (color_string mc))
    /\ Z.of_nat (length (display_commands (active_line A name ++ blink))) = 2 * count
    /\ meter_color (snd (tick E A s)) = Some mc.
Proof.
  intros E A s name pre post d C mc count interval HN Hne Hset Hpre Hd Hmc Hc Hs Hdev blink.
  assert (Htick : tick E A s
                  = (Ok tt, cleared (advance s (active_line A name ++ blink)
                                             (2 * Z.to_nat count)))).
  { rewrite tick_blinking by congruence. rewrite HN, Hset.
    erewrite bind_ok.
    2:{ rewrite blink_first_match_skip by exact Hpre.
        erewrite blink_first_match_hit; [| exact Hd | exact Hmc].
        unfold notification_blink. apply notification_blink_ok; [exact Hs |].
        intros k Hk. cbn. rewrite Nat.add_0_r. apply Hdev, Hk. }
    rewrite advance_advance. reflexivity. }
  assert (Hdisp : display_commands (active_line A name ++ blink)
                  = alternate (2 * Z.to_nat count)
                      (EvG810 (color_string C)) (EvG810 (color_string mc))).
  { rewrite display_commands_app. unfold blink.
    rewrite display_commands_blink_trace.
    unfold active_line. destruct (verbose A =? 0); reflexivity. }
  repeat split.
  - exact Htick.
  - exact Hdisp.
  - rewrite Hdisp, length_alternate. lia.
  - rewrite Htick. exact Hmc.
Qed.

Lemma C1_blink_sequence_witness :
  tick Sample.connected Sample.quiet (Sample.pending "Telegram Desktop")
  = (Ok tt,
     cleared (advance (Sample.pending "Telegram Desktop")
                (active_line Sample.quiet "Telegram Desktop"
                   ++ blink_trace 2 [0; 190; 255] [204; 255; 0] Sample.seconds_0_3) 4)).
Proof.
  apply (C1_blink_sequence Sample.connected Sample.quiet (Sample.pending "Telegram Desktop")
           "Telegram Desktop" [] [Sample.spotify] Sample.telegram
           [0; 190; 255] [204; 255; 0] 2 Sample.seconds_0_3).
  - reflexivity.
  - discriminate.
  - reflexivity.
  - constructor.
  - repeat split; vm_compute; reflexivity.
  - reflexivity.
  - lia.
  - vm_compute; reflexivity.
  - intros k _. reflexivity.
Defined.

(** ** A notification without a setting *)

Lemma tick_unmatched E A s :
  NOTIFY s <> EmptyString ->
  Forall (other_name (NOTIFY s)) (notification_settings_list s) ->
  tick E A s = (Ok tt, cleared (advance s (active_line A (NOTIFY s)) 0)).
Proof.
  intros Hne Hall. rewrite tick_blinking by exact Hne.
  erewrite bind_ok; [| apply blink_first_match_none; exact Hall].
  reflexivity.
Qed.

(** C5, as the claim states it, fails: with "Unknown" pending and settings
    for two other names, the iteration ends without any display command,
    so the load color is not displayed again before the loop is back to
    monitoring. *)
Lemma C5_redisplay_refuted :
  let s := Sample.pending "Unknown" in
  fst (tick Sample.connected Sample.quiet s) = Ok tt
  /\ NOTIFY (snd (tick Sample.connected Sample.quiet s)) = EmptyString
  /\ trace (snd (tick Sample.connected Sample.quiet s)) = []
  /\ length (display_commands (trace (snd (tick Sample.connected Sample.quiet s)))) <> 1%nat.
Proof. vm_compute. repeat split; discriminate. Qed.

(** C5 (amended): when the name of the pending notification matches no
    setting, the iteration raises nothing, issues no display command and
    does not sleep; it only clears the pending cell (after the line of the
    verbose mode, when that is on), and leaves the cache, the cursor and
    the stored load color as they were. *)
Theorem C5_unmatched_notification :
  forall (E : env) (A : args) (s : machine),
    NOTIFY s <> EmptyString ->
    Forall (other_name (NOTIFY s)) (notification_settings_list s) ->
    tick E A s = (Ok tt, cleared (advance s (active_line A (NOTIFY s)) 0))
    /\ display_commands (active_line A (NOTIFY s)) = []
    /\ NOTIFY (snd (tick E A s)) = EmptyString
    /\ meter_color (snd (tick E A s)) = meter_color s
    /\ cpu_load_cache (snd (tick E A s)) = cpu_load_cache s
    /\ current_sampling (snd (tick E A s)) = current_sampling s
    /\ ndev (snd (tick E A s)) = ndev s.
Proof.
  intros E A s Hne Hall.
  rewrite (tick_unmatched E A s Hne Hall). cbn.
  repeat split; try lia.
  unfold active_line. destruct (verbose A =? 0); reflexivity.
Qed.

Lemma C5_unmatched_notification_witness :
  tick Sample.connected Sample.quiet (Sample.pending "Unknown")
  = (Ok tt, cleared (advance (Sample.pending "Unknown")
                       (active_line Sample.quiet "Unknown") 0)).
Proof.
  apply (C5_unmatched_notification Sample.connected Sample.quiet (Sample.pending "Unknown")).
  - discriminate.
  - repeat constructor.
    + exists (VStr "Telegram Desktop"). split; vm_compute; reflexivity.
    + exists (VStr "Spotify"). split; vm_compute; reflexivity.
Defined.

(** ** A notification before the first load color *)

(** A matching notification that is pending while no load color has been
    stored stops the program with a [NameError]. *)
Lemma tick_before_first_color E A s name pre d post C count interval :
  NOTIFY s = name ->
  name <> EmptyString ->
  notification_settings_list s = pre ++ d :: post ->
  Forall (other_name name) pre ->
  setting_for name C count interval d ->
  meter_color s = None ->
  tick E A s = (Raise (NameError "meter_color"), advance s (active_line A name) 0).
Proof.
  intros HN Hne Hset Hpre Hd Hmc.
  rewrite tick_blinking by congruence. rewrite HN, Hset.
  erewrite bind_raise; [reflexivity|].
  rewrite blink_first_match_skip by exact Hpre.
  apply (blink_first_match_unset E name C count interval d post); [exact Hd | exact Hmc].
Qed.

(** C6 fails on the code: [meter_color] is assigned only in the monitoring
    branch, so a matching notification that is pending at the first
    iteration makes the blink read an unbound name.  The program stops with
    a [NameError] before any display command. *)
Theorem C6_unset_load_color :
  tick Sample.connected Sample.quiet (Sample.early "Telegram Desktop")
  = (Raise (NameError "meter_color"), Sample.early "Telegram Desktop").
Proof. vm_compute. reflexivity. Qed.

(** ** The loop *)

(** The outcome of an iteration is the outcome of the loop: a normal end
    leads to the next iteration, an exception ends the program. *)
Lemma main_loop_continue E A bus fuel n s s1 s2 :
  (if notify A =? 0 then ret tt else deliver (bus n)) s = (Ok tt, s1) ->
  tick E A s1 = (Ok tt, s2) ->
  main_loop E A bus (S fuel) n s = main_loop E A bus fuel (S n) s2.
Proof.
  intros Hd Ht. cbn [main_loop].
  rewrite (bind_ok _ _ _ _ _ Hd), (bind_ok _ _ _ _ _ Ht). reflexivity.
Qed.

Lemma main_loop_raise E A bus fuel n s s1 e :
  (if notify A =? 0 then ret tt else deliver (bus n)) s = (Ok tt, s1) ->
  fst (tick E A s1) = Raise e ->
  fst (main_loop E A bus (S fuel) n s) = Raise e.
Proof.
  intros Hd Ht. cbn [main_loop].
  rewrite (bind_ok _ _ _ _ _ Hd). apply bind_raise_fst. exact Ht.
Qed.

(** ** The pending notification cell *)

(** C10: two writes before a read leave the machine exactly as the second
    write alone does, with the second name in the cell; the next iteration
    of the loop therefore acts on the second name only. *)
Theorem C10_last_writer_wins :
  forall (E : env) (A : args) (a b : string) (ra rb : list string) (s : machine),
    deliver [a :: ra; b :: rb] s = deliver [b :: rb] s
    /\ NOTIFY (snd (deliver [a :: ra; b :: rb] s)) = b
    /\ (deliver [a :: ra; b :: rb];; tick E A)%py s = (deliver [b :: rb];; tick E A)%py s.
Proof.
  intros E A a b ra rb s.
  assert (H : deliver [a :: ra; b :: rb] s = deliver [b :: rb] s) by reflexivity.
  split; [exact H | split].
  - rewrite H. reflexivity.
  - unfold bind. rewrite H. reflexivity.
Qed.

(** ** The settings document *)

Example sample_document_parses :
  parse_notification_settings_from_xml Sample.int_of_string Sample.float_of_string
    (Ok Sample.document)
  = Ok [Sample.telegram; Sample.spotify].
Proof. vm_compute. reflexivity. Qed.

Example sample_durations :
  int_truediv 3 10 = Ok Sample.seconds_0_3
  /\ int_truediv 1 2 = Ok Sample.seconds_0_5
  /\ int_truediv 1 5 = Ok SAMPLING.
Proof. vm_compute. repeat split. Qed.

Section ParserFacts.

Variable ios : string -> result Z.
Variable fos : string -> result float.

(** An element adds at most the key of its own tag. *)
Lemma assign_element_keys obj el obj' a :
  assign_element ios fos obj el = Ok obj' ->
  In a NOTIFICATION_SETTINGS_MANDATORY_ATTRIBUTES ->
  (is_Some (obj' !! a) <-> is_Some (obj !! a) \/ String.eqb (tag el) a = true).
Proof.
  unfold assign_element. intros H Ha.
  assert (Hins : forall (v : value),
             is_Some (<[tag el := v]> obj !! a)
             <-> is_Some (obj !! a) \/ String.eqb (tag el) a = true).
  { intros v. destruct (String.eqb_spec (tag el) a) as [-> | Hne].
    - rewrite lookup_insert_eq. split; [auto | intros _; eexists; reflexivity].
    - rewrite lookup_insert_ne by exact Hne.
      split; [auto | intros [? | ?]; [assumption | discriminate]]. }
  destruct (String.eqb_spec (tag el) "name") as [Ht | N1].
  { injection H as <-. rewrite <- Ht. apply Hins. }
  destruct (String.eqb_spec (tag el) "color") as [Ht | N2].
  { destruct (text el); [|discriminate].
    destruct (map_result _ _); [|discriminate].
    injection H as <-. rewrite <- Ht. apply Hins. }
  destruct (String.eqb_spec (tag el) "count") as [Ht | N3].
  { destruct (text el); [|discriminate].
    destruct (ios _); [|discriminate].
    injection H as <-. rewrite <- Ht. apply Hins. }
  destruct (String.eqb_spec (tag el) "interval") as [Ht | N4].
  { destruct (text el); [|discriminate].
    destruct (fos _); [|discriminate].
    injection H as <-. rewrite <- Ht. apply Hins. }
  injection H as <-.
  split; [auto | intros [? | Heq]; [assumption |]].
  apply String.eqb_eq in Heq. subst a.
  cbn in Ha. intuition congruence.
Qed.

Lemma assign_elements_keys els : forall obj obj' a,
  assign_elements ios fos obj els = Ok obj' ->
  In a NOTIFICATION_SETTINGS_MANDATORY_ATTRIBUTES ->
  (is_Some (obj' !! a)
   <-> is_Some (obj !! a) \/ existsb (fun el => String.eqb (tag el) a) els = true).
Proof.
  induction els as [|el els IH]; intros obj obj' a H Ha;
    cbn [assign_elements existsb] in H |- *.
  - injection H as <-. split; [auto | intros [? | ?]; [assumption | discriminate]].
  - destruct (assign_element ios fos obj el) as [obj1|] eqn:H1; [|discriminate].
    rewrite (IH _ _ _ H Ha), (assign_element_keys _ _ _ _ H1 Ha), orb_true_iff.
    tauto.
Qed.

(** The keys of the object built from a node are the tags of its
    children. *)
Lemma node_keys node obj a :
  assign_elements ios fos ∅ (children node) = Ok obj ->
  In a NOTIFICATION_SETTINGS_MANDATORY_ATTRIBUTES ->
  (is_Some (obj !! a) <-> has_tag a node = true).
Proof.
  intros H Ha. rewrite (assign_elements_keys _ _ _ _ H Ha), lookup_empty.
  unfold has_tag. split; [intros [[? ?] | ?]; [discriminate | assumption] | auto].
Qed.

Lemma check_mandatory_find node obj attributes :
  (forall a, In a attributes -> (is_Some (obj !! a) <-> has_tag a node = true)) ->
  check_mandatory obj attributes
  = match List.find (fun a => negb (has_tag a node)) attributes with
    | Some a => Raise (ValueError (missing_message a))
    | None => Ok tt
    end.
Proof.
  induction attributes as [|a rest IH]; intros Hkeys; [reflexivity|].
  cbn [check_mandatory List.find].
  pose proof (Hkeys a (or_introl eq_refl)) as Ha.
  destruct (obj !! a) as [v|] eqn:Hl.
  - replace (has_tag a node) with true
      by (symmetry; apply Ha; eexists; reflexivity).
    cbn [negb]. apply IH. intros b Hb. apply Hkeys. right. exact Hb.
  - destruct (has_tag a node) eqn:Ht; [|reflexivity].
    destruct Ha as [_ Ha]. destruct (Ha eq_refl) as [? ?]. discriminate.
Qed.

Lemma parse_nodes_app before : forall rest acc l,
  parse_nodes ios fos before acc = Ok l ->
  parse_nodes ios fos (before ++ rest) acc = parse_nodes ios fos rest l.
Proof.
  induction before as [|node before IH]; intros rest acc l H;
    cbn [parse_nodes app] in H |- *.
  - injection H as <-. reflexivity.
  - destruct (assign_elements ios fos ∅ (children node)) as [obj|]; [|discriminate].
    destruct (check_mandatory obj NOTIFICATION_SETTINGS_MANDATORY_ATTRIBUTES);
      [|discriminate].
    apply IH. exact H.
Qed.

Lemma parse_nodes_incomplete node after l obj a :
  assign_elements ios fos ∅ (children node) = Ok obj ->
  first_missing node = Some a ->
  parse_nodes ios fos (node :: after) l = Raise (ValueError (missing_message a)).
Proof.
  unfold first_missing. intros Hobj Hmiss.
  cbn [parse_nodes]. rewrite Hobj.
  rewrite (check_mandatory_find node).
  - rewrite Hmiss. reflexivity.
  - intros b Hb. apply node_keys; assumption.
Qed.

(** A record without one of the mandatory fields never gets through,
    whatever else is in the document. *)
Lemma parse_nodes_never_complete nodes : forall node a acc,
  In node nodes ->
  first_missing node = Some a ->
  exists e, parse_nodes ios fos nodes acc = Raise e.
Proof.
  induction nodes as [|n nodes IH]; intros node a acc Hin Hmiss; [contradiction|].
  cbn [parse_nodes].
  destruct (assign_elements ios fos ∅ (children n)) as [obj | e] eqn:Hobj;
    [| exists e; reflexivity].
  destruct (check_mandatory obj NOTIFICATION_SETTINGS_MANDATORY_ATTRIBUTES) as [[] | e] eqn:Hc;
    [| exists e; reflexivity].
  destruct Hin as [-> | Hin].
  - rewrite (check_mandatory_find node) in Hc by (intros b Hb; apply node_keys; assumption).
    unfold first_missing in Hmiss. rewrite Hmiss in Hc. discriminate.
  - apply (IH node a _ Hin Hmiss).
Qed.

Lemma first_missing_is_missing node a :
  first_missing node = Some a ->
  In a NOTIFICATION_SETTINGS_MANDATORY_ATTRIBUTES /\ has_tag a node = false.
Proof.
  unfold first_missing. intros H. apply List.find_some in H as [Hin Hneg].
  split; [exact Hin | now apply negb_true_iff].
Qed.

End ParserFacts.

(** Whatever else is wrong with the document, an incomplete record keeps
    the loop from starting. *)
Lemma incomplete_record_stops_startup E A bus ios fos root node a fuel :
  notify A <> 0 ->
  In node (notification_nodes root) ->
  first_missing node = Some a ->
  fst (main E A bus ios fos (Ok root) fuel initial) = Raise SystemExit
  /\ forallb is_print (trace (snd (main E A bus ios fos (Ok root) fuel initial))) = true.
Proof.
  intros Hnotify Hin Hmiss.
  destruct (parse_nodes_never_complete ios fos _ node a [] Hin Hmiss) as (e & He).
  unfold main, setup, parse_notification_settings_from_xml.
  fold (notification_nodes root).
  apply Z.eqb_neq in Hnotify. rewrite Hnotify, He.
  destruct e; split; reflexivity.
Qed.

(** The message of the load-time error when the earlier records are
    complete and the fields of the faulty record convert. *)
Lemma incomplete_record_named E A bus ios fos root before after node settled obj a fuel :
  notify A <> 0 ->
  notification_nodes root = before ++ node :: after ->
  parse_nodes ios fos before [] = Ok settled ->
  assign_elements ios fos ∅ (children node) = Ok obj ->
  first_missing node = Some a ->
  parse_notification_settings_from_xml ios fos (Ok root)
  = Raise (ValueError (missing_message a))
  /\ main E A bus ios fos (Ok root) fuel initial
     = (Raise SystemExit,
        advance initial
          [EvPrint (Text "Error in executing notification monitoring setup; check notification setting file");
           EvPrint (Repr (ValueError (missing_message a)))] 0).
Proof.
  intros Hnotify Hnodes Hbefore Hobj Hmiss.
  assert (Hparse : parse_notification_settings_from_xml ios fos (Ok root)
                   = Raise (ValueError (missing_message a))).
  { unfold parse_notification_settings_from_xml.
    fold (notification_nodes root). rewrite Hnodes.
    rewrite (parse_nodes_app ios fos before _ [] settled Hbefore).
    apply (parse_nodes_incomplete ios fos node after settled obj a Hobj Hmiss). }
  split; [exact Hparse |].
  unfold main. erewrite bind_raise; [reflexivity|].
  unfold setup. apply Z.eqb_neq in Hnotify. rewrite Hnotify, Hparse.
  unfold print.
  rewrite (bind_ok _ _ _ _ _ (emit_advance _ _)).
  rewrite (bind_ok _ _ _ _ _ (emit_advance _ _)).
  rewrite advance_advance. reflexivity.
Qed.

(** A record that lacks a field has a first missing field. *)
Lemma missing_has_first node b :
  In b NOTIFICATION_SETTINGS_MANDATORY_ATTRIBUTES ->
  has_tag b node = false ->
  exists a, first_missing node = Some a.
Proof.
  intros Hin Hb. unfold first_missing.
  destruct (List.find _ _) as [a|] eqn:Hf; [exists a; reflexivity|].
  pose proof (List.find_none _ _ Hf b Hin) as Hn. cbv beta in Hn.
  rewrite Hb in Hn. discriminate.
Qed.

(** C9, as the claim states it, fails: the fields of a record are
    converted before the record is checked for missing fields.  In a
    document whose Spotify record lacks its interval and has the count
    "abc", the load-time error is the [ValueError] of [int], and its
    message names no field; for a record that lacks its interval and starts
    with a count element without text it is a [TypeError], whatever the
    conversions of the texts are. *)
Lemma C9_field_not_named_refuted :
  (In Sample.spotify_node_bad_count (notification_nodes Sample.bad_count_document)
   /\ has_tag "interval" Sample.spotify_node_bad_count = false
   /\ parse_notification_settings_from_xml Sample.int_of_string Sample.float_of_string
        (Ok Sample.bad_count_document)
      = Raise (ValueError "invalid literal for int() with base 10: 'abc'")
   /\ String.index 0 "interval" "invalid literal for int() with base 10: 'abc'" = None)
  /\ (In Sample.spotify_node_empty_count (notification_nodes Sample.empty_count_document)
      /\ has_tag "interval" Sample.spotify_node_empty_count = false
      /\ forall (ios : string -> result Z) (fos : string -> result float),
           parse_notification_settings_from_xml ios fos (Ok Sample.empty_count_document)
           = Raise TypeError).
Proof.
  split; [| split; [| split]].
  - vm_compute. auto.
  - left. reflexivity.
  - reflexivity.
  - intros ios fos. reflexivity.
Qed.

(** C9 (amended): with notification monitoring requested, a settings
    document with a record that lacks one of the four mandatory fields
    always makes the load fail and the setup exit, so that no iteration of
    the main loop runs (the run leaves nothing but printed lines), whatever
    the number of iterations asked for.  When the records before the
    faulty one are complete and convert, and the fields present in the
    faulty record convert, the load-time error is a [ValueError] whose
    message ends with the name of its first missing field, in the order
    name, color, count, interval (the missing field itself, when it is the
    only one), and the setup prints that error before it exits. *)
Theorem C9_incomplete_record :
  forall (E : env) (A : args) (bus : nat -> list dbus_message)
         (ios : string -> result Z) (fos : string -> result float)
         (root node : element) (b : string) (fuel : nat),
    notify A <> 0 ->
    In node (notification_nodes root) ->
    In b NOTIFICATION_SETTINGS_MANDATORY_ATTRIBUTES ->
    has_tag b node = false ->
    (exists e, parse_notification_settings_from_xml ios fos (Ok root) = Raise e)
    /\ fst (main E A bus ios fos (Ok root) fuel initial) = Raise SystemExit
    /\ forallb is_print (trace (snd (main E A bus ios fos (Ok root) fuel initial))) = true
    /\ exists a,
         first_missing node = Some a
         /\ In a NOTIFICATION_SETTINGS_MANDATORY_ATTRIBUTES
         /\ has_tag a node = false
         /\ ((forall c, In c NOTIFICATION_SETTINGS_MANDATORY_ATTRIBUTES ->
                        has_tag c node = false -> c = b) -> a = b)
         /\ forall (before after : list element)
                   (settled : list (gmap string value)) (obj : gmap string value),
              notification_nodes root = before ++ node :: after ->
              parse_nodes ios fos before [] = Ok settled ->
              assign_elements ios fos ∅ (children node) = Ok obj ->
              parse_notification_settings_from_xml ios fos (Ok root)
              = Raise (ValueError (missing_message a))
              /\ main E A bus ios fos (Ok root) fuel initial
                 = (Raise SystemExit,
                    advance initial
                      [EvPrint (Text "Error in executing notification monitoring setup; check notification setting file");
                       EvPrint (Repr (ValueError (missing_message a)))] 0).
Proof.
  intros E A bus ios fos root node b fuel Hnotify Hin Hb Hno.
  destruct (missing_has_first node b Hb Hno) as (a & Hmiss).
  destruct (first_missing_is_missing node a Hmiss) as [Ha Hnoa].
  destruct (incomplete_record_stops_startup E A bus ios fos root node a fuel
              Hnotify Hin Hmiss) as [Hexit Hprints].
  split; [| split; [exact Hexit | split; [exact Hprints |]]].
  - unfold parse_notification_settings_from_xml. fold (notification_nodes root).
    apply (parse_nodes_never_complete ios fos _ node a [] Hin Hmiss).
  - exists a. split; [exact Hmiss | split; [exact Ha | split; [exact Hnoa | split]]].
    + intros Honly. apply Honly; assumption.
    + intros before after settled obj Hnodes Hbefore Hobj.
      apply (incomplete_record_named E A bus ios fos root before after node settled obj a fuel);
        assumption.
Qed.

Lemma C9_incomplete_record_witness :
  (exists e, parse_notification_settings_from_xml Sample.int_of_string Sample.float_of_string
               (Ok Sample.incomplete_document) = Raise e)
  /\ fst (main Sample.connected Sample.quiet Sample.early_bus
            Sample.int_of_string Sample.float_of_string (Ok Sample.incomplete_document) 3 initial)
     = Raise SystemExit
  /\ forallb is_print
       (trace (snd (main Sample.connected Sample.quiet Sample.early_bus
                      Sample.int_of_string Sample.float_of_string
                      (Ok Sample.incomplete_document) 3 initial))) = true
  /\ exists a,
       first_missing Sample.spotify_node_no_interval = Some a
       /\ In a NOTIFICATION_SETTINGS_MANDATORY_ATTRIBUTES
       /\ has_tag a Sample.spotify_node_no_interval = false
       /\ ((forall c, In c NOTIFICATION_SETTINGS_MANDATORY_ATTRIBUTES ->
                      has_tag c Sample.spotify_node_no_interval = false ->
                      c = "interval"%string) -> a = "interval"%string)
       /\ forall (before after : list element)
                 (settled : list (gmap string value)) (obj : gmap string value),
            notification_nodes Sample.incomplete_document
            = before ++ Sample.spotify_node_no_interval :: after ->
            parse_nodes Sample.int_of_string Sample.float_of_string before [] = Ok settled ->
            assign_elements Sample.int_of_string Sample.float_of_string ∅
              (children Sample.spotify_node_no_interval) = Ok obj ->
            parse_notification_settings_from_xml Sample.int_of_string Sample.float_of_string
              (Ok Sample.incomplete_document)
            = Raise (ValueError (missing_message a))
            /\ main Sample.connected Sample.quiet Sample.early_bus
                 Sample.int_of_string Sample.float_of_string
                 (Ok Sample.incomplete_document) 3 initial
               = (Raise SystemExit,
                  advance initial
                    [EvPrint (Text "Error in executing notification monitoring setup; check notification setting file");
                     EvPrint (Repr (ValueError (missing_message a)))] 0).
Proof.
  apply (C9_incomplete_record Sample.connected Sample.quiet Sample.early_bus
           Sample.int_of_string Sample.float_of_string Sample.incomplete_document
           Sample.spotify_node_no_interval "interval" 3).
  - discriminate.
  - vm_compute. auto.
  - vm_compute. auto.
  - reflexivity.
Defined.

(** The run of the sample document with the incomplete record: the error
    names the interval. *)
Example incomplete_document_run :
  main Sample.connected Sample.quiet Sample.early_bus
    Sample.int_of_string Sample.float_of_string (Ok Sample.incomplete_document) 3 initial
  = (Raise SystemExit,
     advance initial
       [EvPrint (Text "Error in executing notification monitoring setup; check notification setting file");
        EvPrint (Repr (ValueError (missing_message "interval")))] 0).
Proof. vm_compute. reflexivity. Qed.

(** The failing run of C6 from the start of the program: the settings
    load, the scanner thread starts and hands over a notification of
    "Telegram Desktop" before the first iteration of the loop. *)
Example early_notification_run :
  main Sample.connected Sample.quiet Sample.early_bus
    Sample.int_of_string Sample.float_of_string (Ok Sample.document) 1 initial
  = (Raise (NameError "meter_color"), Sample.early "Telegram Desktop").
Proof. vm_compute. reflexivity. Qed.

(** ** Binary64 arithmetic and the real numbers *)

Section IeeeFacts.

Import Ieee.
Local Open Scope R_scope.

Lemma bpow_gt_0 e : 0 < bpow e.
Proof. apply powerRZ_lt. lra. Qed.

Lemma bpow_plus a b : bpow (a + b) = bpow a * bpow b.
Proof. apply powerRZ_add. lra. Qed.

Lemma bpow_0 : bpow 0 = 1.
Proof. reflexivity. Qed.

Lemma bpow_1 : bpow 1 = 2.
Proof. exact (powerRZ_1 2). Qed.

Lemma bpow_succ e : bpow (e + 1) = 2 * bpow e.
Proof. rewrite bpow_plus, bpow_1. lra. Qed.

Lemma bpow_IZR k : (0 <= k)%Z -> bpow k = IZR (2 ^ k).
Proof.
  intros Hk. pattern k. apply natlike_ind; [reflexivity | | exact Hk].
  intros x Hx IH. unfold Z.succ. rewrite bpow_succ, IH, Z.pow_add_r by lia.
  rewrite mult_IZR. change (2 ^ 1)%Z with 2%Z. lra.
Qed.

Lemma bpow_ge_1 k : (0 <= k)%Z -> 1 <= bpow k.
Proof.
  intros Hk. rewrite bpow_IZR by exact Hk. apply IZR_le.
  pose proof (Z.pow_pos_nonneg 2 k ltac:(lia) Hk). lia.
Qed.

Lemma bpow_le a b : (a <= b)%Z -> bpow a <= bpow b.
Proof.
  intros H. replace b with (a + (b - a))%Z by lia. rewrite bpow_plus.
  pose proof (bpow_gt_0 a). pose proof (bpow_ge_1 (b - a) ltac:(lia)). nra.
Qed.

Lemma bpow_lt a b : (a < b)%Z -> bpow a < bpow b.
Proof.
  intros H. replace b with (a + 1 + (b - a - 1))%Z by lia.
  rewrite bpow_plus, bpow_succ.
  pose proof (bpow_gt_0 a). pose proof (bpow_ge_1 (b - a - 1) ltac:(lia)). nra.
Qed.

Lemma bpow_lt_inv a b : bpow a < bpow b -> (a < b)%Z.
Proof.
  intros H. destruct (Z_lt_le_dec a b) as [Hlt | Hle]; [exact Hlt|].
  pose proof (bpow_le b a Hle). lra.
Qed.

Lemma F2R_0 e : F2R 0 e = 0.
Proof. unfold F2R. lra. Qed.

Lemma F2R_shift m e k : (0 <= k)%Z -> F2R (m * 2 ^ k) e = F2R m (e + k).
Proof.
  intros Hk. unfold F2R. rewrite mult_IZR, bpow_plus, <- bpow_IZR by exact Hk. lra.
Qed.

Lemma F2R_le m n e : (m <= n)%Z -> F2R m e <= F2R n e.
Proof.
  intros H. unfold F2R. apply IZR_le in H. pose proof (bpow_gt_0 e). nra.
Qed.

Lemma F2R_lt_inv m n e : F2R m e < F2R n e -> (m < n)%Z.
Proof.
  unfold F2R. intros H. apply lt_IZR. pose proof (bpow_gt_0 e). nra.
Qed.

Lemma F2R_le_inv m n e : F2R m e <= F2R n e -> (m <= n)%Z.
Proof.
  unfold F2R. intros H. apply le_IZR. pose proof (bpow_gt_0 e). nra.
Qed.

Lemma F2R_succ m e : F2R (m + 1) e = F2R m e + bpow e.
Proof. unfold F2R. rewrite plus_IZR. lra. Qed.

(** The number of binary digits. *)
Lemma digits2_pos_spec m :
  (2 ^ (Zpos (digits2_pos m) - 1) <= Zpos m < 2 ^ Zpos (digits2_pos m))%Z.
Proof.
  induction m as [m IH | m IH |].
  - cbn [digits2_pos]. rewrite Pos2Z.inj_succ.
    replace (Z.succ (Zpos (digits2_pos m)) - 1)%Z with (Zpos (digits2_pos m) - 1 + 1)%Z by lia.
    unfold Z.succ. rewrite !Z.pow_add_r by lia. change (2 ^ 1)%Z with 2%Z. lia.
  - cbn [digits2_pos]. rewrite Pos2Z.inj_succ.
    replace (Z.succ (Zpos (digits2_pos m)) - 1)%Z with (Zpos (digits2_pos m) - 1 + 1)%Z by lia.
    unfold Z.succ. rewrite !Z.pow_add_r by lia. change (2 ^ 1)%Z with 2%Z. lia.
  - cbn. lia.
Qed.

Lemma digits_upper m d : (0 <= d)%Z -> (Zpos m < 2 ^ d)%Z -> (Zpos (digits2_pos m) <= d)%Z.
Proof.
  intros Hd H. pose proof (digits2_pos_spec m) as [Hlo _].
  destruct (Z_le_gt_dec (Zpos (digits2_pos m)) d) as [Hle | Hgt]; [exact Hle|].
  pose proof (Z.pow_le_mono_r 2 d (Zpos (digits2_pos m) - 1) ltac:(lia) ltac:(lia)). lia.
Qed.

Lemma digits_lower m d : (2 ^ (d - 1) <= Zpos m)%Z -> (d <= Zpos (digits2_pos m))%Z.
Proof.
  intros H. pose proof (digits2_pos_spec m) as [_ Hhi].
  destruct (Z_le_gt_dec d (Zpos (digits2_pos m))) as [Hle | Hgt]; [exact Hle|].
  pose proof (Z.pow_le_mono_r 2 (Zpos (digits2_pos m)) (d - 1) ltac:(lia) ltac:(lia)). lia.
Qed.

(** *** Locations and right shifts *)

Lemma located_bounds v m e l : located v m e l -> F2R m e <= v < F2R (m + 1) e.
Proof.
  pose proof (bpow_gt_0 e) as Hb. rewrite F2R_succ. unfold F2R.
  destruct l as [|[| |]]; cbn [located]; unfold F2R; rewrite ?plus_IZR; intros H; lra.
Qed.

Lemma shr_1_located v mrs e :
  (0 <= shr_m mrs)%Z ->
  located v (shr_m mrs) e (loc_of_shr_record mrs) ->
  located v (shr_m (shr_1 mrs)) (e + 1) (loc_of_shr_record (shr_1 mrs))
  /\ (0 <= shr_m (shr_1 mrs))%Z.
Proof.
  pose proof (bpow_gt_0 e) as Hb.
  destruct mrs as [m r s]. cbn [shr_m]. intros Hm.
  destruct m as [|p|p]; [| |lia].
  - destruct r, s; cbn [shr_1 shr_m loc_of_shr_record located orb]; unfold F2R;
      rewrite ?bpow_succ, ?plus_IZR; intros H; (split; [lra | lia]).
  - destruct p as [p|p|]; destruct r, s;
      cbn [shr_1 shr_m loc_of_shr_record located orb]; unfold F2R;
      rewrite ?bpow_succ, ?plus_IZR, ?(IZR_POS_xO p), ?(IZR_POS_xI p); intros H;
      (split; [lra | lia]).
Qed.

Lemma iter_shr_1_located n : forall v mrs e,
  (0 <= shr_m mrs)%Z ->
  located v (shr_m mrs) e (loc_of_shr_record mrs) ->
  located v (shr_m (SpecFloat.iter_pos shr_1 n mrs)) (e + Zpos n)
          (loc_of_shr_record (SpecFloat.iter_pos shr_1 n mrs))
  /\ (0 <= shr_m (SpecFloat.iter_pos shr_1 n mrs))%Z.
Proof.
  induction n as [n IH | n IH |]; intros v mrs e Hm Hl; cbn [SpecFloat.iter_pos].
  - destruct (shr_1_located v mrs e Hm Hl) as [H1 M1].
    destruct (IH v _ _ M1 H1) as [H2 M2].
    destruct (IH v _ _ M2 H2) as [H3 M3].
    replace (e + Zpos n~1)%Z with (e + 1 + Zpos n + Zpos n)%Z by lia. auto.
  - destruct (IH v _ _ Hm Hl) as [H2 M2].
    destruct (IH v _ _ M2 H2) as [H3 M3].
    replace (e + Zpos n~0)%Z with (e + Zpos n + Zpos n)%Z by lia. auto.
  - apply shr_1_located; assumption.
Qed.

Lemma loc_of_shr_record_of_loc m l : loc_of_shr_record (shr_record_of_loc m l) = l.
Proof. destruct l as [|[| |]]; reflexivity. Qed.

Lemma shr_m_of_loc m l : shr_m (shr_record_of_loc m l) = m.
Proof. destruct l as [|[| |]]; reflexivity. Qed.

(** A shift to a higher exponent keeps the location. *)
Lemma shr_located v m e l n :
  (0 <= m)%Z ->
  located v m e l ->
  let '(mrs, e') := shr (shr_record_of_loc m l) e n in
  located v (shr_m mrs) e' (loc_of_shr_record mrs)
  /\ (0 <= shr_m mrs)%Z
  /\ e' = (if (0 <? n)%Z then e + n else e)%Z.
Proof.
  intros Hm Hl. unfold shr. destruct n as [|p|p].
  - rewrite loc_of_shr_record_of_loc, shr_m_of_loc. auto.
  - destruct (iter_shr_1_located p v (shr_record_of_loc m l) e) as [H1 H2].
    + rewrite shr_m_of_loc. exact Hm.
    + rewrite loc_of_shr_record_of_loc, shr_m_of_loc. exact Hl.
    + auto.
  - rewrite loc_of_shr_record_of_loc, shr_m_of_loc. auto.
Qed.

(** *** The format *)

Lemma fexp_spec k : fexp k = Z.max (k - 53) (-1074).
Proof. reflexivity. Qed.

Lemma canonical_spec m e :
  canonical m e <-> e = Z.max (Zpos (digits2_pos m) + e - 53) (-1074).
Proof.
  unfold canonical, canonical_mantissa. rewrite Z.eqb_eq.
  change (SpecFloat.fexp prec emax) with fexp. rewrite fexp_spec. split; intros H; lia.
Qed.

Lemma F2R_pow2 k e : (0 <= k)%Z -> F2R (2 ^ k) e = bpow (e + k).
Proof.
  intros Hk. unfold F2R. rewrite bpow_plus, <- bpow_IZR by exact Hk. lra.
Qed.

Lemma F2R_lt_bpow m e k : (0 <= k)%Z -> F2R m e < bpow (e + k) -> (m < 2 ^ k)%Z.
Proof. intros Hk H. rewrite <- F2R_pow2 in H by exact Hk. apply (F2R_lt_inv _ _ e H). Qed.

Lemma F2R_ge_bpow m e k : (0 <= k)%Z -> bpow (e + k) <= F2R m e -> (2 ^ k <= m)%Z.
Proof. intros Hk H. rewrite <- F2R_pow2 in H by exact Hk. apply (F2R_le_inv _ _ e H). Qed.

(** A positive number lies between the powers of two given by its number
    of digits. *)
Lemma F2R_digits m e :
  bpow (Zpos (digits2_pos m) + e - 1) <= F2R (Zpos m) e
  /\ F2R (Zpos m + 1) e <= bpow (Zpos (digits2_pos m) + e).
Proof.
  pose proof (digits2_pos_spec m) as [Hlo Hhi].
  pose proof (Pos2Z.is_pos (digits2_pos m)) as Hd.
  split.
  - replace (Zpos (digits2_pos m) + e - 1)%Z with (e + (Zpos (digits2_pos m) - 1))%Z by lia.
    rewrite <- F2R_pow2 by lia. apply F2R_le. exact Hlo.
  - replace (Zpos (digits2_pos m) + e)%Z with (e + Zpos (digits2_pos m))%Z by lia.
    rewrite <- F2R_pow2 by lia. apply F2R_le. lia.
Qed.

Lemma canonical_bounds m e :
  canonical m e ->
  (-1074 <= e)%Z /\ (Zpos m < 2 ^ 53)%Z /\ (e = (-1074)%Z \/ (2 ^ 52 <= Zpos m)%Z).
Proof.
  rewrite canonical_spec. intros H.
  pose proof (digits2_pos_spec m) as [Hlo Hhi].
  split; [lia | split].
  - assert (Hd : (Zpos (digits2_pos m) <= 53)%Z) by lia.
    pose proof (Z.pow_le_mono_r 2 _ 53 ltac:(lia) Hd). lia.
  - destruct (Z.eq_dec e (-1074)%Z) as [He | He]; [left; exact He | right].
    assert (Hd : Zpos (digits2_pos m) = 53%Z) by lia.
    rewrite Hd in Hlo. exact Hlo.
Qed.

Lemma canonical_intro m e :
  (-1074 <= e)%Z -> (Zpos m < 2 ^ 53)%Z -> (e = (-1074)%Z \/ (2 ^ 52 <= Zpos m)%Z) ->
  canonical m e.
Proof.
  intros He Hm Hn. rewrite canonical_spec.
  pose proof (digits_upper m 53 ltac:(lia) Hm) as Hd.
  destruct Hn as [-> | Hn]; [lia|].
  pose proof (digits_lower m 53 Hn). lia.
Qed.

(** Between two neighbours on the grid of a canonical exponent there is no
    number of the format. *)
Lemma format_gap m1 e1 G :
  (0 <= m1)%Z -> (-1074 <= e1)%Z -> (e1 = (-1074)%Z \/ (2 ^ 52 <= m1)%Z) ->
  format G -> G <= F2R m1 e1 \/ F2R (m1 + 1) e1 <= G.
Proof.
  intros Hm He Hn [-> | (mg & eg & Hc & ->)].
  - left. rewrite <- (F2R_0 e1). apply F2R_le. exact Hm.
  - destruct (canonical_bounds mg eg Hc) as (Heg & Hmg & _).
    destruct (Z_le_gt_dec e1 eg) as [Hle | Hgt].
    + replace eg with (e1 + (eg - e1))%Z by lia.
      rewrite <- F2R_shift by lia.
      destruct (Z_le_gt_dec (Zpos mg * 2 ^ (eg - e1))%Z m1) as [H1 | H1].
      * left. apply F2R_le. exact H1.
      * right. apply F2R_le. lia.
    + left. destruct Hn as [-> | Hn]; [lia|].
      apply Rle_trans with (bpow (e1 + 52)).
      * apply Rle_trans with (bpow (eg + 53)).
        -- rewrite <- F2R_pow2 by lia. apply F2R_le. lia.
        -- apply bpow_le. lia.
      * rewrite <- F2R_pow2 by lia. apply F2R_le. exact Hn.
Qed.

(** *** Rounding *)

Lemma round_nearest_even_closer v m e l :
  located v m e l ->
  (round_nearest_even m l = m \/ round_nearest_even m l = (m + 1)%Z)
  /\ Rabs (F2R (round_nearest_even m l) e - v) <= v - F2R m e
  /\ Rabs (F2R (round_nearest_even m l) e - v) <= F2R (m + 1) e - v.
Proof.
  pose proof (bpow_gt_0 e) as Hb. intros Hl.
  assert (Habs : forall x y : R, - y <= x <= y -> Rabs x <= y)
    by (intros x y H; apply Rabs_le; exact H).
  destruct l as [|[| |]]; cbn [located round_nearest_even] in Hl |- *.
  - rewrite F2R_succ. split; [auto | split; apply Habs; lra].
  - rewrite F2R_succ. unfold F2R in *.
    destruct (Z.even m); rewrite ?plus_IZR;
      (split; [auto | split; apply Habs; lra]).
  - rewrite F2R_succ. unfold F2R in *. split; [auto | split; apply Habs; lra].
  - rewrite F2R_succ in *. unfold F2R in *. rewrite ?plus_IZR in *.
    split; [auto | split; apply Habs; lra].
Qed.

Lemma nearest_of_neighbours v m e F :
  (0 <= m)%Z -> (-1074 <= e)%Z -> (e = (-1074)%Z \/ (2 ^ 52 <= m)%Z) ->
  F2R m e <= v < F2R (m + 1) e ->
  format F ->
  Rabs (F - v) <= v - F2R m e ->
  Rabs (F - v) <= F2R (m + 1) e - v ->
  nearest v F.
Proof.
  intros Hm He Hn Hv HF H1 H2. split; [exact HF|].
  intros G HG. destruct (format_gap m e G Hm He Hn HG) as [Hlo | Hhi].
  - rewrite (Rabs_left1 (G - v)) by lra. lra.
  - rewrite (Rabs_pos_eq (G - v)) by lra. lra.
Qed.

(** The rounding of the located number: the result is the float of a
    nearest number of the format. *)
Lemma binary_round_aux_correct s v mx ex lx :
  (0 <= mx)%Z ->
  located v mx ex lx ->
  (ex <= fexp (Zdigits2 mx + ex))%Z ->
  exists F, nearest v F /\ rounded s (binary_round_aux prec emax s mx ex lx) F.
Proof.
  intros Hmx Hloc Hex.
  unfold binary_round_aux, shr_fexp. change (SpecFloat.fexp prec emax) with fexp.
  pose proof (shr_located v mx ex lx (fexp (Zdigits2 mx + ex) - ex) Hmx Hloc) as H1.
  destruct (shr (shr_record_of_loc mx lx) ex (fexp (Zdigits2 mx + ex) - ex)) as [mrs1 e1].
  destruct H1 as (Hl1 & Hm1 & He1).
  set (m1 := shr_m mrs1) in *. set (l1 := loc_of_shr_record mrs1) in *.
  assert (He1' : e1 = fexp (Zdigits2 mx + ex)).
  { rewrite He1. destruct (Z.ltb_spec 0 (fexp (Zdigits2 mx + ex) - ex)); lia. }
  clear He1.
  pose proof (located_bounds v m1 e1 l1 Hl1) as Hv1.
  pose proof (located_bounds v mx ex lx Hloc) as Hv.
  (* the size of the shifted mantissa *)
  assert (Hvhi : v < bpow (Zdigits2 mx + ex)).
  { destruct mx as [|p|p]; [| |lia].
    - cbn [Zdigits2]. replace (0 + 1)%Z with (2 ^ 0)%Z in Hv by reflexivity.
      rewrite F2R_pow2 in Hv by lia. replace (ex + 0)%Z with (0 + ex)%Z in Hv by lia. lra.
    - cbn [Zdigits2]. pose proof (F2R_digits p ex). lra. }
  assert (He1min : (-1074 <= e1)%Z) by (rewrite He1', fexp_spec; lia).
  assert (Hm1hi : (m1 < 2 ^ 53)%Z).
  { apply (F2R_lt_bpow m1 e1 53); [lia|].
    apply Rle_lt_trans with v; [lra|]. apply Rlt_le_trans with (1 := Hvhi).
    apply bpow_le. rewrite He1', fexp_spec. lia. }
  assert (Hnorm : e1 = (-1074)%Z \/ (2 ^ 52 <= m1)%Z).
  { destruct (Z.eq_dec e1 (-1074)%Z) as [E | E]; [left; exact E | right].
    assert (E1 : e1 = (Zdigits2 mx + ex - 53)%Z) by (rewrite fexp_spec in He1'; lia).
    destruct mx as [|p|p]; [| |lia].
    - cbn [Zdigits2] in *. rewrite fexp_spec in Hex. lia.
    - cbn [Zdigits2] in *. pose proof (F2R_digits p ex) as [Hd _].
      assert (Hlt : (2 ^ 52 < m1 + 1)%Z).
      { apply (F2R_lt_inv _ _ e1). rewrite F2R_pow2 by lia.
        replace (e1 + 52)%Z with (Zpos (digits2_pos p) + ex - 1)%Z by lia. lra. }
      lia. }
  (* the choice between the two neighbours *)
  destruct (round_nearest_even_closer v m1 e1 l1 Hl1) as (Hm2 & Hc1 & Hc2).
  set (m2 := round_nearest_even m1 l1) in *.
  assert (Hm2pos : (0 <= m2)%Z) by lia.
  (* the second shift *)
  pose proof (shr_located (F2R m2 e1) m2 e1 loc_Exact (fexp (Zdigits2 m2 + e1) - e1)
                Hm2pos eq_refl) as H3.
  destruct (shr (shr_record_of_loc m2 loc_Exact) e1 (fexp (Zdigits2 m2 + e1) - e1))
    as [mrs3 e3].
  destruct H3 as (Hl3 & Hm3 & He3).
  set (m3 := shr_m mrs3) in *.
  pose proof (located_bounds _ _ _ _ Hl3) as Hv3. clear Hl3.
  exists (F2R m2 e1).
  assert (Hfinal : (m2 = 0%Z /\ m3 = 0%Z)
                   \/ exists p, m3 = Zpos p /\ canonical p e3 /\ F2R m2 e1 = F2R (Zpos p) e3).
  { destruct (Z.eq_dec m2 0%Z) as [Z2 | NZ2].
    - left. split; [exact Z2|]. rewrite Z2, F2R_0 in Hv3.
      destruct Hv3 as [Hv3 _]. rewrite <- (F2R_0 e3) in Hv3.
      apply F2R_le_inv in Hv3. lia.
    - right. destruct m2 as [|p2|p2]; [lia | | lia].
      cbn [Zdigits2] in He3.
      destruct (Z_lt_le_dec (Zpos p2) (2 ^ 53)%Z) as [Hlt | Hge].
      + (* no carry: the exponent stays *)
        assert (Hcan : canonical p2 e1).
        { apply canonical_intro; [exact He1min | exact Hlt |].
          destruct Hnorm as [E | N]; [left; exact E | right; lia]. }
        apply canonical_spec in Hcan.
        assert (E3 : e3 = e1).
        { rewrite He3, fexp_spec.
          destruct (Z.ltb_spec 0 (Z.max (Zpos (digits2_pos p2) + e1 - 53) (-1074) - e1)); lia. }
        clear He3. subst e3. exists p2. split; [| split; [apply canonical_spec; exact Hcan | reflexivity]].
        destruct Hv3 as [Hlo Hhi]. apply F2R_le_inv in Hlo. apply F2R_lt_inv in Hhi. lia.
      + (* carry: the mantissa is 2^53 and moves to the next exponent *)
        assert (E2 : Zpos p2 = (2 ^ 53)%Z) by lia.
        assert (Hd : Zpos (digits2_pos p2) = 54%Z).
        { pose proof (digits_lower p2 54 ltac:(lia)).
          pose proof (digits_upper p2 54 ltac:(lia) ltac:(lia)). lia. }
        assert (E3 : e3 = (e1 + 1)%Z).
        { rewrite He3, Hd, fexp_spec.
          destruct (Z.ltb_spec 0 (Z.max (54 + e1 - 53) (-1074) - e1)); lia. }
        clear He3. subst e3. rewrite E2 in Hv3.
        assert (E : F2R (2 ^ 53) e1 = F2R (2 ^ 52) (e1 + 1)).
        { rewrite <- F2R_shift by lia. reflexivity. }
        rewrite E in Hv3. destruct Hv3 as [Hlo Hhi].
        apply F2R_le_inv in Hlo. apply F2R_lt_inv in Hhi.
        assert (M3 : m3 = (2 ^ 52)%Z) by lia.
        exists (Z.to_pos (2 ^ 52)). rewrite M3.
        split; [reflexivity | split].
        * apply canonical_intro; [lia | reflexivity | right; reflexivity].
        * rewrite E2. exact E. }
  split.
  - (* nearest *)
    apply (nearest_of_neighbours v m1 e1); try assumption.
    destruct Hfinal as [[Z2 _] | (p & _ & Hcan & HF)].
    + left. rewrite Z2. apply F2R_0.
    + right. exists p, e3. split; assumption.
  - (* the float *)
    destruct Hfinal as [[Z2 Z3] | (p & M3 & Hcan & HF)].
    + left. rewrite Z3, Z2. split; [apply F2R_0 | reflexivity].
    + right. exists p, e3. rewrite M3. split; [exact Hcan | split; [exact HF | reflexivity]].
Qed.

(** *** The order of the floats and of their values *)

Lemma F2R_pos m e : 0 < F2R (Zpos m) e.
Proof.
  unfold F2R. pose proof (bpow_gt_0 e). pose proof (IZR_lt 0 (Zpos m) ltac:(lia)). nra.
Qed.

Lemma canonical_lt m1 e1 m2 e2 :
  canonical m1 e1 -> canonical m2 e2 -> (e1 < e2)%Z ->
  F2R (Zpos m1) e1 < F2R (Zpos m2) e2.
Proof.
  intros H1 H2 He.
  destruct (canonical_bounds _ _ H1) as (Hmin1 & Hhi1 & _).
  destruct (canonical_bounds _ _ H2) as (_ & _ & [E | Hlo2]); [lia|].
  apply Rlt_le_trans with (bpow (e1 + 53)).
  - rewrite <- F2R_pow2 by lia.
    unfold F2R. pose proof (bpow_gt_0 e1). apply IZR_lt in Hhi1. nra.
  - apply Rle_trans with (bpow (e2 + 52)); [apply bpow_le; lia|].
    rewrite <- F2R_pow2 by lia. apply F2R_le. exact Hlo2.
Qed.

Lemma canonical_le_exponent m1 e1 m2 e2 :
  canonical m1 e1 -> canonical m2 e2 ->
  F2R (Zpos m1) e1 <= F2R (Zpos m2) e2 -> (e1 <= e2)%Z.
Proof.
  intros H1 H2 H. destruct (Z_le_gt_dec e1 e2) as [Hle | Hgt]; [exact Hle|].
  pose proof (canonical_lt m2 e2 m1 e1 H2 H1 ltac:(lia)). lra.
Qed.

Lemma nonneg_finite m e : nonneg (S754_finite false m e) -> canonical m e /\ (e <= 971)%Z.
Proof.
  cbn [nonneg]. unfold SpecFloat.bounded. intros H. apply andb_prop in H as [Hc He].
  split; [exact Hc | apply Z.leb_le in He; exact He].
Qed.

Lemma value_nonneg f : nonneg f -> 0 <= value f.
Proof.
  destruct f as [s|s| |[|] m e]; cbn; try tauto; try lra.
  intros _. apply Rlt_le, F2R_pos.
Qed.

Lemma nonneg_format f : nonneg f -> format (value f).
Proof.
  destruct f as [s|s| |[|] m e]; cbn [nonneg value]; try tauto; intros H.
  - left. reflexivity.
  - right. exists m, e. split; [apply (nonneg_finite m e H) | reflexivity].
Qed.

(** [<] and [<=] on zeros and positive finite floats are those of the
    values. *)
Lemma flt_spec f g : nonneg f -> nonneg g -> (flt f g = true <-> value f < value g).
Proof.
  unfold flt, SFltb.
  destruct f as [s|s| |[|] m1 e1]; cbn [nonneg]; try tauto;
    destruct g as [t|t| |[|] m2 e2]; cbn [nonneg]; try tauto; intros Hf Hg;
    cbn [SFcompare value].
  - split; [discriminate | lra].
  - pose proof (F2R_pos m2 e2). split; [lra | reflexivity].
  - pose proof (F2R_pos m1 e1). split; [discriminate | lra].
  - destruct (nonneg_finite _ _ Hf) as [C1 _]. destruct (nonneg_finite _ _ Hg) as [C2 _].
    destruct (Z.compare_spec e1 e2) as [E | L | G].
    + subst e2. rewrite Pos.compare_cont_spec. cbn [Pos.switch_Eq].
      destruct (Pos.compare_spec m1 m2) as [E | L | G].
      * subst m2. split; [discriminate | lra].
      * split; [intros _ | reflexivity].
        unfold F2R. pose proof (bpow_gt_0 e1). apply (IZR_lt (Zpos m1) (Zpos m2)) in L. nra.
      * split; [discriminate|]. intros H. apply F2R_lt_inv in H. lia.
    + split; [intros _; apply canonical_lt; assumption | reflexivity].
    + pose proof (canonical_lt m2 e2 m1 e1 C2 C1 ltac:(lia)). split; [discriminate | lra].
Qed.

Lemma fle_spec f g : nonneg f -> nonneg g -> (fle f g = true <-> value f <= value g).
Proof.
  unfold fle, SFleb.
  destruct f as [s|s| |[|] m1 e1]; cbn [nonneg]; try tauto;
    destruct g as [t|t| |[|] m2 e2]; cbn [nonneg]; try tauto; intros Hf Hg;
    cbn [SFcompare value].
  - split; [lra | reflexivity].
  - pose proof (F2R_pos m2 e2). split; [lra | reflexivity].
  - pose proof (F2R_pos m1 e1). split; [discriminate | lra].
  - destruct (nonneg_finite _ _ Hf) as [C1 _]. destruct (nonneg_finite _ _ Hg) as [C2 _].
    destruct (Z.compare_spec e1 e2) as [E | L | G].
    + subst e2. rewrite Pos.compare_cont_spec. cbn [Pos.switch_Eq].
      destruct (Pos.compare_spec m1 m2) as [E | L | G].
      * subst m2. split; [lra | reflexivity].
      * split; [intros _ | reflexivity].
        apply F2R_le. lia.
      * split; [discriminate|]. intros H. apply F2R_le_inv in H. lia.
    + split; [intros _; apply Rlt_le, canonical_lt; assumption | reflexivity].
    + pose proof (canonical_lt m2 e2 m1 e1 C2 C1 ltac:(lia)). split; [discriminate | lra].
Qed.

(** Floats of the same value are the same, up to the sign of a zero. *)
Lemma value_inj f g :
  nonneg f -> nonneg g -> value f = value g ->
  f = g \/ (value f = 0 /\ value g = 0).
Proof.
  destruct f as [s|s| |[|] m1 e1]; cbn [nonneg]; try tauto;
    destruct g as [t|t| |[|] m2 e2]; cbn [nonneg]; try tauto; intros Hf Hg;
    cbn [value]; intros H.
  - pose proof (F2R_pos m2 e2). lra.
  - left. destruct (nonneg_finite _ _ Hf) as [C1 _]. destruct (nonneg_finite _ _ Hg) as [C2 _].
    assert (E : e1 = e2).
    { pose proof (canonical_le_exponent _ _ _ _ C1 C2 ltac:(lra)).
      pose proof (canonical_le_exponent _ _ _ _ C2 C1 ltac:(lra)). lia. }
    subst e2. f_equal.
    assert (Zpos m1 <= Zpos m2)%Z by (apply (F2R_le_inv _ _ e1); lra).
    assert (Zpos m2 <= Zpos m1)%Z by (apply (F2R_le_inv _ _ e1); lra).
    lia.
Qed.

(** *** Nearest numbers *)

Lemma format_nonneg x : format x -> 0 <= x.
Proof.
  intros [-> | (m & e & _ & ->)]; [lra | apply Rlt_le, F2R_pos].
Qed.

Lemma nearest_self x : format x -> nearest x x.
Proof.
  intros H. split; [exact H|]. intros G _.
  replace (x - x) with 0 by lra. rewrite Rabs_R0. apply Rabs_pos.
Qed.

Lemma nearest_format x F : format x -> nearest x F -> F = x.
Proof.
  intros Hx [_ H]. specialize (H x Hx).
  replace (x - x) with 0 in H by lra. rewrite Rabs_R0 in H.
  pose proof (Rabs_pos (F - x)).
  destruct (Req_dec (F - x) 0) as [E | N]; [lra|].
  pose proof (Rabs_pos_lt _ N). lra.
Qed.

(** Rounding to nearest is monotone. *)
Lemma nearest_lt u v Fu Fv : u < v -> nearest u Fu -> nearest v Fv -> Fu <= Fv.
Proof.
  intros Huv [HFu Hu] [HFv Hv].
  specialize (Hu Fv HFv). specialize (Hv Fu HFu).
  destruct (Rle_lt_dec Fu Fv) as [Hle | Hgt]; [exact Hle | exfalso].
  unfold Rabs in Hu, Hv.
  destruct (Rcase_abs (Fu - u)), (Rcase_abs (Fv - u)),
    (Rcase_abs (Fv - v)), (Rcase_abs (Fu - v)); lra.
Qed.

Lemma nearest_ge G v F : format G -> G <= v -> nearest v F -> G <= F.
Proof.
  intros HG [Hlt | ->] HF.
  - apply (nearest_lt G v G F Hlt (nearest_self G HG) HF).
  - rewrite (nearest_format _ _ HG HF). lra.
Qed.

Lemma nearest_le G v F : format G -> v <= G -> nearest v F -> F <= G.
Proof.
  intros HG [Hlt | <-] HF.
  - apply (nearest_lt v G F G Hlt HF (nearest_self G HG)).
  - rewrite (nearest_format _ _ HG HF). lra.
Qed.

(** A rounded magnitude below a finite float is a finite float. *)
Lemma rounded_below s f F c :
  rounded s f F -> nonneg c -> F <= value c ->
  (F = 0 /\ f = S754_zero s) \/ exists m e, f = S754_finite s m e /\ nonneg (S754_finite false m e) /\ F = F2R (Zpos m) e.
Proof.
  intros [[HF Hf] | (m & e & Hc & HF & Hf)] Hcn Hle; [left; auto | right].
  exists m, e.
  assert (He : (e <= 971)%Z).
  { destruct c as [t|t| |[|] mc ec]; cbn [nonneg value] in Hcn, Hle; try tauto.
    - pose proof (F2R_pos m e). lra.
    - destruct (nonneg_finite _ _ Hcn) as [Cc Hec].
      pose proof (canonical_le_exponent m e mc ec Hc Cc ltac:(lra)). lia. }
  change (emax - prec)%Z with 971%Z in Hf.
  rewrite (proj2 (Z.leb_le e 971) He) in Hf.
  split; [exact Hf | split; [| exact HF]].
  cbn [nonneg]. unfold SpecFloat.bounded. apply andb_true_intro. split; [exact Hc|].
  apply Z.leb_le. exact He.
Qed.

Lemma rounding_below s f v F c :
  nearest v F -> rounded s f F -> nonneg c -> v <= value c ->
  (F = 0 /\ f = S754_zero s)
  \/ exists m e, f = S754_finite s m e /\ nonneg (S754_finite false m e)
                  /\ nearest v (F2R (Zpos m) e).
Proof.
  intros Hn Hr Hc Hv.
  pose proof (nearest_le (value c) v F (nonneg_format c Hc) Hv Hn) as HF.
  destruct (rounded_below s f F c Hr Hc HF) as [H0 | (m & e & Hf & Hnn & HFe)];
    [left; exact H0 | right].
  exists m, e. rewrite <- HFe. auto.
Qed.

(** The same for a result that is not negative. *)
Lemma rounding_nonneg f v F c :
  nearest v F -> rounded false f F -> nonneg c -> v <= value c ->
  nonneg f /\ nearest v (value f).
Proof.
  intros Hn Hr Hc Hv.
  destruct (rounding_below false f v F c Hn Hr Hc Hv)
    as [[H0 Hf] | (m & e & Hf & Hnn & Hne)]; subst f; cbn [nonneg value].
  - split; [exact I | rewrite <- H0; exact Hn].
  - split; assumption.
Qed.

(** *** Division *)

Lemma new_location_located (q r my e : Z) :
  (0 < my)%Z -> (0 <= r < my)%Z ->
  located ((IZR q + IZR r / IZR my) * bpow e) q e (new_location my r).
Proof.
  intros Hmy Hr. pose proof (bpow_gt_0 e) as Hb.
  assert (HM : 0 < IZR my) by (apply (IZR_lt 0); exact Hmy).
  set (f := IZR r / IZR my).
  assert (Hf : f * IZR my = IZR r) by (unfold f; field; lra).
  assert (Hcmp : forall k : Z, (k < my)%Z -> IZR k < IZR my) by (intros; apply IZR_lt; assumption).
  unfold new_location.
  replace ((if Z.even my then new_location_even my else new_location_odd my) r)
    with (if Z.even my then new_location_even my r else new_location_odd my r)
    by (destruct (Z.even my); reflexivity).
  unfold new_location_even, new_location_odd.
  destruct (Z.eqb_spec r 0) as [R0 | RN].
  - assert (F0 : f = 0) by (unfold f; rewrite R0; field; lra).
    rewrite F0. destruct (Z.even my); cbn [located]; unfold F2R; lra.
  - assert (Fpos : 0 < f).
    { assert (0 < IZR r) by (apply (IZR_lt 0); lia). unfold f. apply Rdiv_lt_0_compat; lra. }
    assert (Flt1 : f < 1).
    { assert (IZR r < IZR my) by (apply IZR_lt; lia). nra. }
    assert (Hhalf : forall c, (2 * r ?= my)%Z = c ->
              match c with
              | Lt => f < / 2
              | Eq => f = / 2
              | Gt => / 2 < f
              end).
    { intros c Hc. destruct c.
      - apply Z.compare_eq in Hc. apply (f_equal IZR) in Hc. rewrite mult_IZR in Hc. nra.
      - rewrite Z.compare_lt_iff in Hc. apply IZR_lt in Hc. rewrite mult_IZR in Hc. nra.
      - rewrite Z.compare_gt_iff in Hc. apply IZR_lt in Hc. rewrite mult_IZR in Hc. nra. }
    destruct (Z.even my) eqn:Ev.
    + specialize (Hhalf _ eq_refl).
      destruct (2 * r ?= my)%Z; cbn [located]; rewrite ?F2R_succ; unfold F2R; nra.
    + assert (Hodd : (2 * r <> my)%Z).
      { intros E. rewrite <- E, Z.even_mul in Ev. discriminate. }
      destruct (Z.compare_spec (2 * r + 1) my) as [E | L | G].
      * assert (Hc : (2 * r ?= my)%Z = Lt) by (apply Z.compare_lt_iff; lia).
        specialize (Hhalf _ Hc). cbn [located]. unfold F2R. nra.
      * assert (Hc : (2 * r ?= my)%Z = Lt) by (apply Z.compare_lt_iff; lia).
        specialize (Hhalf _ Hc). cbn [located]. unfold F2R. nra.
      * assert (Hc : (2 * r ?= my)%Z = Gt) by (apply Z.compare_gt_iff; lia).
        specialize (Hhalf _ Hc). cbn [located]. rewrite F2R_succ. unfold F2R. nra.
Qed.

Lemma pow2_pos k : (0 <= k)%Z -> (0 < 2 ^ k)%Z.
Proof. intros H. apply Z.pow_pos_nonneg; lia. Qed.

(** The quotient of two positive numbers, as the division core locates
    it. *)
Lemma SFdiv_core_binary_located mx ex my ey :
  let '(q, e', l) := SFdiv_core_binary prec emax (Zpos mx) ex (Zpos my) ey in
  (0 <= q)%Z
  /\ located (F2R (Zpos mx) ex / F2R (Zpos my) ey) q e' l
  /\ (e' <= fexp (Zdigits2 q + e'))%Z.
Proof.
  unfold SFdiv_core_binary. change (SpecFloat.fexp prec emax) with fexp.
  cbn [Zdigits2].
  set (d1 := Zpos (digits2_pos mx)). set (d2 := Zpos (digits2_pos my)).
  set (k := (d1 + ex - (d2 + ey))%Z).
  set (e' := Z.min (fexp k) (ex - ey)).
  set (s := (ex - ey - e')%Z).
  assert (Hs : (0 <= s)%Z) by (unfold s, e'; lia).
  set (m' := match s with
             | Zpos _ => Z.shiftl (Zpos mx) s
             | 0%Z => Zpos mx
             | Zneg _ => 0%Z
             end).
  assert (Hm' : m' = (Zpos mx * 2 ^ s)%Z).
  { unfold m'. destruct s as [|p|p]; [cbn; lia | | lia].
    rewrite Z.shiftl_mul_pow2 by lia. reflexivity. }
  pose proof (Z_div_mod m' (Zpos my) ltac:(lia)) as Hdiv.
  destruct (Z.div_eucl m' (Zpos my)) as [q r]. destruct Hdiv as [Hqr Hr].
  pose proof (pow2_pos s Hs) as Hps.
  assert (Hq : (0 <= q)%Z) by nia.
  split; [exact Hq | split].
  - (* the location *)
    pose proof (new_location_located q r (Zpos my) e' ltac:(lia) Hr) as Hloc.
    replace (F2R (Zpos mx) ex / F2R (Zpos my) ey)
      with ((IZR q + IZR r / IZR (Zpos my)) * bpow e'); [exact Hloc|].
    unfold F2R. replace ex with (e' + s + ey)%Z by (unfold s; lia).
    rewrite !bpow_plus, (bpow_IZR s Hs).
    assert (HM : 0 < IZR (Zpos my)) by (apply (IZR_lt 0); lia).
    pose proof (bpow_gt_0 ey). pose proof (bpow_gt_0 e').
    assert (HE : IZR (Zpos mx) * IZR (2 ^ s) = IZR (Zpos my) * IZR q + IZR r).
    { rewrite <- !mult_IZR, <- plus_IZR. f_equal. lia. }
    replace (IZR q + IZR r / IZR (Zpos my))
      with (IZR (Zpos mx) * IZR (2 ^ s) / IZR (Zpos my)) by (rewrite HE; field; lra).
    field. lra.
  - (* enough digits for the rounding *)
    pose proof (digits2_pos_spec mx) as [Hx1 Hx2]. fold d1 in Hx1, Hx2.
    pose proof (digits2_pos_spec my) as [Hy1 Hy2]. fold d2 in Hy1, Hy2.
    assert (Hd1 : (0 < d1)%Z) by (unfold d1; lia).
    assert (Hd2 : (0 < d2)%Z) by (unfold d2; lia).
    assert (He' : (e' <= fexp k)%Z) by (unfold e'; lia).
    destruct q as [|pq|pq]; [| |lia].
    + (* the quotient is below one unit: the exponent is the least one *)
      cbn [Zdigits2]. rewrite fexp_spec in He' |- *.
      assert (Hlt : (2 ^ (d1 - 1 + s) < 2 ^ d2)%Z).
      { rewrite Z.pow_add_r by lia. nia. }
      apply Z.pow_lt_mono_r_iff in Hlt; [| lia | lia].
      unfold k, s in *. lia.
    + cbn [Zdigits2].
      assert (Hdq : (d1 + s - d2 <= Zpos (digits2_pos pq))%Z).
      { apply digits_lower.
        destruct (Z_lt_le_dec (d1 + s - d2 - 1) 0) as [Hneg | Hnn].
        - rewrite Z.pow_neg_r by exact Hneg. lia.
        - assert (E : (2 ^ (d1 - 1) * 2 ^ s = 2 ^ (d1 + s - d2 - 1) * 2 ^ d2)%Z).
          { rewrite <- !Z.pow_add_r by lia. f_equal. lia. }
          pose proof (pow2_pos (d1 + s - d2 - 1) Hnn).
          pose proof (pow2_pos d2 ltac:(lia)).
          nia. }
      rewrite fexp_spec in He' |- *. unfold k, s in *. lia.
Qed.

(** The quotient of a zero or positive float by a positive float, when it
    is at most [c]. *)
Lemma fdiv_correct x my ey c :
  nonneg x -> nonneg (S754_finite false my ey) -> nonneg c ->
  value x / F2R (Zpos my) ey <= value c ->
  nonneg (fdiv x (S754_finite false my ey))
  /\ nearest (value x / F2R (Zpos my) ey) (value (fdiv x (S754_finite false my ey))).
Proof.
  intros Hx Hy Hc Hv.
  destruct x as [s|s| |[|] mx ex]; cbn [nonneg] in Hx; try tauto.
  - cbn [fdiv SFdiv nonneg value]. split; [exact I|].
    replace (0 / F2R (Zpos my) ey) with 0 by (unfold Rdiv; lra).
    apply nearest_self. left. reflexivity.
  - cbn [value] in Hv |- *. unfold fdiv. cbn [SFdiv xorb].
    pose proof (SFdiv_core_binary_located mx ex my ey) as H.
    destruct (SFdiv_core_binary prec emax (Zpos mx) ex (Zpos my) ey) as [[q e'] l].
    destruct H as (Hq & Hl & He).
    destruct (binary_round_aux_correct false _ q e' l Hq Hl He) as (F & Hn & Hr).
    apply (rounding_nonneg _ _ F c); assumption.
Qed.

(** *** Multiplication *)

Lemma digits_mul mx my :
  (Zpos (digits2_pos mx) + Zpos (digits2_pos my) - 1 <= Zpos (digits2_pos (mx * my)))%Z.
Proof.
  apply digits_lower.
  pose proof (digits2_pos_spec mx) as [Hx _]. pose proof (digits2_pos_spec my) as [Hy _].
  replace (Zpos (digits2_pos mx) + Zpos (digits2_pos my) - 1 - 1)%Z
    with ((Zpos (digits2_pos mx) - 1) + (Zpos (digits2_pos my) - 1))%Z by lia.
  rewrite Z.pow_add_r by lia. rewrite Pos2Z.inj_mul.
  pose proof (pow2_pos (Zpos (digits2_pos mx) - 1) ltac:(lia)).
  pose proof (pow2_pos (Zpos (digits2_pos my) - 1) ltac:(lia)).
  nia.
Qed.

(** The product of two zeros or positive floats, when it is at most
    [c]. *)
Lemma fmul_correct x y c :
  nonneg x -> nonneg y -> nonneg c ->
  value x * value y <= value c ->
  nonneg (fmul x y) /\ nearest (value x * value y) (value (fmul x y)).
Proof.
  intros Hx Hy Hc Hv.
  assert (H0 : nearest 0 0) by (apply nearest_self; left; reflexivity).
  destruct x as [s|s| |[|] mx ex]; cbn [nonneg] in Hx; try tauto;
    destruct y as [t|t| |[|] my ey]; cbn [nonneg] in Hy; try tauto;
    unfold fmul; cbn [SFmul nonneg value xorb] in Hv |- *.
  - split; [exact I|]. rewrite Rmult_0_l. exact H0.
  - split; [exact I|]. rewrite Rmult_0_l. exact H0.
  - split; [exact I|]. rewrite Rmult_0_r. exact H0.
  - destruct (nonneg_finite _ _ Hx) as [Cx _]. destruct (nonneg_finite _ _ Hy) as [Cy _].
    apply canonical_spec in Cx, Cy. pose proof (digits_mul mx my) as Hd.
    destruct (binary_round_aux_correct false (F2R (Zpos mx) ex * F2R (Zpos my) ey)
                (Zpos (mx * my)) (ex + ey) loc_Exact) as (F & Hn & Hr).
    + lia.
    + cbn [located]. unfold F2R. rewrite Pos2Z.inj_mul, mult_IZR, bpow_plus. ring.
    + cbn [Zdigits2]. rewrite fexp_spec. lia.
    + apply (rounding_nonneg _ _ F c); assumption.
Qed.

(** *** Alignment and subtraction *)

Lemma iter_xO m d :
  Zpos (Pos.iter xO m d) = (Zpos m * 2 ^ Zpos d)%Z
  /\ Zpos (digits2_pos (Pos.iter xO m d)) = (Zpos (digits2_pos m) + Zpos d)%Z.
Proof.
  induction d as [|d IH] using Pos.peano_ind.
  - cbn [Pos.iter digits2_pos]. split; lia.
  - rewrite Pos.iter_succ. cbn [digits2_pos]. destruct IH as [IH1 IH2].
    rewrite Pos2Z.inj_xO, IH1, !Pos2Z.inj_succ, IH2.
    rewrite Z.pow_succ_r by lia. split; lia.
Qed.

Lemma shl_align_spec m e e' :
  let '(m', e'') := shl_align m e e' in
  F2R (Zpos m') e'' = F2R (Zpos m) e
  /\ e'' = Z.min e e'
  /\ (Zpos (digits2_pos m') + e'' = Zpos (digits2_pos m) + e)%Z.
Proof.
  unfold shl_align. destruct (e' - e)%Z as [|d|d] eqn:E.
  - split; [reflexivity | split; lia].
  - split; [reflexivity | split; lia].
  - destruct (iter_xO m d) as [H1 H2]. rewrite H1, H2.
    split; [| split; lia].
    rewrite F2R_shift by lia. f_equal. lia.
Qed.

(** The rounding of a positive number m * 2^e. *)
Lemma binary_round_correct s m e :
  exists F, nearest (F2R (Zpos m) e) F /\ rounded s (binary_round prec emax s m e) F.
Proof.
  unfold binary_round. change (SpecFloat.fexp prec emax) with fexp.
  pose proof (shl_align_spec m e (fexp (Zpos (digits2_pos m) + e))) as H.
  destruct (shl_align m e (fexp (Zpos (digits2_pos m) + e))) as [mz ez].
  destruct H as (HF & He & Hd).
  apply binary_round_aux_correct.
  - lia.
  - cbn [located]. symmetry. exact HF.
  - cbn [Zdigits2]. rewrite Hd, He. lia.
Qed.

(** The difference of two zeros or positive floats, the smaller one taken
    from the larger one. *)
Lemma fsub_correct a x :
  nonneg a -> nonneg x -> value x <= value a ->
  nonneg (fsub a x) /\ nearest (value a - value x) (value (fsub a x)).
Proof.
  intros Ha Hx Hv.
  assert (H0 : nearest 0 0) by (apply nearest_self; left; reflexivity).
  destruct a as [s|s| |[|] ma ea]; cbn [nonneg] in Ha; try tauto;
    destruct x as [t|t| |[|] mx ex]; cbn [nonneg] in Hx; try tauto;
    unfold fsub; cbn [SFsub value] in Hv |- *.
  - replace (0 - 0) with 0 by lra. destruct s, t; cbn [nonneg value]; split; auto.
  - pose proof (F2R_pos mx ex). lra.
  - cbn [nonneg value]. split; [exact Ha|].
    replace (F2R (Zpos ma) ea - 0) with (F2R (Zpos ma) ea) by lra.
    apply nearest_self. apply (nonneg_format (S754_finite false ma ea) Ha).
  - cbn [cond_Zopp].
    pose proof (shl_align_spec ma ea (Z.min ea ex)) as HA.
    pose proof (shl_align_spec mx ex (Z.min ea ex)) as HX.
    destruct (shl_align ma ea (Z.min ea ex)) as [ma' ea'].
    destruct (shl_align mx ex (Z.min ea ex)) as [mx' ex'].
    destruct HA as (HA & EA & _). destruct HX as (HX & EX & _). cbn [fst].
    assert (EA' : ea' = Z.min ea ex) by lia. assert (EX' : ex' = Z.min ea ex) by lia.
    rewrite <- HA, <- HX, EA', EX' in *. set (ez := Z.min ea ex) in *.
    assert (Hdiff : F2R (Zpos ma' - Zpos mx') ez = F2R (Zpos ma') ez - F2R (Zpos mx') ez).
    { unfold F2R. rewrite minus_IZR. ring. }
    assert (Hge : (Zpos mx' <= Zpos ma')%Z) by (apply (F2R_le_inv _ _ ez); exact Hv).
    rewrite <- Hdiff.
    destruct (Zpos ma' - Zpos mx')%Z as [|d|d] eqn:Ed; [| |lia]; cbn [binary_normalize].
    + cbn [nonneg value]. rewrite F2R_0. auto.
    + destruct (binary_round_correct false d ez) as (F & Hn & Hr).
      apply (rounding_nonneg _ _ F (S754_finite false ma ea)); try assumption.
      cbn [value]. rewrite Hdiff, <- HA. pose proof (F2R_pos mx' ez). lra.
Qed.

(** *** Truncation *)

Lemma int_of_float_floor f :
  nonneg f ->
  exists z, int_of_float f = Ok z /\ IZR z <= value f < IZR z + 1.
Proof.
  destruct f as [s|s| |[|] m e]; cbn [nonneg]; try tauto; intros _;
    cbn [int_of_float value].
  - exists 0%Z. split; [reflexivity | lra].
  - destruct e as [|k|k].
    + exists (Zpos m). split; [reflexivity|]. unfold F2R. rewrite bpow_0. lra.
    + exists (Zpos m * 2 ^ Zpos k)%Z. split.
      * rewrite Z.shiftl_mul_pow2 by lia. reflexivity.
      * unfold F2R. rewrite mult_IZR, (bpow_IZR (Zpos k)) by lia. lra.
    + exists (Zpos m / 2 ^ Zpos k)%Z. split.
      * rewrite Z.shiftr_div_pow2 by lia. reflexivity.
      * pose proof (pow2_pos (Zpos k) ltac:(lia)) as Hp.
        pose proof (Z.div_mod (Zpos m) (2 ^ Zpos k) ltac:(lia)) as Hdm.
        pose proof (Z.mod_pos_bound (Zpos m) (2 ^ Zpos k) Hp) as Hmod.
        set (z := (Zpos m / 2 ^ Zpos k)%Z) in *.
        assert (E : forall n, IZR n = F2R (n * 2 ^ Zpos k) (Zneg k)).
        { intros n. rewrite F2R_shift by lia. unfold F2R.
          replace (Zneg k + Zpos k)%Z with 0%Z by lia. rewrite bpow_0. lra. }
        rewrite <- (plus_IZR z 1), (E z), (E (z + 1)%Z).
        split; [apply F2R_le; lia|].
        unfold F2R. pose proof (bpow_gt_0 (Zneg k)).
        assert (IZR (Zpos m) < IZR ((z + 1) * 2 ^ Zpos k)) by (apply IZR_lt; lia).
        nra.
Qed.

(** *** The constants of the mapper *)

Lemma F2R_int n k : (0 <= k)%Z -> F2R (n * 2 ^ k) (- k) = IZR n.
Proof.
  intros Hk. rewrite F2R_shift by exact Hk. unfold F2R.
  replace (- k + k)%Z with 0%Z by lia. rewrite bpow_0. lra.
Qed.

Lemma float_100 : nonneg (float_of_Z 100) /\ value (float_of_Z 100) = 100.
Proof. split; [reflexivity | exact (F2R_int 100 46 ltac:(lia))]. Qed.

Lemma float_1 : nonneg (float_of_Z 1) /\ value (float_of_Z 1) = 1.
Proof. split; [reflexivity | exact (F2R_int 1 52 ltac:(lia))]. Qed.

Lemma float_2 : nonneg (float_of_Z 2) /\ value (float_of_Z 2) = 2.
Proof. split; [reflexivity | exact (F2R_int 2 51 ltac:(lia))]. Qed.

Lemma float_255 : nonneg (float_of_Z 255) /\ value (float_of_Z 255) = 255.
Proof. split; [reflexivity | exact (F2R_int 255 45 ltac:(lia))]. Qed.

(** *** Integers *)

Lemma F2R_0_exp m : F2R m 0 = IZR m.
Proof. unfold F2R. rewrite bpow_0. lra. Qed.

(** The integers below 2^53 are in the format. *)
Lemma format_small_int v : (0 <= v < 2 ^ 53)%Z -> format (IZR v).
Proof.
  intros Hv. destruct v as [|p|p]; [left; reflexivity | | lia]. right.
  pose proof (digits2_pos_spec p) as [Hlo Hhi].
  pose proof (digits_upper p 53 ltac:(lia) ltac:(lia)) as Hd.
  set (k := (53 - Zpos (digits2_pos p))%Z).
  assert (Hk : (0 <= k)%Z) by (unfold k; lia).
  pose proof (pow2_pos k Hk) as Hpk.
  exists (Z.to_pos (Zpos p * 2 ^ k)), (- k)%Z.
  assert (E : Zpos (Z.to_pos (Zpos p * 2 ^ k)) = (Zpos p * 2 ^ k)%Z)
    by (apply Z2Pos.id; lia).
  split.
  - apply canonical_intro; rewrite ?E.
    + unfold k. lia.
    + replace 53%Z with (Zpos (digits2_pos p) + k)%Z by (unfold k; lia).
      rewrite Z.pow_add_r by lia. nia.
    + right. replace 52%Z with (Zpos (digits2_pos p) - 1 + k)%Z by (unfold k; lia).
      rewrite Z.pow_add_r by lia. nia.
  - rewrite E. symmetry. apply F2R_int. exact Hk.
Qed.

(** [float(v)] is exact on them. *)
Lemma float_of_Z_correct v :
  (0 <= v < 2 ^ 53)%Z -> nonneg (float_of_Z v) /\ value (float_of_Z v) = IZR v.
Proof.
  intros Hv. pose proof (format_small_int v Hv) as Hfmt.
  destruct v as [|p|p]; [split; [exact I | reflexivity] | | lia].
  unfold float_of_Z. cbn [binary_normalize].
  destruct (binary_round_correct false p 0) as (F & Hn & Hr).
  rewrite F2R_0_exp in Hn.
  pose proof (nearest_format _ _ Hfmt Hn) as HF. subst F.
  assert (Hmax : exists c, nonneg c /\ IZR (Zpos p) <= value c).
  { exists (S754_finite false 4503599627370496 1). split; [reflexivity|].
    cbn [value]. rewrite <- (F2R_0_exp (Zpos p)).
    apply Rle_trans with (F2R (2 ^ 53) 0); [apply F2R_le; lia|].
    apply Req_le. exact (F2R_shift (2 ^ 52) 0 1 ltac:(lia)). }
  destruct Hmax as (c & Nc & Hc).
  destruct (rounding_nonneg _ _ _ c Hn Hr Nc Hc) as [Nf Hnf].
  split; [exact Nf | exact (nearest_format _ _ Hfmt Hnf)].
Qed.

(** [a / b] on a natural number and a positive integer, when it is at most
    [c]. *)
Lemma int_truediv_correct a b c :
  (0 <= a)%Z -> (0 < b)%Z -> nonneg c -> IZR a / IZR b <= value c ->
  exists f, int_truediv a b = Ok f /\ nonneg f /\ nearest (IZR a / IZR b) (value f).
Proof.
  intros Ha Hb Hc Hle. unfold int_truediv.
  destruct b as [|pb|pb]; [lia | | lia]. cbn [Z.eqb Z.ltb Z.compare].
  destruct a as [|pa|pa]; [| | lia]; cbn [Z.eqb Z.ltb Z.compare xorb Z.abs].
  - exists (S754_zero false). split; [reflexivity | split; [exact I|]].
    replace (0 / IZR (Zpos pb)) with 0 by (unfold Rdiv; lra).
    apply nearest_self. left. reflexivity.
  - change (Z.abs (Zpos pa)) with (Zpos pa). change (Z.abs (Zpos pb)) with (Zpos pb).
    pose proof (SFdiv_core_binary_located pa 0 pb 0) as H.
    destruct (SFdiv_core_binary prec emax (Zpos pa) 0 (Zpos pb) 0) as [[q e'] l].
    destruct H as (Hq & Hl & He). rewrite !F2R_0_exp in Hl.
    destruct (binary_round_aux_correct false _ q e' l Hq Hl He) as (F & Hn & Hr).
    destruct (rounding_nonneg _ _ F c Hn Hr Hc Hle) as [Nf Hnf].
    exists (binary_round_aux prec emax false q e' l).
    split; [| split; assumption].
    destruct (binary_round_aux prec emax false q e' l) as [s|s| |s m e];
      cbn [nonneg] in Nf; try tauto; reflexivity.
Qed.

End IeeeFacts.

(** ** The load color *)

Section MapperFacts.

Import Ieee.
Local Open Scope R_scope.

(** An operation that rounds an increasing function of the value is
    increasing. *)
Lemma rounding_increasing (op : float -> float) (phi : R -> R) a b :
  nonneg a -> nonneg b -> value a <= value b ->
  (forall u v, u < v -> phi u < phi v) ->
  format (phi 0) ->
  nearest (phi (value a)) (value (op a)) ->
  nearest (phi (value b)) (value (op b)) ->
  value (op a) <= value (op b).
Proof.
  intros Ha Hb [Hlt | Heq] Hphi H0 Hna Hnb.
  - apply (nearest_lt _ _ _ _ (Hphi _ _ Hlt) Hna Hnb).
  - destruct (value_inj a b Ha Hb Heq) as [-> | [Za Zb]]; [lra|].
    rewrite Za in Hna. rewrite Zb in Hnb.
    rewrite (nearest_format _ _ H0 Hna), (nearest_format _ _ H0 Hnb). lra.
Qed.

Lemma rounding_decreasing (op : float -> float) (phi : R -> R) a b :
  nonneg a -> nonneg b -> value a <= value b ->
  (forall u v, u < v -> phi v < phi u) ->
  format (phi 0) ->
  nearest (phi (value a)) (value (op a)) ->
  nearest (phi (value b)) (value (op b)) ->
  value (op b) <= value (op a).
Proof.
  intros Ha Hb [Hlt | Heq] Hphi H0 Hna Hnb.
  - apply (nearest_lt _ _ _ _ (Hphi _ _ Hlt) Hnb Hna).
  - destruct (value_inj a b Ha Hb Heq) as [-> | [Za Zb]]; [lra|].
    rewrite Za in Hna. rewrite Zb in Hnb.
    rewrite (nearest_format _ _ H0 Hna), (nearest_format _ _ H0 Hnb). lra.
Qed.

Lemma format_0 : format 0.
Proof. left. reflexivity. Qed.

Lemma format_1 : format 1.
Proof. destruct float_1 as [H E]. rewrite <- E. apply nonneg_format, H. Qed.

Lemma format_2 : format 2.
Proof. destruct float_2 as [H E]. rewrite <- E. apply nonneg_format, H. Qed.

Lemma nonneg_format_100 : format 100.
Proof. destruct float_100 as [H E]. rewrite <- E. apply nonneg_format, H. Qed.

Lemma format_255 : format 255.
Proof. destruct float_255 as [H E]. rewrite <- E. apply nonneg_format, H. Qed.

(** The load as a fraction: [percentage / 100]. *)
Lemma fraction_correct p :
  nonneg p -> value p <= 100 ->
  nonneg (fdiv p (float_of_Z 100))
  /\ nearest (value p / 100) (value (fdiv p (float_of_Z 100)))
  /\ value (fdiv p (float_of_Z 100)) <= 1.
Proof.
  intros Hp Hle. destruct float_100 as [H100 V100]. destruct float_1 as [H1 V1].
  change (float_of_Z 100) with (S754_finite false 7036874417766400 (-46)) in *.
  cbn [value] in V100.
  destruct (fdiv_correct p 7036874417766400 (-46) (float_of_Z 1) Hp H100 H1) as [Hn Hr].
  { rewrite V100, V1. lra. }
  rewrite V100 in Hr. split; [exact Hn | split; [exact Hr |]].
  apply (nearest_le 1 (value p / 100)); [exact format_1 | lra | exact Hr].
Qed.

(** [2 * x] for a fraction x. *)
Lemma twice_correct x :
  nonneg x -> value x <= 1 ->
  nonneg (fmul (float_of_Z 2) x)
  /\ nearest (2 * value x) (value (fmul (float_of_Z 2) x)).
Proof.
  intros Hx Hle. destruct float_2 as [H2 V2].
  destruct (fmul_correct (float_of_Z 2) x (float_of_Z 2) H2 Hx H2) as [Hn Hr].
  { rewrite V2. lra. }
  rewrite V2 in Hr. auto.
Qed.

(** [1 - x] for a fraction x. *)
Lemma complement_correct x :
  nonneg x -> value x <= 1 ->
  nonneg (fsub (float_of_Z 1) x)
  /\ nearest (1 - value x) (value (fsub (float_of_Z 1) x))
  /\ value (fsub (float_of_Z 1) x) <= 1.
Proof.
  intros Hx Hle. destruct float_1 as [H1 V1].
  destruct (fsub_correct (float_of_Z 1) x H1 Hx) as [Hn Hr].
  { rewrite V1. exact Hle. }
  rewrite V1 in Hr. split; [exact Hn | split; [exact Hr |]].
  apply (nearest_le 1 (1 - value x)); [exact format_1 | | exact Hr].
  pose proof (value_nonneg x Hx). lra.
Qed.

(** One channel: 255 above 1, and the truncated product with 255
    otherwise. *)
Lemma channel_unfold r :
  nonneg r ->
  channel (Float r)
  = if flt (float_of_Z 1) r then Ok 255%Z else int_of_float (fmul r (float_of_Z 255)).
Proof.
  intros Hr. unfold channel, limit, Py.max, Py.min, Py.lt, ord_num.
  cbn [num_lt to_float].
  destruct (flt (float_of_Z 1) r) eqn:H1.
  - reflexivity.
  - cbn [num_lt to_float].
    assert (H0 : flt r (float_of_Z 0) = false).
    { destruct (flt r (float_of_Z 0)) eqn:E; [|reflexivity].
      apply (flt_spec r (float_of_Z 0) Hr I) in E. cbn [value float_of_Z] in E.
      pose proof (value_nonneg r Hr). change (value (float_of_Z 0)) with 0 in E. lra. }
    rewrite H0. reflexivity.
Qed.

Lemma channel_low r :
  nonneg r -> value r <= 1 ->
  exists z, channel (Float r) = Ok z
            /\ IZR z <= value (fmul r (float_of_Z 255)) < IZR z + 1
            /\ nearest (value r * 255) (value (fmul r (float_of_Z 255)))
            /\ (0 <= z <= 255)%Z.
Proof.
  intros Hr Hle. destruct float_255 as [H255 V255]. destruct float_1 as [H1 V1].
  rewrite (channel_unfold r Hr).
  assert (Hnot : flt (float_of_Z 1) r = false).
  { destruct (flt (float_of_Z 1) r) eqn:E; [|reflexivity].
    apply (flt_spec _ _ H1 Hr) in E. lra. }
  rewrite Hnot.
  destruct (fmul_correct r (float_of_Z 255) (float_of_Z 255) Hr H255 H255) as [Hn Hnear].
  { rewrite V255. pose proof (value_nonneg r Hr). nra. }
  rewrite V255 in Hnear.
  destruct (int_of_float_floor _ Hn) as (z & Hz & Hfloor).
  exists z. split; [exact Hz | split; [exact Hfloor | split; [exact Hnear |]]].
  pose proof (value_nonneg _ Hn) as Hpos.
  assert (Hhi : value (fmul r (float_of_Z 255)) <= 255).
  { apply (nearest_le 255 (value r * 255)); [exact format_255 | lra | exact Hnear]. }
  split.
  - apply le_IZR. apply Rnot_lt_le. intros Hneg.
    assert (IZR z + 1 <= 0) by (rewrite <- (plus_IZR z 1); apply IZR_le; apply lt_IZR in Hneg; lia).
    lra.
  - apply le_IZR. lra.
Qed.

(** The channel is increasing in its raw value and stays in [0, 255]. *)
Lemma channel_increasing r1 r2 :
  nonneg r1 -> nonneg r2 -> value r1 <= value r2 ->
  exists z1 z2, channel (Float r1) = Ok z1 /\ channel (Float r2) = Ok z2
                /\ (0 <= z1 <= z2)%Z /\ (z2 <= 255)%Z.
Proof.
  intros H1 H2 Hle. destruct float_1 as [Hone Vone].
  destruct (flt (float_of_Z 1) r2) eqn:E2.
  - (* the larger one is saturated *)
    exists (match channel (Float r1) with Ok z => z | Raise _ => 0%Z end), 255%Z.
    rewrite (channel_unfold r2 H2), E2.
    destruct (flt (float_of_Z 1) r1) eqn:E1.
    + rewrite (channel_unfold r1 H1), E1. repeat split; lia.
    + assert (Hlow : value r1 <= 1).
      { apply Rnot_lt_le. intros Hgt. rewrite <- Vone in Hgt.
        apply (flt_spec _ _ Hone H1) in Hgt. congruence. }
      destruct (channel_low r1 H1 Hlow) as (z & Hz & _ & _ & Hrange).
      rewrite Hz. repeat split; lia.
  - assert (Hlow2 : value r2 <= 1).
    { apply Rnot_lt_le. intros Hgt. rewrite <- Vone in Hgt.
      apply (flt_spec _ _ Hone H2) in Hgt. congruence. }
    assert (Hlow1 : value r1 <= 1) by lra.
    destruct (channel_low r1 H1 Hlow1) as (z1 & Hz1 & Hf1 & Hn1 & Hr1).
    destruct (channel_low r2 H2 Hlow2) as (z2 & Hz2 & Hf2 & Hn2 & Hr2).
    exists z1, z2. split; [exact Hz1 | split; [exact Hz2 |]].
    assert (Hmono : value (fmul r1 (float_of_Z 255)) <= value (fmul r2 (float_of_Z 255))).
    { apply (rounding_increasing (fun r => fmul r (float_of_Z 255)) (fun u => u * 255) r1 r2);
        try assumption.
      - intros u v Huv. lra.
      - rewrite Rmult_0_l. exact format_0. }
    assert (Hz : (z1 < z2 + 1)%Z) by (apply lt_IZR; rewrite plus_IZR; lra).
    lia.
Qed.

(** The loop of [get_load_color], channel by channel. *)
Lemma get_load_color_channels p :
  get_load_color p
  = match channel (Float (raw_red p)) with
    | Raise e => Raise e
    | Ok vr =>
        match channel (Float (raw_green p)) with
        | Raise e => Raise e
        | Ok vg => Ok [vr; vg; 0%Z]
        end
    end.
Proof.
  unfold get_load_color, channel, raw_red, raw_green. cbn [fold_left].
  destruct (int_of_num (num_mul (limit (Int 0) (Int 1)
              (Float (fmul (float_of_Z 2) (fdiv p (float_of_Z 100))))) (Int 255)))
    as [vr | e]; [| reflexivity].
  destruct (int_of_num (num_mul (limit (Int 0) (Int 1)
              (Float (fmul (float_of_Z 2)
                        (fsub (float_of_Z 1) (fdiv p (float_of_Z 100)))))) (Int 255)))
    as [vg | e]; reflexivity.
Qed.

(** A valid float between 0 and a positive finite float is a zero or a
    positive finite float. *)
Lemma between_nonneg p q c :
  valid_binary prec emax p = true -> valid_binary prec emax q = true ->
  nonneg c ->
  fle (float_of_Z 0) p = true -> fle p q = true -> fle q c = true ->
  nonneg p /\ nonneg q.
Proof.
  intros Vp Vq Hc H0 Hpq Hqc.
  destruct c as [sc|sc| |[|] mc ec]; cbn [nonneg] in Hc; try tauto;
    destruct p as [sp|[|]| |[|] mp ep]; try discriminate;
    destruct q as [sq|[|]| |[|] mq eq]; try discriminate;
    cbn [nonneg valid_binary] in *; auto.
Qed.

(** The colors of two loads p <= q in [0, 100]. *)
Lemma load_color_monotone p q :
  nonneg p -> nonneg q -> value p <= value q -> value q <= 100 ->
  exists r1 g1 r2 g2 : Z,
    get_load_color p = Ok [r1; g1; 0%Z]
    /\ get_load_color q = Ok [r2; g2; 0%Z]
    /\ (0 <= r1 <= r2)%Z /\ (r2 <= 255)%Z
    /\ (0 <= g2 <= g1)%Z /\ (g1 <= 255)%Z.
Proof.
  intros Np Nq Lpq Lq.
  destruct float_1 as [H1 V1].
  assert (Lp : value p <= 100) by lra.
  (* the fractions *)
  destruct (fraction_correct p Np Lp) as (Nxp & Rxp & Lxp).
  destruct (fraction_correct q Nq Lq) as (Nxq & Rxq & Lxq).
  set (xp := fdiv p (float_of_Z 100)) in *. set (xq := fdiv q (float_of_Z 100)) in *.
  assert (Lx : value xp <= value xq).
  { apply (rounding_increasing (fun p => fdiv p (float_of_Z 100)) (fun u => u / 100) p q);
      try assumption.
    - intros u v Huv. lra.
    - replace (0 / 100) with 0 by lra. exact format_0. }
  (* red *)
  destruct (twice_correct xp Nxp Lxp) as (Nrp & Rrp).
  destruct (twice_correct xq Nxq Lxq) as (Nrq & Rrq).
  assert (Lr : value (raw_red p) <= value (raw_red q)).
  { apply (rounding_increasing (fmul (float_of_Z 2)) (fun u => 2 * u) xp xq); try assumption.
    - intros u v Huv. lra.
    - rewrite Rmult_0_r. exact format_0. }
  destruct (channel_increasing (raw_red p) (raw_red q) Nrp Nrq Lr)
    as (r1 & r2 & Cr1 & Cr2 & Hr12 & Hr2).
  (* green *)
  destruct (complement_correct xp Nxp Lxp) as (Ncp & Rcp & Lcp).
  destruct (complement_correct xq Nxq Lxq) as (Ncq & Rcq & Lcq).
  set (cp := fsub (float_of_Z 1) xp) in *. set (cq := fsub (float_of_Z 1) xq) in *.
  assert (Lc : value cq <= value cp).
  { apply (rounding_decreasing (fsub (float_of_Z 1)) (fun u => 1 - u) xp xq); try assumption.
    - intros u v Huv. lra.
    - replace (1 - 0) with 1 by lra. exact format_1. }
  destruct (twice_correct cp Ncp Lcp) as (Ngp & Rgp).
  destruct (twice_correct cq Ncq Lcq) as (Ngq & Rgq).
  assert (Lg : value (raw_green q) <= value (raw_green p)).
  { apply (rounding_increasing (fmul (float_of_Z 2)) (fun u => 2 * u) cq cp); try assumption.
    - intros u v Huv. lra.
    - rewrite Rmult_0_r. exact format_0. }
  destruct (channel_increasing (raw_green q) (raw_green p) Ngq Ngp Lg)
    as (g2 & g1 & Cg2 & Cg1 & Hg21 & Hg1).
  exists r1, g1, r2, g2.
  rewrite !get_load_color_channels, Cr1, Cr2, Cg1, Cg2.
  repeat split; lia.
Qed.

(** Every load in [0, 100] has a color. *)
Lemma get_load_color_total p :
  nonneg p -> value p <= 100 ->
  exists r g : Z, get_load_color p = Ok [r; g; 0%Z].
Proof.
  intros Np Lp.
  destruct (load_color_monotone p p Np Np (Rle_refl _) Lp) as (r & g & _ & _ & H & _).
  exists r, g. exact H.
Qed.

(** C8: for loads p <= q in [0, 100], the mapper gives colors with a zero
    blue channel, a red channel that does not decrease from p to q and a
    green channel that does not increase; all channels are in [0, 255]. *)
Theorem C8_gradient_monotone :
  forall p q : float,
    valid_binary prec emax p = true ->
    valid_binary prec emax q = true ->
    fle (float_of_Z 0) p = true ->
    fle p q = true ->
    fle q (float_of_Z 100) = true ->
    exists r1 g1 r2 g2 : Z,
      get_load_color p = Ok [r1; g1; 0%Z]
      /\ get_load_color q = Ok [r2; g2; 0%Z]
      /\ (0 <= r1 <= r2)%Z /\ (r2 <= 255)%Z
      /\ (0 <= g2 <= g1)%Z /\ (g1 <= 255)%Z.
Proof.
  intros p q Vp Vq H0 Hpq Hq100.
  destruct float_100 as [H100 V100].
  destruct (between_nonneg p q (float_of_Z 100) Vp Vq H100 H0 Hpq Hq100) as [Np Nq].
  apply load_color_monotone; try assumption.
  - apply (fle_spec p q Np Nq). exact Hpq.
  - rewrite <- V100. apply (fle_spec q _ Nq H100). exact Hq100.
Qed.

Lemma C8_gradient_monotone_witness :
  exists r1 g1 r2 g2 : Z,
    get_load_color (float_of_Z 40) = Ok [r1; g1; 0%Z]
    /\ get_load_color (float_of_Z 60) = Ok [r2; g2; 0%Z]
    /\ (0 <= r1 <= r2)%Z /\ (r2 <= 255)%Z
    /\ (0 <= g2 <= g1)%Z /\ (g1 <= 255)%Z.
Proof.
  apply (C8_gradient_monotone (float_of_Z 40) (float_of_Z 60)); reflexivity.
Defined.

(** *** Loads of 100 and more *)

Lemma rounded_true_nonpos f F : rounded true f F -> nonpos f.
Proof.
  intros [[_ ->] | (m & e & Hc & _ & ->)]; [exact I|].
  destruct (e <=? emax - prec)%Z; [exact Hc | exact I].
Qed.

(** The product of two finite floats. *)
Lemma fmul_finite_rounded sx mx ex sy my ey :
  canonical mx ex -> canonical my ey ->
  exists F, nearest (F2R (Zpos mx) ex * F2R (Zpos my) ey) F
            /\ rounded (xorb sx sy) (fmul (S754_finite sx mx ex) (S754_finite sy my ey)) F.
Proof.
  intros Cx Cy. unfold fmul. cbn [SFmul].
  apply canonical_spec in Cx, Cy. pose proof (digits_mul mx my) as Hd.
  apply binary_round_aux_correct.
  - lia.
  - cbn [located]. unfold F2R. rewrite Pos2Z.inj_mul, mult_IZR, bpow_plus. ring.
  - cbn [Zdigits2]. rewrite fexp_spec. lia.
Qed.

Lemma channel_nonpos g : nonpos g -> channel (Float g) = Ok 0%Z.
Proof.
  destruct g as [[|]|[|]| |[|] m e]; cbn [nonpos]; try tauto; intros _; reflexivity.
Qed.

Lemma channel_infinity : channel (Float (S754_infinity false)) = Ok 255%Z.
Proof. reflexivity. Qed.

(** Twice a number that is at least 1 saturates the channel. *)
Lemma red_saturated x :
  at_least_one x -> channel (Float (fmul (float_of_Z 2) x)) = Ok 255%Z.
Proof.
  intros [-> | [Nx Hx]]; [reflexivity|].
  destruct float_2 as [N2 V2]. destruct float_1 as [N1 V1].
  destruct x as [s|s| |[|] m e]; cbn [nonneg value] in Nx, Hx; try tauto; [lra|].
  destruct (nonneg_finite _ _ Nx) as [Cx _].
  change (float_of_Z 2) with (S754_finite false 4503599627370496 (-51)) in *.
  destruct (nonneg_finite _ _ N2) as [C2 _]. cbn [value] in V2.
  destruct (fmul_finite_rounded false 4503599627370496 (-51) false m e C2 Cx)
    as (F & Hn & Hr).
  rewrite V2 in Hn. cbn [xorb] in Hr.
  assert (HF : 2 <= F).
  { apply (nearest_ge 2 (2 * F2R (Zpos m) e)); [exact format_2 | lra | exact Hn]. }
  destruct Hr as [[Z _] | (m' & e' & Hc & HFe & Hr)]; [lra|].
  rewrite Hr. destruct (Z.leb_spec e' (emax - prec)) as [Hle | Hgt]; [| reflexivity].
  assert (Nr : nonneg (S754_finite false m' e')).
  { cbn [nonneg]. unfold SpecFloat.bounded. apply andb_true_intro.
    split; [exact Hc | apply Z.leb_le; exact Hle]. }
  rewrite (channel_unfold _ Nr).
  assert (Hlt : flt (float_of_Z 1) (S754_finite false m' e') = true).
  { apply (flt_spec _ _ N1 Nr). rewrite V1. cbn [value]. lra. }
  rewrite Hlt. reflexivity.
Qed.

(** One minus a number that is at least 1 is not positive. *)
Lemma complement_nonpos x : at_least_one x -> nonpos (fsub (float_of_Z 1) x).
Proof.
  intros [-> | [Nx Hx]]; [exact I|].
  destruct float_1 as [N1 V1].
  destruct x as [s|s| |[|] m e]; cbn [nonneg value] in Nx, Hx; try tauto; [lra|].
  change (float_of_Z 1) with (S754_finite false 4503599627370496 (-52)) in *.
  cbn [value] in V1. unfold fsub. cbn [SFsub cond_Zopp].
  pose proof (shl_align_spec 4503599627370496 (-52) (Z.min (-52) e)) as HA.
  pose proof (shl_align_spec m e (Z.min (-52) e)) as HX.
  destruct (shl_align 4503599627370496 (-52) (Z.min (-52) e)) as [ma' ea'].
  destruct (shl_align m e (Z.min (-52) e)) as [mx' ex'].
  destruct HA as (HA & EA & _). destruct HX as (HX & EX & _). cbn [fst].
  assert (EA' : ea' = Z.min (-52) e) by lia. assert (EX' : ex' = Z.min (-52) e) by lia.
  rewrite EA' in HA. rewrite EX' in HX.
  assert (Hle : (Zpos ma' <= Zpos mx')%Z).
  { apply (F2R_le_inv _ _ (Z.min (-52) e)). rewrite HA, HX, V1. exact Hx. }
  destruct (Zpos ma' - Zpos mx')%Z as [|d|d] eqn:Ed; [| lia |]; cbn [binary_normalize].
  - exact I.
  - destruct (binary_round_correct true d (Z.min (-52) e)) as (F & _ & Hr).
    apply (rounded_true_nonpos _ F Hr).
Qed.

(** Twice a number that is not positive is not positive. *)
Lemma twice_nonpos g : nonpos g -> nonpos (fmul (float_of_Z 2) g).
Proof.
  destruct float_2 as [N2 _].
  change (float_of_Z 2) with (S754_finite false 4503599627370496 (-51)) in *.
  destruct (nonneg_finite _ _ N2) as [C2 _].
  destruct g as [s|[|]| |[|] m e]; cbn [nonpos]; try tauto; intros Hg; try exact I.
  destruct (fmul_finite_rounded false 4503599627370496 (-51) true m e C2 Hg)
    as (F & _ & Hr).
  apply (rounded_true_nonpos _ F Hr).
Qed.

(** A valid float that is at least 100 gives a fraction that is at least
    1. *)
Lemma fraction_at_least_one p :
  valid_binary prec emax p = true -> fle (float_of_Z 100) p = true ->
  at_least_one (fdiv p (float_of_Z 100)).
Proof.
  intros Vp Hp. destruct float_100 as [N100 V100].
  destruct p as [s|[|]| |[|] m e]; try discriminate.
  - left. reflexivity.
  - right. assert (Np : nonneg (S754_finite false m e)) by exact Vp.
    assert (Hv : 100 <= value (S754_finite false m e)).
    { rewrite <- V100. apply (fle_spec _ _ N100 Np). exact Hp. }
    change (float_of_Z 100) with (S754_finite false 7036874417766400 (-46)) in *.
    cbn [value] in V100.
    destruct (fdiv_correct (S754_finite false m e) 7036874417766400 (-46)
                (S754_finite false m e) Np N100 Np) as [Nx Hn].
    { rewrite V100. lra. }
    split; [exact Nx|]. rewrite V100 in Hn.
    apply (nearest_ge 1 (value (S754_finite false m e) / 100)); [exact format_1 | lra | exact Hn].
Qed.

(** C3: the mapper gives pure green at 0, pure yellow at 50 (both red and
    green are saturated at the midpoint), and pure red at every load p of
    100 or more. *)
Theorem C3_mapper_endpoints :
  forall p : float,
    valid_binary prec emax p = true ->
    fle (float_of_Z 100) p = true ->
    get_load_color (float_of_Z 0) = Ok [0; 255; 0]%Z
    /\ get_load_color (float_of_Z 50) = Ok [255; 255; 0]%Z
    /\ get_load_color p = Ok [255; 0; 0]%Z.
Proof.
  intros p Vp Hp.
  split; [reflexivity | split; [reflexivity |]].
  pose proof (fraction_at_least_one p Vp Hp) as Hx.
  rewrite get_load_color_channels. unfold raw_red, raw_green.
  rewrite (red_saturated _ Hx).
  rewrite (channel_nonpos _ (twice_nonpos _ (complement_nonpos _ Hx))).
  reflexivity.
Qed.

Lemma C3_mapper_endpoints_witness :
  get_load_color (float_of_Z 0) = Ok [0; 255; 0]%Z
  /\ get_load_color (float_of_Z 50) = Ok [255; 255; 0]%Z
  /\ get_load_color (float_of_Z 1000) = Ok [255; 0; 0]%Z.
Proof.
  apply (C3_mapper_endpoints (float_of_Z 1000)); reflexivity.
Defined.

End MapperFacts.

(** ** The sampler *)

Lemma sum_from l : forall a, fold_left Z.add l a = a + sum l.
Proof.
  unfold sum. induction l as [|x l IH]; intros a; cbn; [lia|].
  rewrite (IH (a + x)), (IH (0 + x)). lia.
Qed.

Lemma sum_cons x l : sum (x :: l) = x + sum l.
Proof. unfold sum at 1. cbn. apply sum_from. Qed.

Lemma sum_percentages l :
  Forall percentage l -> 0 <= sum l <= 100 * Z.of_nat (length l).
Proof.
  induction 1 as [|x l Hx _ IH]; [cbn; lia|].
  rewrite sum_cons. unfold percentage in Hx. cbn [length]. lia.
Qed.

Lemma sum_repeat v n : sum (repeat v n) = Z.of_nat n * v.
Proof.
  induction n as [|n IH]; [reflexivity|].
  cbn [repeat]. rewrite sum_cons, IH. lia.
Qed.

Lemma record_sample_ok v s load :
  (current_sampling s < length (cpu_load_cache s))%nat ->
  int_truediv (sum (<[current_sampling s := v]> (cpu_load_cache s)))
              (Z.of_nat (length (cpu_load_cache s))) = Ok load ->
  record_sample v s = (Ok load, recorded s v).
Proof.
  intros Hi Hload. unfold record_sample, bind, gets, set_cpu_load_cache,
    set_current_sampling, modify, lift, ret. cbn -[Nat.ltb Nat.leb sum].
  apply Nat.ltb_lt in Hi. rewrite Hi. cbn -[Nat.ltb Nat.leb sum].
  rewrite !length_insert. unfold recorded.
  destruct (length (cpu_load_cache s) <=? current_sampling s + 1)%nat eqn:Hw;
    cbn -[Nat.ltb Nat.leb sum]; rewrite Hload; reflexivity.
Qed.

Lemma recorded_ok s v : sampler_ok s -> percentage v -> sampler_ok (recorded s v).
Proof.
  intros (Hcur & Hall) Hv. unfold sampler_ok, recorded. cbn -[Nat.leb].
  rewrite length_insert. split.
  - destruct (Nat.leb_spec (length (cpu_load_cache s)) (current_sampling s + 1)); lia.
  - apply Forall_insert; assumption.
Qed.

(** The average of percentages is a load in [0, 100]. *)
Lemma average_of_percentages l :
  Forall percentage l -> (0 < length l)%nat ->
  exists load, int_truediv (sum l) (Z.of_nat (length l)) = Ok load
               /\ Ieee.nonneg load /\ (Ieee.value load <= 100)%R.
Proof.
  intros Hall Hlen. pose proof (sum_percentages l Hall) as Hsum.
  destruct float_100 as [N100 V100].
  assert (Hn : (0 < IZR (Z.of_nat (length l)))%R) by (apply (IZR_lt 0); lia).
  assert (Hle : (IZR (sum l) / IZR (Z.of_nat (length l)) <= 100)%R).
  { assert (Hs : (IZR (sum l) <= 100 * IZR (Z.of_nat (length l)))%R)
      by (rewrite <- mult_IZR; apply IZR_le; lia).
    apply (Rmult_le_reg_r (IZR (Z.of_nat (length l)))); [exact Hn|].
    unfold Rdiv. rewrite Rmult_assoc, Rinv_l by lra. lra. }
  destruct (int_truediv_correct (sum l) (Z.of_nat (length l)) (float_of_Z 100))
    as (load & Hload & Nload & Hnear); [lia | lia | exact N100 | rewrite V100; exact Hle |].
  exists load. split; [exact Hload | split; [exact Nload |]].
  apply (nearest_le 100 _ _ (nonneg_format_100) Hle Hnear).
Qed.

Lemma sampler_color s v :
  sampler_ok s -> percentage v ->
  exists load color,
    int_truediv (sum (<[current_sampling s := v]> (cpu_load_cache s)))
                (Z.of_nat (length (cpu_load_cache s))) = Ok load
    /\ get_load_color load = Ok color.
Proof.
  intros Hs Hv.
  destruct (recorded_ok s v Hs Hv) as (Hcur & Hall). cbn -[Nat.leb] in Hcur, Hall.
  destruct Hs as (Hcur0 & _).
  destruct (average_of_percentages _ Hall) as (load & Hload & Nload & Lload).
  { rewrite length_insert. lia. }
  rewrite length_insert in Hload.
  destruct (get_load_color_total load Nload Lload) as (r & g & Hcolor).
  exists load, [r; g; 0]. split; assumption.
Qed.

(** ** The iteration of the loop when no notification is present *)

Lemma psutil_polled E s :
  psutil_cpu_percent E s = (Ok (cpu_percent E (ncpu s)), polled s).
Proof. reflexivity. Qed.

Lemma sleep_ok_SAMPLING : sleep_ok SAMPLING = true.
Proof. vm_compute. reflexivity. Qed.

Lemma verbose_lines A color load s :
  (if verbose A =? 0 then ret tt
   else (emit EvClear;;
         print (Text "G Series Keyboard control");;
         print (LoadColor color);;
         print (LoadValue load))%py) s
  = (Ok tt, advance s (load_lines A color load) 0).
Proof.
  unfold load_lines. destruct (verbose A =? 0).
  - unfold ret. rewrite advance_nil. reflexivity.
  - unfold print.
    rewrite (bind_ok _ _ _ _ _ (emit_advance _ _)).
    rewrite (bind_ok _ _ _ _ _ (emit_advance _ _)).
    rewrite (bind_ok _ _ _ _ _ (emit_advance _ _)).
    rewrite emit_advance, !advance_advance. reflexivity.
Qed.

Lemma tick_monitoring E A s v load color :
  NOTIFY s = EmptyString ->
  int_of_float (cpu_percent E (ncpu s)) = Ok v ->
  (current_sampling s < length (cpu_load_cache s))%nat ->
  int_truediv (sum (<[current_sampling s := v]> (cpu_load_cache s)))
              (Z.of_nat (length (cpu_load_cache s))) = Ok load ->
  get_load_color load = Ok color ->
  tick E A s
  = (set_keyboard_color E color (persistent A);;
     (if verbose A =? 0 then ret tt
      else (emit EvClear;;
            print (Text "G Series Keyboard control");;
            print (LoadColor color);;
            print (LoadValue load)));;
     sleep SAMPLING)%py (colored (recorded (polled s) v) color).
Proof.
  intros HN Hv Hi Hload Hcolor. unfold tick.
  unfold gets at 1. unfold bind at 1. rewrite HN. cbn [String.eqb].
  unfold monitoring.
  rewrite (bind_ok _ _ _ _ _ (psutil_polled E s)).
  unfold lift at 1. unfold bind at 1. rewrite Hv.
  rewrite (bind_ok _ _ _ _ _ (record_sample_ok v (polled s) load Hi Hload)).
  unfold lift at 1. unfold bind at 1. rewrite Hcolor.
  reflexivity.
Qed.

Lemma tick_monitoring_displayed E A s v load color :
  NOTIFY s = EmptyString ->
  int_of_float (cpu_percent E (ncpu s)) = Ok v ->
  (current_sampling s < length (cpu_load_cache s))%nat ->
  int_truediv (sum (<[current_sampling s := v]> (cpu_load_cache s)))
              (Z.of_nat (length (cpu_load_cache s))) = Ok load ->
  get_load_color load = Ok color ->
  device E (ndev s) = DevOk \/ (device E (ndev s) = DevFailed /\ persistent A <> 0) ->
  tick E A s
  = (Ok tt,
     advance (colored (recorded (polled s) v) color)
       (EvG810 (color_string color) :: load_lines A color load ++ [EvSleep SAMPLING]) 1).
Proof.
  intros HN Hv Hi Hload Hcolor Hdev.
  rewrite (tick_monitoring E A s v load color HN Hv Hi Hload Hcolor).
  erewrite bind_ok.
  2:{ destruct Hdev as [Hd | [Hd Hp]].
      - apply set_keyboard_color_ok. exact Hd.
      - apply set_keyboard_color_swallowed; [exact Hd | exact Hp]. }
  rewrite (bind_ok _ _ _ _ _ (verbose_lines A color load _)).
  rewrite sleep_advance by apply sleep_ok_SAMPLING.
  rewrite !advance_advance. reflexivity.
Qed.

Lemma tick_monitoring_failed E A s v load color :
  NOTIFY s = EmptyString ->
  int_of_float (cpu_percent E (ncpu s)) = Ok v ->
  (current_sampling s < length (cpu_load_cache s))%nat ->
  int_truediv (sum (<[current_sampling s := v]> (cpu_load_cache s)))
              (Z.of_nat (length (cpu_load_cache s))) = Ok load ->
  get_load_color load = Ok color ->
  device E (ndev s) = DevFailed -> persistent A = 0 ->
  tick E A s
  = (Raise SystemExit,
     advance (colored (recorded (polled s) v) color)
       [EvG810 (color_string color);
        EvPrint (Text "Program g810-led failed; check keyboard connection")] 1).
Proof.
  intros HN Hv Hi Hload Hcolor Hdev Hp.
  rewrite (tick_monitoring E A s v load color HN Hv Hi Hload Hcolor).
  rewrite Hp. erewrite bind_raise; [reflexivity|].
  apply set_keyboard_color_failed. exact Hdev.
Qed.

(** ** A failing keyboard *)

Lemma notification_blink_fails E c1 c2 interval n : forall k s,
  sleep_ok interval = true ->
  (k < 2 * n)%nat ->
  (forall j, (j < k)%nat -> device E (ndev s + j) = DevOk) ->
  device E (ndev s + k) = DevFailed ->
  fst (for_range n
         (set_keyboard_color E c1 0;; sleep interval;;
          set_keyboard_color E c2 0;; sleep interval)%py s)
  = Raise SystemExit.
Proof.
  induction n as [|n IH]; intros k s Hs Hk Hbefore Hfail; [lia|].
  cbn [for_range].
  destruct k as [|[|k]].
  - rewrite Nat.add_0_r in Hfail.
    erewrite bind_raise; [reflexivity|].
    erewrite bind_raise; [reflexivity|].
    apply set_keyboard_color_failed. exact Hfail.
  - erewrite bind_raise; [reflexivity|].
    erewrite bind_ok.
    2:{ apply set_keyboard_color_ok. rewrite <- (Hbefore 0%nat) by lia. f_equal. lia. }
    rewrite (bind_ok _ _ _ _ _ (sleep_advance _ _ Hs)).
    erewrite bind_raise; [reflexivity|].
    apply set_keyboard_color_failed. rewrite <- Hfail. cbn. f_equal. lia.
  - erewrite bind_ok.
    2:{ apply blink_body_ok; [exact Hs | |].
        - rewrite <- (Hbefore 0%nat) by lia. f_equal. lia.
        - rewrite <- (Hbefore 1%nat) by lia. f_equal. lia. }
    apply (IH k); [exact Hs | lia | |].
    + intros j Hj. cbn. rewrite <- (Hbefore (2 + j)%nat) by lia. f_equal. lia.
    + cbn. rewrite <- Hfail. f_equal. lia.
Qed.

(** C2: when the g810-led command fails on the display command of a
    monitoring iteration, the iteration ends normally in persistent mode,
    with the cell still empty and the sampler intact for the next
    iteration, and raises [SystemExit] otherwise; when it fails on any
    display command of a blink, the iteration raises [SystemExit] whatever
    the mode. *)
Theorem C2_persistent_mode :
  forall (E : env) (A : args) (sm sb : machine) (v : Z) (name : string)
         (pre post : list (gmap string value)) (d : gmap string value)
         (C mc : list Z) (count : Z) (interval : float) (k : nat),
    (* a monitoring iteration whose display command fails *)
    NOTIFY sm = EmptyString ->
    sampler_ok sm ->
    int_of_float (cpu_percent E (ncpu sm)) = Ok v ->
    percentage v ->
    device E (ndev sm) = DevFailed ->
    (* a blink whose k-th display command is the first to fail *)
    NOTIFY sb = name ->
    name <> EmptyString ->
    notification_settings_list sb = pre ++ d :: post ->
    Forall (other_name name) pre ->
    setting_for name C count interval d ->
    meter_color sb = Some mc ->
    sleep_ok interval = true ->
    (k < 2 * Z.to_nat count)%nat ->
    (forall j, (j < k)%nat -> device E (ndev sb + j) = DevOk) ->
    device E (ndev sb + k) = DevFailed ->
    (exists load color,
        tick E A sm
        = if persistent A =? 0 then
            (Raise SystemExit,
             advance (colored (recorded (polled sm) v) color)
               [EvG810 (color_string color);
                EvPrint (Text "Program g810-led failed; check keyboard connection")] 1)
          else
            (Ok tt,
             advance (colored (recorded (polled sm) v) color)
               (EvG810 (color_string color)
                  :: load_lines A color load ++ [EvSleep SAMPLING]) 1))
    /\ NOTIFY (snd (tick E A sm)) = EmptyString
    /\ sampler_ok (snd (tick E A sm))
    /\ fst (tick E A sb) = Raise SystemExit.
Proof.
  intros E A sm sb v name pre post d C mc count interval k
         HN Hok Hv Hp Hdev HNb Hne Hset Hpre Hd Hmc Hs Hk Hbefore Hfail.
  destruct (sampler_color (polled sm) v Hok Hp) as (load & color & Hload & Hcolor).
  assert (Hi : (current_sampling sm < length (cpu_load_cache sm))%nat) by apply Hok.
  assert (Htick :
            tick E A sm
            = if persistent A =? 0 then
                (Raise SystemExit,
                 advance (colored (recorded (polled sm) v) color)
                   [EvG810 (color_string color);
                    EvPrint (Text "Program g810-led failed; check keyboard connection")] 1)
              else
                (Ok tt,
                 advance (colored (recorded (polled sm) v) color)
                   (EvG810 (color_string color)
                      :: load_lines A color load ++ [EvSleep SAMPLING]) 1)).
  { destruct (Z.eqb_spec (persistent A) 0) as [Hz | Hnz].
    - apply (tick_monitoring_failed E A sm v load color); assumption.
    - apply tick_monitoring_displayed; try assumption. right. split; assumption. }
  split; [exists load, color; exact Htick |].
  split; [| split].
  - rewrite Htick. destruct (persistent A =? 0); exact HN.
  - rewrite Htick.
    destruct (persistent A =? 0); exact (recorded_ok (polled sm) v Hok Hp).
  - rewrite tick_blinking by congruence. rewrite HNb, Hset.
    apply bind_raise_fst.
    rewrite blink_first_match_skip by exact Hpre.
    erewrite blink_first_match_hit; [| exact Hd | exact Hmc].
    unfold notification_blink.
    apply (notification_blink_fails E C mc interval (Z.to_nat count) k); try assumption;
      cbn [ndev advance]; rewrite Nat.add_0_r; assumption.
Qed.

Lemma C2_persistent_mode_witness :
  NOTIFY (snd (tick Sample.disconnected Sample.tolerant (Sample.pending ""))) = EmptyString
  /\ sampler_ok (snd (tick Sample.disconnected Sample.tolerant (Sample.pending "")))
  /\ fst (tick Sample.disconnected Sample.tolerant (Sample.pending "Telegram Desktop"))
     = Raise SystemExit.
Proof.
  apply (C2_persistent_mode Sample.disconnected Sample.tolerant
           (Sample.pending "") (Sample.pending "Telegram Desktop") 40
           "Telegram Desktop" [] [Sample.spotify] Sample.telegram
           [0; 190; 255] [204; 255; 0] 2 Sample.seconds_0_3 0).
  - reflexivity.
  - split.
    + unfold SAMPLES. cbn. lia.
    + cbn. repeat (constructor; [unfold percentage; lia |]). constructor.
  - vm_compute. reflexivity.
  - unfold percentage. lia.
  - reflexivity.
  - reflexivity.
  - discriminate.
  - reflexivity.
  - constructor.
  - repeat split; vm_compute; reflexivity.
  - reflexivity.
  - vm_compute. reflexivity.
  - cbn. lia.
  - intros j Hj. lia.
  - reflexivity.
Defined.

(** ** The length of the cache *)

Create HintDb keeps.

Lemma keeps_ret {A} (a : A) : keeps_length (ret a).
Proof. intros s. reflexivity. Qed.

Lemma keeps_raise {A} e : keeps_length (@raise A e).
Proof. intros s. reflexivity. Qed.

Lemma keeps_lift {A} (r : result A) : keeps_length (lift r).
Proof. intros s. reflexivity. Qed.

Lemma keeps_gets {A} (f : machine -> A) : keeps_length (gets f).
Proof. intros s. reflexivity. Qed.

Lemma keeps_bind {A B} (c : M A) (k : A -> M B) :
  keeps_length c -> (forall a, keeps_length (k a)) -> keeps_length (bind c k).
Proof.
  intros Hc Hk s. unfold bind. specialize (Hc s).
  destruct (c s) as [[a | e] s']; cbn in Hc |- *; [| exact Hc].
  rewrite (Hk a s'). exact Hc.
Qed.

Lemma keeps_emit ev : keeps_length (emit ev).
Proof. intros s. reflexivity. Qed.

Lemma keeps_set_NOTIFY v : keeps_length (set_NOTIFY v).
Proof. intros s. reflexivity. Qed.

Lemma keeps_set_current_sampling v : keeps_length (set_current_sampling v).
Proof. intros s. reflexivity. Qed.

Lemma keeps_set_meter_color v : keeps_length (set_meter_color v).
Proof. intros s. reflexivity. Qed.

Lemma keeps_sleep secs : keeps_length (sleep secs).
Proof.
  unfold sleep. destruct (sleep_ok secs); [apply keeps_emit|].
  destruct secs; cbv zeta; try destruct (_ || _); apply keeps_raise.
Qed.

#[local] Hint Resolve keeps_ret keeps_raise keeps_lift keeps_gets keeps_emit
  keeps_set_NOTIFY keeps_set_current_sampling keeps_set_meter_color keeps_sleep : keeps.

#[local] Hint Extern 2 (keeps_length (bind _ _)) => apply keeps_bind; [| intros ?] : keeps.
#[local] Hint Extern 2 (keeps_length (if ?b then _ else _)) => destruct b : keeps.
#[local] Hint Extern 2 (keeps_length (match ?x with _ => _ end)) => destruct x : keeps.

Lemma keeps_set_keyboard_color E rgb ie : keeps_length (set_keyboard_color E rgb ie).
Proof.
  unfold set_keyboard_color, g810_led, print, exit.
  apply keeps_bind; [| intros []]; auto 10 with keeps.
  apply keeps_bind; [| intros ?]; auto with keeps.
  apply keeps_bind; [| intros ?]; auto with keeps.
  apply keeps_bind; [| intros ?]; auto with keeps.
  intros s. reflexivity.
Qed.

#[local] Hint Resolve keeps_set_keyboard_color : keeps.

Lemma keeps_for_range n body : keeps_length body -> keeps_length (for_range n body).
Proof. intros Hb. induction n; cbn [for_range]; auto with keeps. Qed.

Lemma keeps_notification_blink E c1 c2 count interval :
  keeps_length (notification_blink E c1 c2 count interval).
Proof. unfold notification_blink. apply keeps_for_range. auto 10 with keeps. Qed.

#[local] Hint Resolve keeps_notification_blink : keeps.

Lemma keeps_getitem d key : keeps_length (getitem d key).
Proof. unfold getitem. auto with keeps. Qed.

#[local] Hint Resolve keeps_getitem : keeps.

Lemma keeps_blink_first_match E name settings :
  keeps_length (blink_first_match E name settings).
Proof.
  induction settings as [|d settings IH]; cbn [blink_first_match]; [auto with keeps|].
  apply keeps_bind; [auto with keeps | intros n].
  destruct (name_eq name n); [| exact IH].
  unfold as_colors, as_count, as_seconds. auto 30 with keeps.
Qed.

(** The store at the cursor is the only assignment to the cache, and it
    replaces one element. *)
Lemma keeps_record_sample v : keeps_length (record_sample v).
Proof.
  intros s. unfold record_sample, bind, gets, set_cpu_load_cache, set_current_sampling,
    modify, raise, lift, ret. cbn -[Nat.ltb Nat.leb].
  destruct (current_sampling s <? length (cpu_load_cache s))%nat; [| reflexivity].
  cbn -[Nat.ltb Nat.leb].
  destruct (length (<[current_sampling s:=v]> (cpu_load_cache s)) <=? current_sampling s + 1)%nat;
    cbn; apply length_insert.
Qed.

#[local] Hint Extern 1 (keeps_length (modify _)) => (intros ?; reflexivity) : keeps.
#[local] Hint Resolve keeps_record_sample keeps_blink_first_match : keeps.

Lemma keeps_tick E A : keeps_length (tick E A).
Proof.
  unfold tick, monitoring, blinking, psutil_cpu_percent, print.
  apply keeps_bind; [auto with keeps | intros name].
  destruct (String.eqb name ""); auto 30 with keeps.
Qed.

Lemma keeps_deliver messages : keeps_length (deliver messages).
Proof.
  intros s. unfold deliver. cbn [snd]. revert s.
  induction messages as [|m messages IH]; intros s; [reflexivity|].
  cbn [fold_left]. rewrite IH. destruct m; reflexivity.
Qed.

(** The length of the cache is the same after any number of iterations of
    the loop, however the loop ends. *)
Lemma keeps_main_loop E A bus fuel : forall n, keeps_length (main_loop E A bus fuel n).
Proof.
  pose proof (keeps_tick E A). pose proof keeps_deliver.
  induction fuel as [|fuel IH]; intros n; cbn [main_loop]; auto 10 with keeps.
Qed.

(** ** The moving average *)

(** The average of n copies of a percentage is that percentage. *)
Lemma average_of_copies n v :
  (0 < n)%nat -> percentage v ->
  int_truediv (Z.of_nat n * v) (Z.of_nat n) = Ok (float_of_Z v).
Proof.
  intros Hn Hv. unfold percentage in Hv.
  destruct (float_of_Z_correct v ltac:(lia)) as [Nv Vv].
  destruct (Z.eq_dec v 0) as [-> | Hnz].
  { rewrite Z.mul_0_r. unfold int_truediv.
    destruct (Z.eqb_spec (Z.of_nat n) 0) as [E | _]; [lia|].
    destruct (Z.ltb_spec (Z.of_nat n) 0) as [L | _]; [lia|]. reflexivity. }
  destruct float_100 as [N100 V100].
  assert (Hpos : (0 < IZR (Z.of_nat n))%R) by (apply (IZR_lt 0); lia).
  assert (Hq : (IZR (Z.of_nat n * v) / IZR (Z.of_nat n))%R = IZR v).
  { rewrite mult_IZR. field. lra. }
  destruct (int_truediv_correct (Z.of_nat n * v) (Z.of_nat n) (float_of_Z 100))
    as (f & Hf & Nf & Hnear); [lia | lia | exact N100 | |].
  { rewrite Hq, V100. apply IZR_le. lia. }
  rewrite Hf. f_equal. rewrite Hq in Hnear.
  pose proof (nearest_format _ _ (format_small_int v ltac:(lia)) Hnear) as Hval.
  destruct (value_inj f (float_of_Z v) Nf Nv) as [E | [_ Z0]]; [congruence | exact E |].
  rewrite Vv in Z0. apply eq_IZR in Z0. contradiction.
Qed.

Lemma recorded_n_ok n : forall s v,
  sampler_ok s -> percentage v -> sampler_ok (recorded_n n s v).
Proof.
  induction n as [|n IH]; intros s v Hs Hv; [exact Hs|].
  cbn [recorded_n]. apply IH; [apply recorded_ok; assumption | exact Hv].
Qed.

Lemma recorded_n_length n : forall s v,
  length (cpu_load_cache (recorded_n n s v)) = length (cpu_load_cache s).
Proof.
  induction n as [|n IH]; intros s v; [reflexivity|].
  cbn [recorded_n]. rewrite IH. cbn. apply length_insert.
Qed.

(** Every recording succeeds and leaves the machine [recorded]. *)
Lemma feed_recorded n : forall s v,
  sampler_ok s -> percentage v ->
  exists averages,
    feed n v s = (Ok averages, recorded_n n s v)
    /\ length averages = n
    /\ (forall load, last averages = Some load ->
                     int_truediv (sum (cpu_load_cache (recorded_n n s v)))
                                 (Z.of_nat (length (cpu_load_cache s))) = Ok load).
Proof.
  induction n as [|n IH]; intros s v Hs Hv.
  - exists []. repeat split. intros load H. discriminate.
  - destruct (sampler_color s v Hs Hv) as (load & color & Hload & _).
    assert (Hi : (current_sampling s < length (cpu_load_cache s))%nat) by apply Hs.
    destruct (IH (recorded s v) v (recorded_ok s v Hs Hv) Hv) as (rest & Hfeed & Hlen & Hlast).
    exists (load :: rest). cbn [feed recorded_n].
    rewrite (bind_ok _ _ _ _ _ (record_sample_ok v s load Hi Hload)).
    rewrite (bind_ok _ _ _ _ _ Hfeed).
    repeat split.
    + cbn. rewrite Hlen. reflexivity.
    + intros l Hl. destruct rest as [|r rest].
      * cbn in Hl, Hlen. injection Hl as <-. subst n. cbn [recorded_n]. exact Hload.
      * assert (Hlen' : length (cpu_load_cache (recorded s v)) = length (cpu_load_cache s))
          by (cbn; apply length_insert).
        rewrite <- Hlen'. apply Hlast. rewrite <- Hl. symmetry. apply last_cons_cons.
Qed.

(** Recording from cursor [i] up to the end of a cache that holds [v] below
    the cursor already. *)
Lemma recorded_n_cache n : forall s v i rest,
  cpu_load_cache s = repeat v i ++ rest ->
  current_sampling s = match rest with [] => 0%nat | _ => i end ->
  n = length rest ->
  cpu_load_cache (recorded_n n s v) = repeat v (i + n)
  /\ current_sampling (recorded_n n s v) = 0%nat.
Proof.
  induction n as [|n IH]; intros s v i rest Hc Hi Hn.
  - destruct rest; [|discriminate]. cbn. rewrite Hc, app_nil_r, Nat.add_0_r. auto.
  - destruct rest as [|x rest]; [discriminate|]. cbn [recorded_n].
    assert (Hins : <[i := v]> (repeat v i ++ x :: rest) = repeat v (S i) ++ rest).
    { rewrite insert_app_r_alt by (rewrite repeat_length; lia).
      rewrite repeat_length, Nat.sub_diag. cbn [insert list_insert].
      change (v :: rest) with ([v] ++ rest). rewrite app_assoc. f_equal.
      symmetry. apply (repeat_cons i v). }
    destruct (IH (recorded s v) v (S i) rest) as [Hcache Hcur].
    + cbn. rewrite Hi, Hc. exact Hins.
    + cbn -[Nat.leb]. rewrite Hi, Hc, length_app, repeat_length. cbn [length].
      destruct rest as [|y rest].
      * rewrite (proj2 (Nat.leb_le _ _)) by (cbn; lia). reflexivity.
      * rewrite (proj2 (Nat.leb_gt _ _)) by (cbn; lia). lia.
    + cbn in Hn. lia.
    + split; [| exact Hcur]. rewrite Hcache. f_equal. lia.
Qed.

(** C7: let N be the capacity of the cache (25 in the program).  After N
    consecutive recordings of a percentage V into a freshly pre-filled
    cache, whatever percentages it was filled with, the cache holds V in
    every slot, the cursor is back at the start and the average returned by
    the last recording is exactly V; every recording succeeds, and the
    length of the cache is the same after each of them, as it is after any
    number of iterations of the main loop from any machine. *)
Theorem C7_average_converges :
  forall (s : machine) (V : Z) (N : nat),
    length (cpu_load_cache s) = N ->
    (0 < N)%nat ->
    current_sampling s = 0%nat ->
    Forall percentage (cpu_load_cache s) ->
    percentage V ->
    (exists averages,
        feed N V s = (Ok averages, recorded_n N s V)
        /\ length averages = N
        /\ last averages = Some (float_of_Z V))
    /\ cpu_load_cache (recorded_n N s V) = repeat V N
    /\ current_sampling (recorded_n N s V) = 0%nat
    /\ (forall k, exists averages,
           feed k V s = (Ok averages, recorded_n k s V)
           /\ length (cpu_load_cache (recorded_n k s V)) = N)
    /\ (forall (E : env) (A : args) (bus : nat -> list dbus_message)
               (fuel n : nat) (s0 : machine),
           length (cpu_load_cache (snd (main_loop E A bus fuel n s0)))
           = length (cpu_load_cache s0)).
Proof.
  intros s V N Hlen HN Hcur Hall HV.
  assert (Hs : sampler_ok s) by (split; [rewrite Hcur, Hlen; exact HN | exact Hall]).
  destruct (recorded_n_cache N s V 0 (cpu_load_cache s)) as [Hcache Hcursor].
  { reflexivity. }
  { rewrite Hcur. destruct (cpu_load_cache s); reflexivity. }
  { symmetry. exact Hlen. }
  destruct (feed_recorded N s V Hs HV) as (averages & Hfeed & Hlength & Hlast).
  split; [exists averages; split; [exact Hfeed | split; [exact Hlength |]]
         | split; [| split; [| split]]].
  - destruct (last averages) as [load|] eqn:Hl.
    + f_equal. specialize (Hlast load eq_refl).
      rewrite Hcache, sum_repeat, Hlen, average_of_copies in Hlast by assumption.
      congruence.
    + apply last_None in Hl. subst averages. cbn in Hlength. lia.
  - exact Hcache.
  - exact Hcursor.
  - intros k. destruct (feed_recorded k s V Hs HV) as (avs & Hf & _ & _).
    exists avs. split; [exact Hf |]. rewrite recorded_n_length. exact Hlen.
  - intros E A bus fuel n s0. apply keeps_main_loop.
Qed.

Lemma C7_average_converges_witness :
  exists averages,
    feed SAMPLES 40 initial = (Ok averages, recorded_n SAMPLES initial 40)
    /\ length averages = SAMPLES
    /\ last averages = Some (float_of_Z 40).
Proof.
  refine (proj1 (C7_average_converges initial 40 SAMPLES _ _ _ _ _)).
  - reflexivity.
  - unfold SAMPLES. lia.
  - reflexivity.
  - cbn. repeat (constructor; [unfold percentage; lia |]). constructor.
  - unfold percentage. lia.
Defined.

(** ** The hexadecimal string of any integer *)

Lemma limit_Z (lo hi n : Z) : limit lo hi n = Z.max lo (Z.min n hi).
Proof.
  unfold limit, Py.max, Py.min, Py.lt, ord_Z.
  destruct (Z.ltb_spec hi n) as [H1 | H1].
  - destruct (Z.ltb_spec hi lo); lia.
  - destruct (Z.ltb_spec n lo); lia.
Qed.

(** X1: the clamp of [limit]: with the bounds in order the result lies between
    them, a number already between them is returned as it is, the clamp is
    monotone, and clamping twice is clamping once. *)
Theorem limit_between :
  forall lo hi n m : Z,
    lo <= hi ->
    lo <= limit lo hi n <= hi
    /\ (lo <= n <= hi -> limit lo hi n = n)
    /\ (n <= m -> limit lo hi n <= limit lo hi m)
    /\ limit lo hi (limit lo hi n) = limit lo hi n.
Proof.
  intros lo hi n m H. rewrite !limit_Z. repeat split; lia.
Qed.

Lemma limit_between_witness :
  0 <= limit 0 255 300 <= 255
  /\ (0 <= 300 <= 255 -> limit 0 255 300 = 300)
  /\ (300 <= 301 -> limit 0 255 300 <= limit 0 255 301)
  /\ limit 0 255 (limit 0 255 300) = limit 0 255 300.
Proof. apply (limit_between 0 255 300 301). lia. Defined.

Lemma length_upper s : String.length (upper s) = String.length s.
Proof. induction s as [|c s IH]; cbn; [reflexivity | now rewrite IH]. Qed.

Lemma upper_digits d :
  forallb is_upper_hex
    (list_ascii_of_string (upper (HexadecimalString.NilEmpty.string_of_uint d))) = true.
Proof. induction d; cbn [HexadecimalString.NilEmpty.string_of_uint upper list_ascii_of_string forallb]; try rewrite IHd; reflexivity. Qed.

Lemma unhex_digits_acc d : forall acc : positive,
  unhex_from (Zpos acc) (upper (HexadecimalString.NilEmpty.string_of_uint d))
  = Zpos (Pos.of_hex_uint_acc d acc).
Proof.
  induction d; intros acc;
    cbn [HexadecimalString.NilEmpty.string_of_uint upper unhex_from Pos.of_hex_uint_acc];
    try reflexivity;
    match goal with
    | |- unhex_from ?a _ = Zpos (Pos.of_hex_uint_acc _ ?b) =>
        replace a with (Zpos b) by (vm_compute unhex_digit; lia)
    end; apply IHd.
Qed.

Lemma unhex_digits d :
  unhex (upper (HexadecimalString.NilEmpty.string_of_uint d)) = Z.of_N (Pos.of_hex_uint d).
Proof.
  unfold unhex.
  induction d;
    cbn [HexadecimalString.NilEmpty.string_of_uint upper unhex_from Pos.of_hex_uint];
    try reflexivity; try exact IHd;
    match goal with
    | |- unhex_from ?a _ = Z.of_N (N.pos (Pos.of_hex_uint_acc _ ?b)) =>
        change a with (Zpos b)
    end; apply unhex_digits_acc.
Qed.

(** What [hex] writes after the prefix. *)
Lemma digits_of_nat (n : N) :
  let t := HexadecimalString.NilZero.string_of_uint (N.to_hex_uint n) in
  String.length t <> 0%nat
  /\ forallb is_upper_hex (list_ascii_of_string (upper t)) = true
  /\ unhex (upper t) = Z.of_N n.
Proof.
  cbv zeta. pose proof (HexadecimalN.Unsigned.of_to n) as H.
  unfold N.of_hex_uint in H.
  destruct (N.to_hex_uint n); rewrite <- H;
    try (split; [cbn; discriminate | split; [apply upper_digits | apply unhex_digits]]).
  split; [cbn; discriminate | split; reflexivity].
Qed.

Lemma unhex_zero s : unhex (String "0" s) = unhex s.
Proof. reflexivity. Qed.

(** X2: the hexadecimal string of a number that is not negative: an even
    number of characters, at least two, all of them digits or the letters
    A to F, which read back as the number. *)
Theorem int_to_hexstring_nonneg :
  forall dec : Z,
    0 <= dec ->
    (String.length (int_to_hexstring dec) mod 2 = 0)%nat
    /\ (2 <= String.length (int_to_hexstring dec))%nat
    /\ forallb is_upper_hex (list_ascii_of_string (int_to_hexstring dec)) = true
    /\ unhex (int_to_hexstring dec) = dec.
Proof.
  intros dec Hdec. unfold int_to_hexstring, Py.hex.
  replace (dec <? 0) with false by (symmetry; apply Z.ltb_ge; exact Hdec).
  destruct (digits_of_nat (Z.abs_N dec)) as (Hlen & Hup & Hval).
  set (t := HexadecimalString.NilZero.string_of_uint (N.to_hex_uint (Z.abs_N dec))) in *.
  rewrite N2Z.inj_abs_N, Z.abs_eq in Hval by exact Hdec.
  change (Py.drop 2 ("0x" ++ t)%string) with t.
  destruct (Nat.eqb_spec (String.length t mod 2) 0) as [He | Hodd]; cbn [negb].
  - rewrite length_upper. repeat split; try assumption.
    destruct (String.length t) as [|[|n]]; [congruence | discriminate | lia].
  - change (upper ("0" ++ t)%string) with (String "0" (upper t)).
    cbn [String.length list_ascii_of_string forallb]. rewrite length_upper.
    repeat split; try assumption; [| lia].
    pose proof (Nat.mod_upper_bound (String.length t) 2 ltac:(lia)) as Hb.
    replace (S (String.length t)) with (String.length t + 1)%nat by lia.
    rewrite Nat.Div0.add_mod.
    replace (String.length t mod 2)%nat with 1%nat by lia. reflexivity.
Qed.

Lemma int_to_hexstring_nonneg_witness :
  (String.length (int_to_hexstring 4095) mod 2 = 0)%nat
  /\ (2 <= String.length (int_to_hexstring 4095))%nat
  /\ forallb is_upper_hex (list_ascii_of_string (int_to_hexstring 4095)) = true
  /\ unhex (int_to_hexstring 4095) = 4095.
Proof. apply (int_to_hexstring_nonneg 4095). lia. Defined.

(** X3: the slice [[2:]] takes the prefix of a number that is not negative;
    of a negative number it takes the sign and the zero, and leaves the x:
    the result starts with X, or with 0X, and is not a hexadecimal
    string. *)
Theorem int_to_hexstring_negative :
  forall dec : Z,
    dec < 0 ->
    (exists rest, int_to_hexstring dec = String "X" rest
                  \/ int_to_hexstring dec = String "0" (String "X" rest))
    /\ forallb is_upper_hex (list_ascii_of_string (int_to_hexstring dec)) = false.
Proof.
  intros dec Hdec. unfold int_to_hexstring, Py.hex.
  replace (dec <? 0) with true by (symmetry; apply Z.ltb_lt; exact Hdec).
  set (t := HexadecimalString.NilZero.string_of_uint (N.to_hex_uint (Z.abs_N dec))).
  change (Py.drop 2 ("-0x" ++ t)%string) with (String "x" t).
  destruct (negb _).
  - split; [exists (upper t); right; reflexivity | reflexivity].
  - split; [exists (upper t); left; reflexivity | reflexivity].
Qed.

Lemma int_to_hexstring_negative_witness :
  (exists rest, int_to_hexstring (-255) = String "X" rest
                \/ int_to_hexstring (-255) = String "0" (String "X" rest))
  /\ forallb is_upper_hex (list_ascii_of_string (int_to_hexstring (-255))) = false.
Proof. apply (int_to_hexstring_negative (-255)). lia. Defined.

(** ** The color string of any list *)

Lemma append_empty s : String.append s EmptyString = s.
Proof.
  induction s as [|a s IH]; [reflexivity|].
  change (String a (String.append s EmptyString) = String a s). f_equal. exact IH.
Qed.

Lemma append_append s t u :
  String.append (String.append s t) u = String.append s (String.append t u).
Proof.
  induction s as [|a s IH]; [reflexivity|].
  change (String a (String.append (String.append s t) u)
          = String a (String.append s (String.append t u))).
  f_equal. exact IH.
Qed.

Lemma color_string_from l : forall acc,
  fold_left (fun acc color => String.append acc (int_to_hexstring (limit 0 255 color))) l acc
  = String.append acc (color_string l).
Proof.
  unfold color_string.
  induction l as [|c l IH]; intros acc; cbn [fold_left].
  - symmetry. apply append_empty.
  - rewrite (IH (String.append acc _)), (IH (String.append EmptyString _)).
    apply append_append.
Qed.

Lemma color_string_cons c l :
  color_string (c :: l) = String.append (hex2 (clamp 0 255 c)) (color_string l).
Proof.
  unfold color_string at 1. cbn [fold_left]. rewrite color_string_from.
  rewrite limit_clamp, hex_byte by apply clamp_range. reflexivity.
Qed.

(** X4: the string handed to g810-led has two characters for each element of
    the color, whatever their number: the elements clamped to [0,255] and
    written in uppercase hexadecimal, in the order of the list, so that the
    k-th pair reads back as the k-th element clamped. *)
Theorem color_string_pairs :
  forall rgb : list Z,
    String.length (color_string rgb) = (2 * length rgb)%nat
    /\ forallb is_upper_hex (list_ascii_of_string (color_string rgb)) = true
    /\ (forall (k : nat) (c : Z),
           rgb !! k = Some c ->
           unhex2 (substring (2 * k) 2 (color_string rgb)) = clamp 0 255 c).
Proof.
  induction rgb as [|c rgb (IHlen & IHup & IHk)].
  - repeat split. intros k c H. discriminate.
  - rewrite color_string_cons.
    pose proof (hex2_shape _ (clamp_range c)) as (L & U & D).
    destruct (hex2 (clamp 0 255 c)) as [|a [|b [|]]] eqn:E; try discriminate.
    change (String.append (String a (String b EmptyString)) (color_string rgb))
      with (String a (String b (color_string rgb))).
    cbn [String.length list_ascii_of_string forallb length].
    split; [rewrite IHlen; lia | split].
    + cbn [list_ascii_of_string forallb] in U.
      apply andb_prop in U as [Ua U]. apply andb_prop in U as [Ub _].
      rewrite Ua, Ub. exact IHup.
    + intros [|k] c' Hk.
      * injection Hk as <-. cbn [Nat.mul substring].
        destruct (color_string rgb); exact D.
      * replace (2 * S k)%nat with (S (S (2 * k))) by lia.
        cbn [substring]. apply IHk. exact Hk.
Qed.

Lemma color_string_pairs_witness :
  unhex2 (substring (2 * 1) 2 (color_string [300; 16])) = clamp 0 255 16.
Proof.
  apply (proj2 (proj2 (color_string_pairs [300; 16])) 1%nat 16). reflexivity.
Defined.

(** ** The outcomes of the display command *)

(** X5: [set_keyboard_color] calls g810-led once, whatever happens: it ends
    normally when the call succeeds, or when it fails in another way than a
    missing program and errors are ignored; in every other case it stops
    the program, a missing program also when errors are ignored. *)
Theorem set_keyboard_color_outcome :
  forall (E : env) (rgb : list Z) (ignore_errors : Z) (s : machine),
    let r := set_keyboard_color E rgb ignore_errors s in
    display_commands (trace (snd r))
    = display_commands (trace s) ++ [EvG810 (color_string rgb)]
    /\ ndev (snd r) = S (ndev s)
    /\ (fst r = Ok tt \/ fst r = Raise SystemExit)
    /\ (fst r = Ok tt
        <-> device E (ndev s) = DevOk
            \/ (device E (ndev s) = DevFailed /\ ignore_errors <> 0)).
Proof.
  intros E rgb ie s r. subst r. unfold set_keyboard_color.
  rewrite (bind_ok _ _ _ _ _ (g810_led_advance E _ s)).
  destruct (device E (ndev s)) eqn:Hd; cbv iota.
  - cbn. rewrite display_commands_app. repeat split; try lia; auto.
  - unfold print. rewrite (bind_ok _ _ _ _ _ (emit_advance _ _)), advance_advance.
    cbn. rewrite display_commands_app. repeat split; try lia; auto; try discriminate.
    intros [? | [? _]]; discriminate.
  - destruct (Z.eqb_spec ie 0) as [-> | Hne].
    + unfold print. rewrite (bind_ok _ _ _ _ _ (emit_advance _ _)), advance_advance.
      cbn. rewrite display_commands_app. repeat split; try lia; auto; try discriminate.
      intros [? | [_ ?]]; [discriminate | congruence].
    + cbn. rewrite display_commands_app. repeat split; try lia; auto.
Qed.

(** ** The load color over all floats *)

Section MapperRange.

Import Ieee.
Local Open Scope R_scope.

Lemma format_half : format (/ 2).
Proof.
  right. exists 4503599627370496%positive, (-53)%Z. split; [reflexivity|].
  change (Zpos 4503599627370496) with (2 ^ 52)%Z.
  rewrite (F2R_pow2 52 (-53)) by lia.
  change (bpow (-53 + 52)) with (/ (2 * 1)). rewrite Rmult_1_r. reflexivity.
Qed.

(** A channel that is at least 1 before the clamp is saturated. *)
Lemma channel_high r : nonneg r -> 1 <= value r -> channel (Float r) = Ok 255%Z.
Proof.
  intros Nr Hr. destruct float_1 as [N1 V1].
  rewrite (channel_unfold r Nr).
  destruct (flt (float_of_Z 1) r) eqn:Hlt; [reflexivity|].
  assert (Hv : value r = 1).
  { destruct (Rle_lt_or_eq_dec _ _ Hr) as [Hgt | Heq]; [| symmetry; exact Heq].
    rewrite <- V1 in Hgt. apply (flt_spec _ _ N1 Nr) in Hgt. congruence. }
  rewrite <- V1 in Hv.
  destruct (value_inj r (float_of_Z 1) Nr N1 Hv) as [-> | [_ H0]]; [reflexivity|].
  rewrite V1 in H0. lra.
Qed.

(** One minus a number that is not positive is at least 1. *)
Lemma complement_at_least_one x : nonpos x -> at_least_one (fsub (float_of_Z 1) x).
Proof.
  destruct float_1 as [N1 V1].
  destruct x as [s|[|]| |[|] m e]; cbn [nonpos]; try tauto; intros Hx.
  - change (fsub (float_of_Z 1) (S754_zero s)) with (float_of_Z 1).
    right. split; [exact N1 | rewrite V1; lra].
  - left. reflexivity.
  - change (float_of_Z 1) with (S754_finite false 4503599627370496 (-52)) in *.
    cbn [value] in V1. unfold fsub. cbn [SFsub cond_Zopp].
    pose proof (shl_align_spec 4503599627370496 (-52) (Z.min (-52) e)) as HA.
    pose proof (shl_align_spec m e (Z.min (-52) e)) as HX.
    destruct (shl_align 4503599627370496 (-52) (Z.min (-52) e)) as [ma' ea'].
    destruct (shl_align m e (Z.min (-52) e)) as [mx' ex'].
    destruct HA as (HA & EA & _). destruct HX as (HX & EX & _). cbn [fst].
    assert (EA' : ea' = Z.min (-52) e) by lia. rewrite EA' in HA.
    change (Zpos ma' - - Zpos mx')%Z with (Zpos ma' - Zneg mx')%Z.
    change (Zpos ma' - Zneg mx')%Z with (Zpos (ma' + mx')).
    cbn [binary_normalize].
    destruct (binary_round_correct false (ma' + mx') (Z.min (-52) e)) as (F & Hn & Hr).
    assert (HF : 1 <= F).
    { refine (nearest_ge 1 _ F format_1 _ Hn).
      unfold F2R in *. rewrite Pos2Z.inj_add, plus_IZR, Rmult_plus_distr_r, HA, V1.
      pose proof (bpow_gt_0 (Z.min (-52) e)) as Hb.
      assert (0 < IZR (Zpos mx')) by (apply (IZR_lt 0); lia).
      nra. }
    destruct Hr as [[Z _] | (m' & e' & Hc & HFe & Hr)]; [lra|].
    rewrite Hr. destruct (Z.leb_spec e' (emax - prec)) as [Hle | Hgt]; [| left; reflexivity].
    right. split.
    + cbn [nonneg]. unfold SpecFloat.bounded. apply andb_true_intro.
      split; [exact Hc | apply Z.leb_le; exact Hle].
    + cbn [value]. rewrite <- HFe. exact HF.
Qed.

(** The fraction of a load that is not positive is not positive. *)
Lemma fraction_nonpos p :
  valid_binary prec emax p = true -> fle p (float_of_Z 0) = true ->
  nonpos (fdiv p (float_of_Z 100)).
Proof.
  intros Vp Hp.
  destruct p as [s|[|]| |[|] m e]; try discriminate; try exact I.
  change (float_of_Z 100) with (S754_finite false 7036874417766400 (-46)).
  unfold fdiv. cbn [SFdiv xorb].
  pose proof (SFdiv_core_binary_located m e 7036874417766400 (-46)) as H.
  destruct (SFdiv_core_binary prec emax (Zpos m) e (Zpos 7036874417766400) (-46))
    as [[q e'] l].
  destruct H as (Hq & Hloc & He).
  destruct (binary_round_aux_correct true _ q e' l Hq Hloc He) as (F & _ & Hr).
  apply (rounded_true_nonpos _ F Hr).
Qed.

Lemma load_color_low p :
  valid_binary prec emax p = true -> fle p (float_of_Z 0) = true ->
  get_load_color p = Ok [0; 255; 0]%Z.
Proof.
  intros Vp Hp. pose proof (fraction_nonpos p Vp Hp) as Hx.
  rewrite get_load_color_channels. unfold raw_red, raw_green.
  rewrite (channel_nonpos _ (twice_nonpos _ Hx)).
  rewrite (red_saturated _ (complement_at_least_one _ Hx)).
  reflexivity.
Qed.

Lemma load_color_high p :
  valid_binary prec emax p = true -> fle (float_of_Z 100) p = true ->
  get_load_color p = Ok [255; 0; 0]%Z.
Proof.
  intros Vp Hp. pose proof (fraction_at_least_one p Vp Hp) as Hx.
  rewrite get_load_color_channels. unfold raw_red, raw_green.
  rewrite (red_saturated _ Hx).
  rewrite (channel_nonpos _ (twice_nonpos _ (complement_nonpos _ Hx))).
  reflexivity.
Qed.

(** Between 0 and 100 one of the two channels is saturated: the red one
    from the midpoint on, the green one below it. *)
Lemma load_color_mid p :
  nonneg p -> value p <= 100 ->
  exists r g : Z,
    get_load_color p = Ok [r; g; 0%Z]
    /\ (0 <= r <= 255)%Z /\ (0 <= g <= 255)%Z
    /\ (r = 255%Z \/ g = 255%Z).
Proof.
  intros Np Lp.
  destruct (load_color_monotone p p Np Np (Rle_refl _) Lp)
    as (r & g & r2 & g2 & Hc & Hc2 & Hr & Hr' & Hg & Hg').
  rewrite Hc in Hc2. injection Hc2 as <- <-.
  exists r, g. split; [exact Hc | split; [lia | split; [lia |]]].
  rewrite get_load_color_channels in Hc.
  destruct (fraction_correct p Np Lp) as (Nx & Rx & Lx).
  destruct (Rle_dec (/ 2) (value (fdiv p (float_of_Z 100)))) as [Hhalf | Hhalf].
  - left. destruct (twice_correct _ Nx Lx) as (Nr & Rr).
    assert (H1 : 1 <= value (raw_red p)).
    { apply (nearest_ge 1 _ _ format_1) in Rr; [exact Rr | lra]. }
    fold (raw_red p) in Nr.
    rewrite (channel_high _ Nr H1) in Hc.
    destruct (channel (Float (raw_green p))); [| discriminate]. congruence.
  - right. destruct (complement_correct _ Nx Lx) as (Nc & Rc & Lc).
    assert (Hc2 : / 2 <= value (fsub (float_of_Z 1) (fdiv p (float_of_Z 100)))).
    { apply (nearest_ge (/ 2) _ _ format_half) in Rc; [exact Rc | lra]. }
    destruct (twice_correct _ Nc Lc) as (Ng & Rg).
    assert (H1 : 1 <= value (raw_green p)).
    { apply (nearest_ge 1 _ _ format_1) in Rg; [exact Rg | lra]. }
    fold (raw_green p) in Ng.
    rewrite (channel_high _ Ng H1) in Hc.
    destruct (channel (Float (raw_red p))); [| discriminate]. congruence.
Qed.

(** The three ranges of a float that is a number. *)
Lemma load_ranges p :
  valid_binary prec emax p = true -> p <> S754_nan ->
  fle p (float_of_Z 0) = true
  \/ (nonneg p /\ value p <= 100)
  \/ fle (float_of_Z 100) p = true.
Proof.
  intros Vp Hn. destruct float_100 as [N100 V100].
  destruct p as [s|[|]| |[|] m e]; try congruence.
  - right. left. split; [exact I | cbn [value]; lra].
  - left. reflexivity.
  - right. right. reflexivity.
  - left. reflexivity.
  - assert (Np : nonneg (S754_finite false m e)) by exact Vp.
    destruct (Rle_dec (value (S754_finite false m e)) 100) as [Hle | Hgt].
    + right. left. split; assumption.
    + right. right. apply (fle_spec _ _ N100 Np). rewrite V100. lra.
Qed.

(** X6: loads at or below zero, minus infinity included, are pure green: the
    clamp of the channels makes the mapper constant there, as it is from
    100 on. *)
Theorem load_color_nonpositive :
  forall p : float,
    valid_binary prec emax p = true ->
    fle p (float_of_Z 0) = true ->
    get_load_color p = Ok [0; 255; 0]%Z.
Proof. exact load_color_low. Qed.

Lemma load_color_nonpositive_witness :
  get_load_color (S754_finite true 7036874417766400 (-46)) = Ok [0; 255; 0]%Z.
Proof.
  apply (load_color_nonpositive (S754_finite true 7036874417766400 (-46))); reflexivity.
Defined.

(** X7: the mapper raises on NaN and on no other float: on every float that
    is a number, the infinities included, it returns three channels in
    [0, 255], the blue one 0. *)
Theorem load_color_defined :
  forall p : float,
    valid_binary prec emax p = true ->
    (p <> S754_nan
     <-> exists r g : Z,
           get_load_color p = Ok [r; g; 0%Z]
           /\ (0 <= r <= 255)%Z /\ (0 <= g <= 255)%Z).
Proof.
  intros p Vp. split.
  - intros Hn.
    destruct (load_ranges p Vp Hn) as [Hlow | [[Np Lp] | Hhigh]].
    + exists 0%Z, 255%Z. split; [apply load_color_low; assumption | lia].
    + destruct (load_color_mid p Np Lp) as (r & g & Hc & Hr & Hg & _).
      exists r, g. auto.
    + exists 255%Z, 0%Z. split; [apply load_color_high; assumption | lia].
  - intros (r & g & Hc & _) ->. vm_compute in Hc. discriminate.
Qed.

Lemma load_color_defined_witness :
  S754_infinity true <> S754_nan
  <-> exists r g : Z,
        get_load_color (S754_infinity true) = Ok [r; g; 0%Z]
        /\ (0 <= r <= 255)%Z /\ (0 <= g <= 255)%Z.
Proof. apply (load_color_defined (S754_infinity true)). reflexivity. Defined.



(** A reading between 0 and 100 is truncated to a percentage. *)
Lemma reading_percentage f :
  nonneg f -> value f <= 100 -> exists v, int_of_float f = Ok v /\ percentage v.
Proof.
  intros Nf Lf. destruct (int_of_float_floor f Nf) as (z & Hz & Hlo & Hhi).
  pose proof (value_nonneg f Nf) as H0.
  exists z. split; [exact Hz|]. split.
  - assert (H : (-1 < z)%Z) by (apply lt_IZR; lra). lia.
  - apply le_IZR. lra.
Qed.

(** ** The average of the sampler *)

(** X9: each recording returns the float nearest to the exact mean of the
    cache as it is after the sample has been stored, a number between 0
    and 100; the cache stays a cache of percentages. *)
Theorem record_sample_mean :
  forall (s : machine) (v : Z),
    sampler_ok s ->
    percentage v ->
    exists load,
      record_sample v s = (Ok load, recorded s v)
      /\ nearest (IZR (sum (cpu_load_cache (recorded s v)))
                  / IZR (Z.of_nat (length (cpu_load_cache (recorded s v)))))
                 (value load)
      /\ nonneg load /\ value load <= 100
      /\ sampler_ok (recorded s v).
Proof.
  intros s v [Hi Hall] Hv.
  assert (Hall' : Forall percentage (<[current_sampling s := v]> (cpu_load_cache s)))
    by (apply Forall_insert; assumption).
  pose proof (sum_percentages _ Hall') as Hsum. rewrite length_insert in Hsum.
  destruct float_100 as [N100 V100].
  set (n := length (cpu_load_cache s)) in *.
  assert (Hn : 0 < IZR (Z.of_nat n)) by (apply (IZR_lt 0); lia).
  assert (Hle : IZR (sum (<[current_sampling s := v]> (cpu_load_cache s))) / IZR (Z.of_nat n)
                <= 100).
  { assert (Hs : IZR (sum (<[current_sampling s := v]> (cpu_load_cache s)))
                 <= 100 * IZR (Z.of_nat n))
      by (rewrite <- mult_IZR; apply IZR_le; lia).
    apply (Rmult_le_reg_r (IZR (Z.of_nat n))); [exact Hn|].
    unfold Rdiv. rewrite Rmult_assoc, Rinv_l by lra. lra. }
  destruct (int_truediv_correct (sum (<[current_sampling s := v]> (cpu_load_cache s)))
              (Z.of_nat n) (float_of_Z 100))
    as (load & Hload & Nload & Hnear); [lia | lia | exact N100 | rewrite V100; exact Hle |].
  exists load. split; [apply record_sample_ok; assumption |].
  cbn [recorded cpu_load_cache]. rewrite length_insert. fold n.
  split; [exact Hnear | split; [exact Nload | split]].
  - apply (nearest_le 100 _ _ nonneg_format_100 Hle Hnear).
  - apply recorded_ok; [split; assumption | exact Hv].
Qed.

Lemma record_sample_mean_witness :
  exists load,
    record_sample 40 initial = (Ok load, recorded initial 40)
    /\ nearest (IZR (sum (cpu_load_cache (recorded initial 40)))
                / IZR (Z.of_nat (length (cpu_load_cache (recorded initial 40)))))
               (value load)
    /\ nonneg load /\ value load <= 100
    /\ sampler_ok (recorded initial 40).
Proof.
  apply (record_sample_mean initial 40).
  - split; [cbn; lia |].
    cbn. repeat (constructor; [unfold percentage; lia |]). constructor.
  - unfold percentage. lia.
Defined.

End MapperRange.

(** ** What a computation leaves alone *)

Section Leaves.

Context {X : Type} (f : machine -> X).

Lemma leaves_ret {A} (a : A) : leaves f (ret a).
Proof. intros s. reflexivity. Qed.

Lemma leaves_raise {A} e : leaves f (@raise A e).
Proof. intros s. reflexivity. Qed.

Lemma leaves_lift {A} (r : result A) : leaves f (lift r).
Proof. intros s. reflexivity. Qed.

Lemma leaves_gets {A} (g : machine -> A) : leaves f (gets g).
Proof. intros s. reflexivity. Qed.

Lemma leaves_bind {A B} (c : M A) (k : A -> M B) :
  leaves f c -> (forall a, leaves f (k a)) -> leaves f (bind c k).
Proof.
  intros Hc Hk s. unfold bind. specialize (Hc s).
  destruct (c s) as [[a | e] s']; cbn in Hc |- *; [| exact Hc].
  rewrite (Hk a s'). exact Hc.
Qed.

Lemma leaves_modify g : (forall s, f (g s) = f s) -> leaves f (modify g).
Proof. intros H s. apply H. Qed.

Lemma leaves_for_range n body : leaves f body -> leaves f (for_range n body).
Proof.
  intros Hb. induction n; cbn [for_range]; [apply leaves_ret|].
  apply leaves_bind; [exact Hb | intros _; assumption].
Qed.

Lemma leaves_getitem d key : leaves f (getitem d key).
Proof. unfold getitem. destruct (d !! key); [apply leaves_ret | apply leaves_raise]. Qed.

Hypothesis Hf : untraced f.

Lemma leaves_emit ev : leaves f (emit ev).
Proof. intros s. rewrite emit_advance. apply Hf. Qed.

Lemma leaves_sleep secs : leaves f (sleep secs).
Proof.
  unfold sleep. destruct (sleep_ok secs); [apply leaves_emit|].
  destruct secs; cbv zeta; try destruct (_ || _); apply leaves_raise.
Qed.

Lemma leaves_set_keyboard_color E rgb ie : leaves f (set_keyboard_color E rgb ie).
Proof.
  unfold set_keyboard_color, print, exit.
  apply leaves_bind.
  - intros s. rewrite g810_led_advance. apply Hf.
  - intros [| |]; [apply leaves_ret | |].
    + apply leaves_bind; [apply leaves_emit | intros _; apply leaves_raise].
    + destruct (ie =? 0); [| apply leaves_ret].
      apply leaves_bind; [apply leaves_emit | intros _; apply leaves_raise].
Qed.

Lemma leaves_notification_blink E c1 c2 count interval :
  leaves f (notification_blink E c1 c2 count interval).
Proof.
  unfold notification_blink. apply leaves_for_range.
  repeat (apply leaves_bind; [| intros _]);
    first [apply leaves_set_keyboard_color | apply leaves_sleep].
Qed.

Lemma leaves_blink_first_match E name settings :
  leaves f (blink_first_match E name settings).
Proof.
  induction settings as [|d settings IH]; cbn [blink_first_match]; [apply leaves_ret|].
  apply leaves_bind; [apply leaves_getitem | intros n].
  destruct (name_eq name n); [| exact IH].
  apply leaves_bind; [apply leaves_getitem | intros c].
  apply leaves_bind; [apply leaves_gets | intros mc].
  apply leaves_bind; [destruct mc; [apply leaves_ret | apply leaves_raise] | intros color2].
  apply leaves_bind; [apply leaves_getitem | intros k].
  apply leaves_bind; [apply leaves_getitem | intros i].
  apply leaves_bind; [destruct k; first [apply leaves_ret | apply leaves_raise] | intros count].
  apply leaves_bind; [destruct c; first [apply leaves_ret | apply leaves_raise] | intros color1].
  apply leaves_bind; [destruct i; first [apply leaves_ret | apply leaves_raise] | intros interval].
  apply leaves_notification_blink.
Qed.

End Leaves.

Lemma untraced_sampler_view : untraced sampler_view.
Proof. intros s evs k. reflexivity. Qed.

Lemma untraced_NOTIFY : untraced NOTIFY.
Proof. intros s evs k. reflexivity. Qed.

Lemma leaves_blinking E A : leaves sampler_view (blinking E A).
Proof.
  unfold blinking, print.
  apply leaves_bind; [apply leaves_gets | intros name].
  apply leaves_bind.
  { destruct (verbose A =? 0);
      [apply leaves_ret | apply leaves_emit, untraced_sampler_view]. }
  intros _. apply leaves_bind; [apply leaves_gets | intros settings].
  apply leaves_bind; [apply leaves_blink_first_match, untraced_sampler_view | intros _].
  intros s. reflexivity.
Qed.

Lemma leaves_record_sample v : leaves NOTIFY (record_sample v).
Proof.
  intros s. unfold record_sample, bind, gets, set_cpu_load_cache, set_current_sampling,
    modify, raise, lift, ret. cbn -[Nat.ltb Nat.leb].
  destruct (current_sampling s <? length (cpu_load_cache s))%nat; [| reflexivity].
  cbn -[Nat.ltb Nat.leb].
  destruct (length (<[current_sampling s:=v]> (cpu_load_cache s)) <=? current_sampling s + 1)%nat;
    reflexivity.
Qed.

Lemma leaves_monitoring E A : leaves NOTIFY (monitoring E A).
Proof.
  unfold monitoring, print.
  apply leaves_bind; [intros s; reflexivity | intros reading].
  apply leaves_bind; [apply leaves_lift | intros sample].
  apply leaves_bind; [apply leaves_record_sample | intros cpu_load].
  apply leaves_bind; [apply leaves_lift | intros color].
  apply leaves_bind; [intros s; reflexivity | intros _].
  apply leaves_bind; [apply leaves_set_keyboard_color, untraced_NOTIFY | intros _].
  apply leaves_bind; [| intros _; apply leaves_sleep, untraced_NOTIFY].
  destruct (verbose A =? 0); [apply leaves_ret|].
  repeat (apply leaves_bind; [| intros _]); apply leaves_emit, untraced_NOTIFY.
Qed.

Lemma tick_idle E A s : NOTIFY s = EmptyString -> tick E A s = monitoring E A s.
Proof. intros H. unfold tick, bind, gets. rewrite H. reflexivity. Qed.

Lemma tick_pending E A s : NOTIFY s <> EmptyString -> tick E A s = blinking E A s.
Proof.
  intros H. unfold tick, bind, gets. apply String.eqb_neq in H. rewrite H. reflexivity.
Qed.

(** X14: while a notification is handled the sampler stands still: however the
    iteration ends, it has read no CPU load and the cache, the cursor, the
    stored load color and the settings are what they were. *)
Theorem blink_leaves_sampler :
  forall (E : env) (A : args) (s : machine),
    NOTIFY s <> EmptyString ->
    cpu_load_cache (snd (tick E A s)) = cpu_load_cache s
    /\ current_sampling (snd (tick E A s)) = current_sampling s
    /\ meter_color (snd (tick E A s)) = meter_color s
    /\ notification_settings_list (snd (tick E A s)) = notification_settings_list s
    /\ ncpu (snd (tick E A s)) = ncpu s.
Proof.
  intros E A s H. rewrite (tick_pending E A s H).
  pose proof (leaves_blinking E A s) as L. unfold sampler_view in L.
  injection L as -> -> -> -> ->. repeat split.
Qed.

Lemma blink_leaves_sampler_witness :
  cpu_load_cache (snd (tick Sample.disconnected Sample.quiet (Sample.pending "Spotify")))
  = repeat 40 SAMPLES
  /\ current_sampling (snd (tick Sample.disconnected Sample.quiet (Sample.pending "Spotify")))
     = 1%nat
  /\ meter_color (snd (tick Sample.disconnected Sample.quiet (Sample.pending "Spotify")))
     = Some [204; 255; 0]
  /\ notification_settings_list
       (snd (tick Sample.disconnected Sample.quiet (Sample.pending "Spotify")))
     = [Sample.telegram; Sample.spotify]
  /\ ncpu (snd (tick Sample.disconnected Sample.quiet (Sample.pending "Spotify"))) = 0%nat.
Proof.
  apply (blink_leaves_sampler Sample.disconnected Sample.quiet (Sample.pending "Spotify")).
  discriminate.
Defined.

(** ** Settings that the blink does not check *)

Lemma tick_matched E A s name pre d post C count interval mc :
  NOTIFY s = name ->
  name <> EmptyString ->
  notification_settings_list s = pre ++ d :: post ->
  Forall (other_name name) pre ->
  setting_for name C count interval d ->
  meter_color s = Some mc ->
  tick E A s
  = (notification_blink E C mc count interval;; set_NOTIFY "")%py
      (advance s (active_line A name) 0).
Proof.
  intros HN Hne Hset Hpre Hd Hmc.
  rewrite tick_blinking by congruence. rewrite HN, Hset.
  unfold bind at 1. rewrite blink_first_match_skip by exact Hpre.
  rewrite (blink_first_match_hit E name C count interval d post mc
             (advance s (active_line A name) 0) Hd Hmc).
  reflexivity.
Qed.

(** X16: a setting with a count of zero or less makes no blink: the iteration
    issues no display command and does not sleep, so that neither the
    keyboard nor the interval of the setting matters; the notification is
    consumed all the same. *)
Theorem blink_without_repetitions :
  forall (E : env) (A : args) (s : machine) (name : string)
         (pre post : list (gmap string value)) (d : gmap string value)
         (C mc : list Z) (count : Z) (interval : float),
    NOTIFY s = name ->
    name <> EmptyString ->
    notification_settings_list s = pre ++ d :: post ->
    Forall (other_name name) pre ->
    setting_for name C count interval d ->
    meter_color s = Some mc ->
    count <= 0 ->
    tick E A s = (Ok tt, cleared (advance s (active_line A name) 0)).
Proof.
  intros E A s name pre post d C mc count interval HN Hne Hset Hpre Hd Hmc Hc.
  rewrite (tick_matched E A s name pre d post C count interval mc) by assumption.
  unfold notification_blink. replace (Z.to_nat count) with 0%nat by lia.
  reflexivity.
Qed.

Lemma blink_without_repetitions_witness :
  tick Sample.disconnected Sample.quiet (Unchecked.pending "Muted")
  = (Ok tt, cleared (advance (Unchecked.pending "Muted")
                       (active_line Sample.quiet "Muted") 0)).
Proof.
  apply (blink_without_repetitions Sample.disconnected Sample.quiet (Unchecked.pending "Muted")
           "Muted" [] [Unchecked.hasty] Unchecked.muted [255; 0; 0] [204; 255; 0] 0
           Unchecked.minus_one).
  - reflexivity.
  - discriminate.
  - reflexivity.
  - constructor.
  - repeat split; vm_compute; reflexivity.
  - reflexivity.
  - lia.
Defined.

Lemma sleep_refused secs s :
  sleep_ok secs = false ->
  exists e, sleep secs s = (Raise e, s) /\ e <> SystemExit.
Proof.
  intros H. unfold sleep. rewrite H.
  destruct secs; cbv zeta; try destruct (_ || _);
    eexists; (split; [reflexivity | discriminate]).
Qed.

(** X17: the interval of a setting is not checked before it is slept: with an
    interval that [time.sleep] refuses (a negative one, NaN, one beyond
    the range of the clock) and a count of one or more, the blink shows the
    pattern color once and the program stops there with the exception of
    the sleep, the notification still pending. *)
Theorem blink_with_refused_interval :
  forall (E : env) (A : args) (s : machine) (name : string)
         (pre post : list (gmap string value)) (d : gmap string value)
         (C mc : list Z) (count : Z) (interval : float),
    NOTIFY s = name ->
    name <> EmptyString ->
    notification_settings_list s = pre ++ d :: post ->
    Forall (other_name name) pre ->
    setting_for name C count interval d ->
    meter_color s = Some mc ->
    0 < count ->
    sleep_ok interval = false ->
    device E (ndev s) = DevOk ->
    exists e,
      e <> SystemExit
      /\ tick E A s
         = (Raise e, advance s (active_line A name ++ [EvG810 (color_string C)]) 1)
      /\ NOTIFY (snd (tick E A s)) = name.
Proof.
  intros E A s name pre post d C mc count interval HN Hne Hset Hpre Hd Hmc Hc Hs Hdev.
  destruct (sleep_refused interval
              (advance s (active_line A name ++ [EvG810 (color_string C)]) 1) Hs)
    as (e & He & Hne').
  assert (Ht : tick E A s
               = (Raise e, advance s (active_line A name ++ [EvG810 (color_string C)]) 1)).
  { rewrite (tick_matched E A s name pre d post C count interval mc) by assumption.
    apply bind_raise. unfold notification_blink.
    destruct (Z.to_nat count) as [|n] eqn:En; [lia|]. cbn [for_range].
    apply bind_raise.
    erewrite bind_ok;
      [| apply set_keyboard_color_ok; cbn [advance ndev]; rewrite Nat.add_0_r; exact Hdev].
    rewrite advance_advance. apply bind_raise. exact He. }
  exists e. split; [exact Hne' | split; [exact Ht |]].
  rewrite Ht. exact HN.
Qed.

Lemma blink_with_refused_interval_witness :
  exists e,
    e <> SystemExit
    /\ tick Sample.connected Sample.quiet (Unchecked.pending "Hasty")
       = (Raise e, advance (Unchecked.pending "Hasty")
                     (active_line Sample.quiet "Hasty" ++ [EvG810 (color_string [255; 0; 0])]) 1)
    /\ NOTIFY (snd (tick Sample.connected Sample.quiet (Unchecked.pending "Hasty"))) = "Hasty"%string.
Proof.
  apply (blink_with_refused_interval Sample.connected Sample.quiet (Unchecked.pending "Hasty")
           "Hasty" [Unchecked.muted] [] Unchecked.hasty [255; 0; 0] [204; 255; 0] 1
           Unchecked.minus_one).
  - reflexivity.
  - discriminate.
  - reflexivity.
  - repeat constructor. exists (VStr "Muted"). split; vm_compute; reflexivity.
  - repeat split; vm_compute; reflexivity.
  - reflexivity.
  - lia.
  - vm_compute. reflexivity.
  - reflexivity.
Defined.

(** ** The messages of the bus *)

Lemma deliver_step ms : forall s,
  exists name,
    fold_left (fun s message =>
                 match notification_event message s with
                 | (Ok _, s') => s'
                 | (Raise _, _) => s
                 end) ms s
    = noted s name.
Proof.
  induction ms as [|m ms IH]; intros s; cbn [fold_left].
  - exists (NOTIFY s). destruct s. reflexivity.
  - destruct m as [|a r].
    + exact (IH s).
    + destruct (IH (noted s a)) as (name & H). exists name. exact H.
Qed.

(** X19: whatever the number of messages handled between two iterations, the
    pending cell holds the first argument of the last message that has
    one; a message without arguments changes nothing (its [IndexError]
    stays in the scanner thread), and nothing but the cell is written. *)
Theorem deliver_last_name :
  forall (ms : list dbus_message) (b : string) (rb : list string) (s : machine),
    deliver (ms ++ [b :: rb]) s = (Ok tt, noted s b)
    /\ deliver (ms ++ [[]]) s = deliver ms s
    /\ cleared (snd (deliver ms s)) = cleared s.
Proof.
  intros ms b rb s. unfold deliver. rewrite !fold_left_app. cbn [fold_left snd].
  destruct (deliver_step ms s) as (name & ->).
  repeat split.
Qed.

(** X20: an empty application name is the program's sign for no notification:
    a message that carries one empties the cell, also when another
    notification is pending, and the next iteration is a monitoring
    one. *)
Theorem empty_name_cancels :
  forall (E : env) (A : args) (ms : list dbus_message) (rb : list string) (s : machine),
    (deliver (ms ++ [EmptyString :: rb]);; tick E A)%py s = monitoring E A (cleared s).
Proof.
  intros E A ms rb s. unfold bind at 1, deliver. rewrite fold_left_app. cbn [fold_left].
  destruct (deliver_step ms s) as (name & ->).
  apply (tick_idle E A (cleared s)). reflexivity.
Qed.

(** ** The objects the parser returns *)

Section ParserShape.

Variable ios : string -> result Z.
Variable fos : string -> result float.

Lemma well_typed_insert obj key v :
  well_typed obj -> typed key v -> well_typed (<[key := v]> obj).
Proof.
  intros Hobj Hv k w. destruct (decide (key = k)) as [<- | Hne].
  - rewrite lookup_insert_eq. intros [= <-]. exact Hv.
  - rewrite lookup_insert_ne by exact Hne. apply Hobj.
Qed.

(** What an element with one of the four tags does: it sets the field of
    its tag to a value of the type of that field, whatever the object
    holds. *)
Lemma assign_element_insert obj el obj' :
  known el = true ->
  assign_element ios fos obj el = Ok obj' ->
  exists v, typed (tag el) v
            /\ forall obj0, assign_element ios fos obj0 el = Ok (<[tag el := v]> obj0).
Proof.
  unfold assign_element, typed. intros Hk H.
  destruct (String.eqb_spec (tag el) "name") as [-> | N1].
  { eexists. split; [| intros; reflexivity].
    left. split; [reflexivity|]. destruct (text el); eauto. }
  destruct (String.eqb_spec (tag el) "color") as [-> | N2].
  { destruct (text el); [| discriminate].
    destruct (map_result _ _) as [l|]; [| discriminate].
    exists (VTuple l). split; [| intros; reflexivity]. right. left. eauto. }
  destruct (String.eqb_spec (tag el) "count") as [-> | N3].
  { destruct (text el); [| discriminate].
    destruct (ios _) as [z|]; [| discriminate].
    exists (VInt z). split; [| intros; reflexivity]. right. right. left. eauto. }
  destruct (String.eqb_spec (tag el) "interval") as [-> | N4].
  { destruct (text el); [| discriminate].
    destruct (fos _) as [f|]; [| discriminate].
    exists (VFloat f). split; [| intros; reflexivity]. right. right. right. eauto. }
  unfold known in Hk. cbn [existsb NOTIFICATION_SETTINGS_MANDATORY_ATTRIBUTES] in Hk.
  rewrite !orb_true_iff in Hk.
  destruct Hk as [Hk | [Hk | [Hk | [Hk | Hk]]]]; try discriminate;
    apply String.eqb_eq in Hk; congruence.
Qed.

(** An element with another tag does nothing. *)
Lemma assign_element_unknown obj el :
  known el = false -> assign_element ios fos obj el = Ok obj.
Proof.
  unfold known, assign_element.
  cbn [existsb NOTIFICATION_SETTINGS_MANDATORY_ATTRIBUTES].
  rewrite !orb_false_iff. intros (-> & -> & -> & -> & _). reflexivity.
Qed.

Lemma assign_element_cases obj el obj' :
  assign_element ios fos obj el = Ok obj' ->
  (known el = false /\ obj' = obj)
  \/ (known el = true
      /\ exists v, typed (tag el) v /\ obj' = <[tag el := v]> obj).
Proof.
  intros H. destruct (known el) eqn:Hk.
  - right. split; [reflexivity|].
    destruct (assign_element_insert obj el obj' Hk H) as (v & Hv & Hall).
    exists v. split; [exact Hv|]. rewrite Hall in H. congruence.
  - left. rewrite (assign_element_unknown obj el Hk) in H. split; congruence.
Qed.

Lemma assign_elements_typed els : forall obj obj',
  well_typed obj -> assign_elements ios fos obj els = Ok obj' -> well_typed obj'.
Proof.
  induction els as [|el els IH]; intros obj obj' Hobj H; cbn [assign_elements] in H.
  - injection H as <-. exact Hobj.
  - destruct (assign_element ios fos obj el) as [obj1|] eqn:H1; [| discriminate].
    apply (IH obj1 obj'); [| exact H].
    destruct (assign_element_cases obj el obj1 H1) as [[_ ->] | [_ (v & Hv & ->)]];
      [exact Hobj | apply well_typed_insert; assumption].
Qed.

Lemma assign_elements_app a : forall obj b,
  assign_elements ios fos obj (a ++ b)
  = match assign_elements ios fos obj a with
    | Ok obj1 => assign_elements ios fos obj1 b
    | Raise e => Raise e
    end.
Proof.
  induction a as [|el a IH]; intros obj b; cbn [assign_elements app]; [reflexivity|].
  destruct (assign_element ios fos obj el); [apply IH | reflexivity].
Qed.

Lemma assign_elements_other els key : forall obj obj',
  Forall (fun e => tag e <> key) els ->
  assign_elements ios fos obj els = Ok obj' ->
  obj' !! key = obj !! key.
Proof.
  induction els as [|el els IH]; intros obj obj' Hall H; cbn [assign_elements] in H.
  - congruence.
  - destruct (assign_element ios fos obj el) as [obj1|] eqn:H1; [| discriminate].
    apply Forall_cons in Hall as [Hne Hall].
    rewrite (IH obj1 obj' Hall H).
    destruct (assign_element_cases obj el obj1 H1) as [[_ ->] | [_ (v & _ & ->)]];
      [reflexivity | apply lookup_insert_ne; exact Hne].
Qed.

Lemma check_mandatory_ok obj attributes :
  check_mandatory obj attributes = Ok tt ->
  forall a, In a attributes -> is_Some (obj !! a).
Proof.
  induction attributes as [|b rest IH]; intros H a Ha; [contradiction|].
  cbn [check_mandatory] in H.
  destruct (obj !! b) as [v|] eqn:Hb; [| discriminate].
  destruct Ha as [<- | Ha]; [rewrite Hb; eauto | apply IH; assumption].
Qed.

Lemma well_typed_empty : well_typed ∅.
Proof. intros key v H. rewrite lookup_empty in H. discriminate. Qed.

Lemma parse_nodes_shape nodes : forall acc l,
  parse_nodes ios fos nodes acc = Ok l ->
  exists l', l = acc ++ l'
             /\ Forall2 (fun node obj => assign_elements ios fos ∅ (children node) = Ok obj)
                        nodes l'
             /\ Forall complete l'.
Proof.
  induction nodes as [|node nodes IH]; intros acc l H; cbn [parse_nodes] in H.
  - exists []. rewrite app_nil_r. split; [congruence | split; constructor].
  - destruct (assign_elements ios fos ∅ (children node)) as [obj|] eqn:Hobj; [| discriminate].
    destruct (check_mandatory obj NOTIFICATION_SETTINGS_MANDATORY_ATTRIBUTES) as [[]|] eqn:Hc;
      [| discriminate].
    destruct (IH _ _ H) as (l' & -> & H2 & Hall).
    exists (obj :: l'). rewrite <- app_assoc. split; [reflexivity | split].
    + constructor; assumption.
    + constructor; [| exact Hall]. split.
      * apply (assign_elements_typed _ ∅ obj well_typed_empty Hobj).
      * apply check_mandatory_ok. exact Hc.
Qed.

Lemma complete_fields d :
  complete d ->
  exists n c k i,
    d !! "name"%string = Some n /\ (n = VNone \/ exists s, n = VStr s)
    /\ d !! "color"%string = Some (VTuple c)
    /\ d !! "count"%string = Some (VInt k)
    /\ d !! "interval"%string = Some (VFloat i).
Proof.
  intros [Ht Hall].
  destruct (Hall "name"%string) as [n Hn]; [cbn; tauto|].
  destruct (Hall "color"%string) as [c Hc]; [cbn; tauto|].
  destruct (Hall "count"%string) as [k Hk]; [cbn; tauto|].
  destruct (Hall "interval"%string) as [i Hi]; [cbn; tauto|].
  pose proof (Ht _ _ Hn) as Tn. pose proof (Ht _ _ Hc) as Tc.
  pose proof (Ht _ _ Hk) as Tk. pose proof (Ht _ _ Hi) as Ti.
  unfold typed in *.
  destruct Tn as [[_ Tn] | [[? _] | [[? _] | [? _]]]]; try discriminate.
  destruct Tc as [[? _] | [[_ (c' & ->)] | [[? _] | [? _]]]]; try discriminate.
  destruct Tk as [[? _] | [[? _] | [[_ (k' & ->)] | [? _]]]]; try discriminate.
  destruct Ti as [[? _] | [[? _] | [[? _] | [_ (i' & ->)]]]]; try discriminate.
  exists n, c', k', i'. auto.
Qed.

(** A complete object is the setting of its name, and of no other. *)
Lemma complete_named name d :
  complete d -> other_name name d \/ exists c k i, setting_for name c k i d.
Proof.
  intros Hd. destruct (complete_fields d Hd) as (n & c & k & i & Hn & Tn & Hc & Hk & Hi).
  destruct Tn as [-> | (s & ->)].
  - left. exists VNone. split; [exact Hn | reflexivity].
  - destruct (String.eqb_spec name s) as [<- | Hne].
    + right. exists c, k, i. repeat split; assumption.
    + left. exists (VStr s). split; [exact Hn|]. cbn. apply String.eqb_neq. exact Hne.
Qed.

Lemma first_named name settings :
  Forall complete settings ->
  Forall (other_name name) settings
  \/ exists pre d post c k i,
       settings = pre ++ d :: post
       /\ Forall (other_name name) pre
       /\ setting_for name c k i d.
Proof.
  induction 1 as [|d settings Hd _ IH]; [left; constructor|].
  destruct (complete_named name d Hd) as [Ho | (c & k & i & Hs)].
  - destruct IH as [IH | (pre & d' & post & c & k & i & -> & Hpre & Hs)].
    + left. constructor; assumption.
    + right. exists (d :: pre), d', post, c, k, i.
      split; [reflexivity | split; [constructor; assumption | exact Hs]].
  - right. exists [], d, settings, c, k, i.
    split; [reflexivity | split; [constructor | exact Hs]].
Qed.

(** X21: the parser returns one object for each [notification] node, in the
    order of the document, built from the children of the node alone, and
    each object has the four fields with the types of their conversions:
    the name a string (or [None], for an element without text), the color
    a tuple of integers, the count an integer and the interval a float. *)
Theorem parsed_settings_complete :
  forall (root : element) (l : list (gmap string value)),
    parse_notification_settings_from_xml ios fos (Ok root) = Ok l ->
    Forall2 (fun node obj => assign_elements ios fos ∅ (children node) = Ok obj)
            (notification_nodes root) l
    /\ length l = length (notification_nodes root)
    /\ Forall complete l
    /\ Forall (fun d => exists n c k i,
                   d !! "name"%string = Some n /\ (n = VNone \/ exists s, n = VStr s)
                   /\ d !! "color"%string = Some (VTuple c)
                   /\ d !! "count"%string = Some (VInt k)
                   /\ d !! "interval"%string = Some (VFloat i)) l.
Proof.
  intros root l H. unfold parse_notification_settings_from_xml in H.
  fold (notification_nodes root) in H.
  destruct (parse_nodes_shape _ _ _ H) as (l' & -> & H2 & Hall). cbn [app].
  split; [exact H2 | split; [| split; [exact Hall |]]].
  - symmetry. apply (Forall2_length _ _ _ H2).
  - eapply Forall_impl; [exact Hall | exact complete_fields].
Qed.

(** X22: on the settings the parser returned, the lookup of a pending name
    raises no [KeyError] and no [TypeError]: either no setting has the
    name, and nothing happens, or the first setting with the name is
    blinked with the stored load color as the second color. *)
Theorem parsed_settings_lookup :
  forall (E : env) (doc : result element) (settings : list (gmap string value))
         (name : string),
    parse_notification_settings_from_xml ios fos doc = Ok settings ->
    (Forall (other_name name) settings
     /\ forall s, blink_first_match E name settings s = (Ok tt, s))
    \/ (exists pre d post c k i,
           settings = pre ++ d :: post
           /\ Forall (other_name name) pre
           /\ setting_for name c k i d
           /\ forall s mc,
                meter_color s = Some mc ->
                blink_first_match E name settings s = notification_blink E c mc k i s).
Proof.
  intros E doc settings name H.
  assert (Hall : Forall complete settings).
  { destruct doc as [root|]; [| discriminate].
    unfold parse_notification_settings_from_xml in H.
    destruct (parse_nodes_shape _ _ _ H) as (l' & -> & _ & Hall). exact Hall. }
  destruct (first_named name settings Hall)
    as [Hnone | (pre & d & post & c & k & i & -> & Hpre & Hs)].
  - left. split; [exact Hnone |]. intros s. apply blink_first_match_none. exact Hnone.
  - right. exists pre, d, post, c, k, i.
    split; [reflexivity | split; [exact Hpre | split; [exact Hs |]]].
    intros s mc Hmc. rewrite blink_first_match_skip by exact Hpre.
    apply (blink_first_match_hit E name c k i d post mc s Hs Hmc).
Qed.

(** X23: when a tag is repeated in a record, the last element with the tag
    gives the field: the object holds under the tag what that element
    alone would store. *)
Theorem last_element_wins :
  forall (obj obj' : gmap string value) (before after : list element) (el : element),
    assign_elements ios fos obj (before ++ el :: after) = Ok obj' ->
    known el = true ->
    Forall (fun e => tag e <> tag el) after ->
    exists v,
      assign_element ios fos ∅ el = Ok (<[tag el := v]> ∅)
      /\ obj' !! tag el = Some v.
Proof.
  intros obj obj' before after el H Hk Hafter.
  rewrite assign_elements_app in H.
  destruct (assign_elements ios fos obj before) as [obj1|]; [| discriminate].
  cbn [assign_elements] in H.
  destruct (assign_element ios fos obj1 el) as [obj2|] eqn:H2; [| discriminate].
  destruct (assign_element_insert obj1 el obj2 Hk H2) as (v & _ & Hall).
  exists v. split; [apply Hall|].
  rewrite (assign_elements_other after (tag el) obj2 obj' Hafter H).
  rewrite Hall in H2. injection H2 as <-. apply lookup_insert_eq.
Qed.

Lemma assign_elements_known els : forall obj,
  assign_elements ios fos obj (filter (fun el => known el = true) els)
  = assign_elements ios fos obj els.
Proof.
  induction els as [|el els IH]; intros obj; [reflexivity|].
  destruct (known el) eqn:Hk.
  - rewrite filter_cons_True by exact Hk. cbn [assign_elements].
    destruct (assign_element ios fos obj el); [apply IH | reflexivity].
  - rewrite filter_cons_False by congruence. cbn [assign_elements].
    rewrite (assign_element_unknown obj el Hk). apply IH.
Qed.

Lemma notification_nodes_pruned root :
  notification_nodes (pruned root)
  = map (fun node =>
           Element "notification" (text node)
             (filter (fun el => known el = true) (children node)))
        (notification_nodes root).
Proof.
  unfold pruned. generalize (notification_nodes root) as nodes. intros nodes.
  unfold notification_nodes at 1. cbn [children].
  induction nodes as [|node nodes IH]; [reflexivity|].
  cbn [map]. rewrite filter_cons_True by reflexivity. f_equal. exact IH.
Qed.

(** X24: the parser reads the [notification] children of the root and, in
    each of them, the children with one of the four tags; everything else
    in the document is ignored, the tag of the root included. *)
Theorem unknown_elements_ignored :
  forall root : element,
    parse_notification_settings_from_xml ios fos (Ok (pruned root))
    = parse_notification_settings_from_xml ios fos (Ok root).
Proof.
  intros root. unfold parse_notification_settings_from_xml.
  fold (notification_nodes (pruned root)). fold (notification_nodes root).
  rewrite notification_nodes_pruned.
  generalize (@nil (gmap string value)) as acc.
  induction (notification_nodes root) as [|node nodes IH]; intros acc; [reflexivity|].
  cbn [map parse_nodes children]. rewrite assign_elements_known.
  destruct (assign_elements ios fos ∅ (children node)) as [obj|]; [| reflexivity].
  destruct (check_mandatory obj NOTIFICATION_SETTINGS_MANDATORY_ATTRIBUTES); [| reflexivity].
  apply IH.
Qed.

End ParserShape.

Lemma parsed_settings_complete_witness :
  Forall2 (fun node obj =>
             assign_elements Sample.int_of_string Sample.float_of_string ∅ (children node)
             = Ok obj)
          (notification_nodes Sample.document) [Sample.telegram; Sample.spotify]
  /\ length [Sample.telegram; Sample.spotify] = length (notification_nodes Sample.document)
  /\ Forall complete [Sample.telegram; Sample.spotify]
  /\ Forall (fun d => exists n c k i,
                 d !! "name"%string = Some n /\ (n = VNone \/ exists s, n = VStr s)
                 /\ d !! "color"%string = Some (VTuple c)
                 /\ d !! "count"%string = Some (VInt k)
                 /\ d !! "interval"%string = Some (VFloat i))
            [Sample.telegram; Sample.spotify].
Proof.
  apply (parsed_settings_complete Sample.int_of_string Sample.float_of_string Sample.document).
  vm_compute. reflexivity.
Defined.

Lemma parsed_settings_lookup_witness :
  (Forall (other_name "Spotify") [Sample.telegram; Sample.spotify]
   /\ forall s, blink_first_match Sample.connected "Spotify" [Sample.telegram; Sample.spotify] s
                = (Ok tt, s))
  \/ (exists pre d post c k i,
         [Sample.telegram; Sample.spotify] = pre ++ d :: post
         /\ Forall (other_name "Spotify") pre
         /\ setting_for "Spotify" c k i d
         /\ forall s mc,
              meter_color s = Some mc ->
              blink_first_match Sample.connected "Spotify" [Sample.telegram; Sample.spotify] s
              = notification_blink Sample.connected c mc k i s).
Proof.
  apply (parsed_settings_lookup Sample.int_of_string Sample.float_of_string Sample.connected
           (Ok Sample.document)).
  vm_compute. reflexivity.
Defined.

Lemma last_element_wins_witness :
  exists v,
    assign_element Sample.int_of_string Sample.float_of_string ∅ (Sample.leaf "count" "3")
    = Ok (<[tag (Sample.leaf "count" "3") := v]> ∅)
    /\ (<["name"%string := VStr "Spotify"]> (<["count"%string := VInt 3]> ∅)
         : gmap string value) !! tag (Sample.leaf "count" "3") = Some v.
Proof.
  apply (last_element_wins Sample.int_of_string Sample.float_of_string ∅
           (<["name"%string := VStr "Spotify"]> (<["count"%string := VInt 3]> ∅))
           [Sample.leaf "count" "1"] [Sample.leaf "name" "Spotify"] (Sample.leaf "count" "3")).
  - vm_compute. reflexivity.
  - reflexivity.
  - repeat constructor. discriminate.
Defined.

(** ** The cache as a ring *)

Lemma record_all_recorded vs : forall s,
  sampler_ok s -> Forall percentage vs ->
  exists averages,
    record_all vs s = (Ok averages, fold_left recorded vs s)
    /\ length averages = length vs
    /\ sampler_ok (fold_left recorded vs s).
Proof.
  induction vs as [|v vs IH]; intros s Hs Hvs; cbn [record_all fold_left].
  - exists []. auto.
  - apply Forall_cons in Hvs as [Hv Hvs].
    destruct (sampler_color s v Hs Hv) as (load & color & Hload & _).
    destruct (IH (recorded s v) (recorded_ok s v Hs Hv) Hvs) as (averages & Hrec & Hlen & Hok).
    exists (load :: averages).
    rewrite (bind_ok _ _ _ _ _ (record_sample_ok v s load (proj1 Hs) Hload)).
    rewrite (bind_ok _ _ _ _ _ Hrec). cbn [length]. auto.
Qed.

Lemma recorded_window vs : forall s,
  (current_sampling s + length vs <= length (cpu_load_cache s))%nat ->
  cpu_load_cache (fold_left recorded vs s)
  = take (current_sampling s) (cpu_load_cache s) ++ vs
    ++ skipn (current_sampling s + length vs) (cpu_load_cache s)
  /\ current_sampling (fold_left recorded vs s)
     = match vs with
       | [] => current_sampling s
       | _ => ((current_sampling s + length vs) mod length (cpu_load_cache s))%nat
       end.
Proof.
  induction vs as [|v vs IH]; intros s Hle; cbn [fold_left length] in Hle |- *.
  - rewrite Nat.add_0_r. cbn [app]. rewrite take_drop. auto.
  - set (i := current_sampling s) in *. set (c := cpu_load_cache s) in *.
    assert (Hi : (i < length c)%nat) by lia.
    assert (Hc1 : cpu_load_cache (recorded s v) = <[i := v]> c) by reflexivity.
    assert (Hl1 : length (cpu_load_cache (recorded s v)) = length c)
      by (rewrite Hc1; apply length_insert).
    assert (Hi1 : current_sampling (recorded s v)
                  = if (length c <=? i + 1)%nat then 0%nat else (i + 1)%nat) by reflexivity.
    clearbody i c.
    destruct (Nat.leb_spec (length c) (i + 1)) as [Hend | Hmid].
    + assert (Hvs : vs = []) by (destruct vs; [reflexivity | cbn [length] in Hle; lia]).
      subst vs. cbn [fold_left length].
      rewrite Hc1, Hi1. split.
      * rewrite (insert_take_drop c i v Hi). do 3 f_equal. lia.
      * replace (i + 1)%nat with (length c) by lia. symmetry. apply Nat.Div0.mod_same.
    + destruct (IH (recorded s v)) as [IHc IHi]; [rewrite Hl1, Hi1; lia|].
      rewrite IHc, IHi, Hl1, Hc1, Hi1. split.
      * assert (Htake : take (i + 1) (<[i := v]> c) = take i c ++ [v]).
        { rewrite (insert_take_drop c i v Hi), (cons_middle v (take i c) (skipn (S i) c)),
            (app_assoc (take i c) [v]).
          apply take_app_length'. rewrite length_app, length_take. cbn [length]. rewrite Nat.min_l by lia. reflexivity. }
        rewrite Htake, drop_insert_lt by lia.
        replace (i + 1 + length vs)%nat with (i + S (length vs))%nat by lia.
        rewrite <- app_assoc. reflexivity.
      * destruct vs as [|v' vs]; cbn [length].
        -- symmetry. apply Nat.mod_small. lia.
        -- f_equal. lia.
Qed.

(** X10: the cache is written at consecutive positions, from the cursor on:
    the samples recorded before the cursor meets the end of the cache
    replace as many old values, in their order, and leave the other
    values where they were; a cursor that meets the end is back at the
    start.  From a cursor at the start, as many samples as the cache has
    places replace the whole cache. *)
Theorem cache_holds_samples :
  forall (s : machine) (vs : list Z),
    sampler_ok s ->
    Forall percentage vs ->
    (current_sampling s + length vs <= length (cpu_load_cache s))%nat ->
    exists averages s',
      record_all vs s = (Ok averages, s')
      /\ length averages = length vs
      /\ cpu_load_cache s'
         = take (current_sampling s) (cpu_load_cache s) ++ vs
           ++ skipn (current_sampling s + length vs) (cpu_load_cache s)
      /\ (vs <> [] ->
          current_sampling s'
          = ((current_sampling s + length vs) mod length (cpu_load_cache s))%nat)
      /\ (current_sampling s = 0%nat -> length vs = length (cpu_load_cache s) ->
          cpu_load_cache s' = vs /\ current_sampling s' = 0%nat).
Proof.
  intros s vs Hs Hvs Hle.
  destruct (record_all_recorded vs s Hs Hvs) as (averages & Hrec & Hlen & _).
  destruct (recorded_window vs s Hle) as [Hc Hi].
  exists averages, (fold_left recorded vs s).
  split; [exact Hrec | split; [exact Hlen | split; [exact Hc | split]]].
  - intros Hne. destruct vs; [congruence | exact Hi].
  - intros H0 HN. rewrite Hc, H0. cbn [take app Nat.add]. rewrite HN, drop_all, app_nil_r.
    split; [reflexivity|].
    destruct vs as [|v vs]; [rewrite Hi; exact H0|].
    rewrite Hi, H0. cbn [Nat.add]. rewrite HN. apply Nat.Div0.mod_same.
Qed.

Lemma cache_holds_samples_witness :
  exists averages s',
    record_all [10; 20; 30] (Sample.pending "") = (Ok averages, s')
    /\ length averages = length [10; 20; 30]
    /\ cpu_load_cache s'
       = take (current_sampling (Sample.pending ""))
           (cpu_load_cache (Sample.pending "")) ++ [10; 20; 30]
         ++ skipn (current_sampling (Sample.pending "") + length [10; 20; 30])
              (cpu_load_cache (Sample.pending ""))
    /\ ([10; 20; 30] <> [] ->
        current_sampling s'
        = ((current_sampling (Sample.pending "") + length [10; 20; 30])
           mod length (cpu_load_cache (Sample.pending "")))%nat)
    /\ (current_sampling (Sample.pending "") = 0%nat ->
        length [10; 20; 30] = length (cpu_load_cache (Sample.pending "")) ->
        cpu_load_cache s' = [10; 20; 30] /\ current_sampling s' = 0%nat).
Proof.
  apply (cache_holds_samples (Sample.pending "") [10; 20; 30]).
  - split; [cbn; lia |].
    cbn. repeat (constructor; [unfold percentage; lia |]). constructor.
  - repeat (constructor; [unfold percentage; lia |]). constructor.
  - cbn. lia.
Defined.

(** ** The monitoring loop *)

Lemma display_commands_load_lines A color load :
  display_commands (load_lines A color load) = [].
Proof. unfold load_lines. destruct (verbose A =? 0); reflexivity. Qed.

Lemma display_commands_active_line A name : display_commands (active_line A name) = [].
Proof. unfold active_line. destruct (verbose A =? 0); reflexivity. Qed.

(** A monitoring iteration with the keyboard answering (or the failure
    ignored): one reading, one display command, and the sampler in order
    again. *)
Lemma tick_monitoring_counts E A s v :
  NOTIFY s = EmptyString ->
  sampler_ok s ->
  int_of_float (cpu_percent E (ncpu s)) = Ok v ->
  percentage v ->
  device E (ndev s) = DevOk \/ (device E (ndev s) = DevFailed /\ persistent A <> 0) ->
  exists color s2,
    tick E A s = (Ok tt, s2)
    /\ NOTIFY s2 = EmptyString
    /\ sampler_ok s2
    /\ meter_color s2 = Some color
    /\ notification_settings_list s2 = notification_settings_list s
    /\ ncpu s2 = S (ncpu s)
    /\ ndev s2 = S (ndev s)
    /\ display_commands (trace s2)
       = display_commands (trace s) ++ [EvG810 (color_string color)].
Proof.
  intros HN Hs Hv Hp Hdev.
  assert (Hs' : sampler_ok (polled s)) by exact Hs.
  destruct (sampler_color (polled s) v Hs' Hp) as (load & color & Hload & Hcolor).
  eexists color, _. split.
  { apply (tick_monitoring_displayed E A s v load color); try assumption. exact (proj1 Hs). }
  cbn [advance colored NOTIFY meter_color notification_settings_list ncpu ndev trace
         recorded polled].
  split; [exact HN | split; [| split; [reflexivity | split; [reflexivity | split;
    [reflexivity | split; [lia |]]]]]].
  - exact (recorded_ok (polled s) v Hs' Hp).
  - rewrite !display_commands_app. cbn [display_commands List.filter is_g810].
    fold (display_commands (load_lines A color load ++ [EvSleep SAMPLING])).
    rewrite display_commands_app, display_commands_load_lines. rewrite app_nil_r. reflexivity.
Qed.

Lemma deliver_nothing A (bus : nat -> list dbus_message) n s :
  notify A = 0 \/ (forall n, bus n = []) ->
  (if notify A =? 0 then ret tt else deliver (bus n)) s = (Ok tt, s).
Proof.
  intros [-> | H]; [reflexivity|].
  destruct (notify A =? 0); [reflexivity | rewrite H; reflexivity].
Qed.

(** X11: the monitoring loop does not stop by itself: without notifications
    (the monitoring of notifications is off, or the bus is silent), with
    readings between 0 and 100 and a keyboard that answers each command
    (or fails in persistent mode), any number of iterations ends normally,
    each with one reading and one display command, and the sampler is in
    order at the end. *)
Theorem monitoring_runs :
  forall (E : env) (A : args) (bus : nat -> list dbus_message),
    (notify A = 0 \/ forall n, bus n = []) ->
    (forall n, Ieee.nonneg (cpu_percent E n) /\ (Ieee.value (cpu_percent E n) <= 100)%R) ->
    (forall n, device E n = DevOk \/ (device E n = DevFailed /\ persistent A <> 0)) ->
    forall (fuel n : nat) (s : machine),
      NOTIFY s = EmptyString ->
      sampler_ok s ->
      fst (main_loop E A bus fuel n s) = Ok tt
      /\ NOTIFY (snd (main_loop E A bus fuel n s)) = EmptyString
      /\ sampler_ok (snd (main_loop E A bus fuel n s))
      /\ ncpu (snd (main_loop E A bus fuel n s)) = (ncpu s + fuel)%nat
      /\ ndev (snd (main_loop E A bus fuel n s)) = (ndev s + fuel)%nat
      /\ length (display_commands (trace (snd (main_loop E A bus fuel n s))))
         = (length (display_commands (trace s)) + fuel)%nat.
Proof.
  intros E A bus Hbus Hcpu Hdev fuel.
  induction fuel as [|fuel IH]; intros n s HN Hs.
  - cbn [main_loop]. unfold ret. cbn [fst snd]. rewrite !Nat.add_0_r.
    split; [reflexivity | split; [exact HN | split; [exact Hs | repeat split]]].
  - destruct (Hcpu (ncpu s)) as (Nf & Lf).
    destruct (reading_percentage _ Nf Lf) as (v & Hv & Hp).
    destruct (tick_monitoring_counts E A s v HN Hs Hv Hp (Hdev (ndev s)))
      as (color & s2 & Ht & HN2 & Hs2 & _ & _ & Hc2 & Hd2 & Ht2).
    rewrite (main_loop_continue E A bus fuel n s s s2 (deliver_nothing A bus n s Hbus) Ht).
    destruct (IH (S n) s2 HN2 Hs2) as (H1 & H2 & H3 & H4 & H5 & H6).
    rewrite H4, H5, H6, Hc2, Hd2, Ht2, length_app. cbn [length].
    split; [exact H1 | split; [exact H2 | split; [exact H3 |]]].
    repeat split; lia.
Qed.

Lemma monitoring_runs_witness :
  fst (main_loop Sample.connected Sample.quiet (fun _ => []) 3 0 initial) = Ok tt
  /\ NOTIFY (snd (main_loop Sample.connected Sample.quiet (fun _ => []) 3 0 initial))
     = EmptyString
  /\ sampler_ok (snd (main_loop Sample.connected Sample.quiet (fun _ => []) 3 0 initial))
  /\ ncpu (snd (main_loop Sample.connected Sample.quiet (fun _ => []) 3 0 initial))
     = (ncpu initial + 3)%nat
  /\ ndev (snd (main_loop Sample.connected Sample.quiet (fun _ => []) 3 0 initial))
     = (ndev initial + 3)%nat
  /\ length (display_commands
               (trace (snd (main_loop Sample.connected Sample.quiet (fun _ => []) 3 0 initial))))
     = (length (display_commands (trace initial)) + 3)%nat.
Proof.
  apply (monitoring_runs Sample.connected Sample.quiet (fun _ => [])).
  - right. reflexivity.
  - intros n. destruct (float_of_Z_correct 40 ltac:(lia)) as [N V].
    split; [exact N | cbn [Sample.connected cpu_percent]; rewrite V; lra].
  - intros n. left. reflexivity.
  - reflexivity.
  - split; [cbn; lia |].
    cbn. repeat (constructor; [unfold percentage; lia |]). constructor.
Defined.

(** X12: without the monitoring of notifications the program is the
    monitoring branch over and over: the settings file is not read, the
    scanner is not started and the bus is not looked at, so that none of
    them has any influence on the run. *)
Theorem without_notify :
  forall (E : env) (A : args) (bus : nat -> list dbus_message)
         (ios : string -> result Z) (fos : string -> result float)
         (doc : result element) (fuel : nat) (s : machine),
    notify A = 0 ->
    NOTIFY s = EmptyString ->
    main E A bus ios fos doc fuel s = for_range fuel (monitoring E A) s.
Proof.
  intros E A bus ios fos doc fuel s HA HN. unfold main, setup. rewrite HA.
  change (0 =? 0) with true. cbv iota.
  rewrite (bind_ok (ret tt) _ s tt s eq_refl).
  generalize 0%nat as n. revert s HN.
  induction fuel as [|fuel IH]; intros s HN n; [reflexivity|].
  cbn [main_loop for_range]. rewrite HA. change (0 =? 0) with true. cbv iota.
  rewrite (bind_ok (ret tt) _ s tt s eq_refl).
  unfold bind. rewrite (tick_idle E A s HN).
  pose proof (leaves_monitoring E A s) as HL.
  destruct (monitoring E A s) as [[[]|e] s']; [| reflexivity].
  apply IH. cbn [snd] in HL. congruence.
Qed.

Lemma without_notify_witness :
  main Sample.connected {| verbose := 0; persistent := 0; notify := 0 |} Sample.early_bus
    Sample.int_of_string Sample.float_of_string (Ok Sample.incomplete_document) 2 initial
  = for_range 2 (monitoring Sample.connected {| verbose := 0; persistent := 0; notify := 0 |})
      initial.
Proof.
  apply (without_notify Sample.connected {| verbose := 0; persistent := 0; notify := 0 |}
           Sample.early_bus Sample.int_of_string Sample.float_of_string
           (Ok Sample.incomplete_document) 2 initial); reflexivity.
Defined.

(** ** A missing g810-led program *)

Lemma set_keyboard_color_missing E rgb ie s :
  device E (ndev s) = DevNotFound ->
  set_keyboard_color E rgb ie s
  = (Raise SystemExit,
     advance s [EvG810 (color_string rgb);
                EvPrint (Text "Program g810-led not found; install it from https://github.com/MatMoul/g810-led")] 1).
Proof.
  intros H. unfold set_keyboard_color.
  rewrite (bind_ok _ _ _ _ _ (g810_led_advance E _ s)), H. cbv iota.
  unfold print. rewrite (bind_ok _ _ _ _ _ (emit_advance _ _)).
  rewrite advance_advance. reflexivity.
Qed.

(** X13: the persistent mode does not cover a missing g810-led program: the
    monitoring iteration that meets it records the sample, prints the
    hint and stops the program, whatever the arguments. *)
Theorem missing_program_stops_monitoring :
  forall (E : env) (A : args) (s : machine) (v : Z),
    NOTIFY s = EmptyString ->
    sampler_ok s ->
    int_of_float (cpu_percent E (ncpu s)) = Ok v ->
    percentage v ->
    device E (ndev s) = DevNotFound ->
    exists color,
      tick E A s
      = (Raise SystemExit,
         advance (colored (recorded (polled s) v) color)
           [EvG810 (color_string color);
            EvPrint (Text "Program g810-led not found; install it from https://github.com/MatMoul/g810-led")] 1).
Proof.
  intros E A s v HN Hs Hv Hp Hdev.
  assert (Hs' : sampler_ok (polled s)) by exact Hs.
  destruct (sampler_color (polled s) v Hs' Hp) as (load & color & Hload & Hcolor).
  exists color.
  rewrite (tick_monitoring E A s v load color HN Hv (proj1 Hs) Hload Hcolor).
  apply bind_raise. apply set_keyboard_color_missing. exact Hdev.
Qed.

Lemma missing_program_stops_monitoring_witness :
  exists color,
    tick {| device := fun _ => DevNotFound; cpu_percent := fun _ => float_of_Z 40 |}
      Sample.tolerant initial
    = (Raise SystemExit,
       advance (colored (recorded (polled initial) 40) color)
         [EvG810 (color_string color);
          EvPrint (Text "Program g810-led not found; install it from https://github.com/MatMoul/g810-led")] 1).
Proof.
  apply (missing_program_stops_monitoring
           {| device := fun _ => DevNotFound; cpu_percent := fun _ => float_of_Z 40 |}
           Sample.tolerant initial 40).
  - reflexivity.
  - split; [cbn; lia |].
    cbn. repeat (constructor; [unfold percentage; lia |]). constructor.
  - reflexivity.
  - unfold percentage. lia.
  - reflexivity.
Defined.

(** ** From the load color to the blink and back *)

Lemma last_alternate n a b : last (alternate (2 * S n) a b) = Some b.
Proof.
  induction n as [|n IH]; [reflexivity|].
  replace (2 * S (S n))%nat with (S (S (2 * S n))) by lia.
  cbn [alternate]. rewrite !last_cons_cons.
  replace (2 * S n)%nat with (S (S (2 * n))) in IH |- * by lia.
  exact IH.
Qed.

(** X18: a notification that arrives after a monitoring iteration is blinked
    against the color that iteration has put on the keyboard, and a blink
    of one repetition or more ends on that color: the keyboard shows the
    load color again before the next reading. *)
Theorem blink_returns_to_load_color :
  forall (E : env) (A : args) (s : machine) (v : Z) (name : string) (rest : list string)
         (pre post : list (gmap string value)) (d : gmap string value)
         (C : list Z) (count : Z) (interval : float),
    NOTIFY s = EmptyString ->
    sampler_ok s ->
    int_of_float (cpu_percent E (ncpu s)) = Ok v ->
    percentage v ->
    name <> EmptyString ->
    notification_settings_list s = pre ++ d :: post ->
    Forall (other_name name) pre ->
    setting_for name C count interval d ->
    0 < count ->
    sleep_ok interval = true ->
    (forall k, (k <= 2 * Z.to_nat count)%nat -> device E (ndev s + k) = DevOk) ->
    exists color s',
      (tick E A;; deliver [name :: rest];; tick E A)%py s = (Ok tt, s')
      /\ display_commands (trace s')
         = display_commands (trace s)
           ++ EvG810 (color_string color)
              :: alternate (2 * Z.to_nat count)
                   (EvG810 (color_string C)) (EvG810 (color_string color))
      /\ last (display_commands (trace s')) = Some (EvG810 (color_string color))
      /\ meter_color s' = Some color
      /\ NOTIFY s' = EmptyString.
Proof.
  intros E A s v name rest pre post d C count interval
         HN Hs Hv Hp Hne Hset Hpre Hd Hc Hsl Hdev.
  destruct (tick_monitoring_counts E A s v HN Hs Hv Hp)
    as (color & s2 & Ht & HN2 & Hs2 & Hm2 & Hl2 & Hc2 & Hd2 & Ht2).
  { left. rewrite <- (Hdev 0%nat) by lia. f_equal. lia. }
  set (n := Z.to_nat count) in *.
  set (blink := blink_trace n C color interval).
  assert (Hb : tick E A (noted s2 name)
               = (Ok tt, cleared (advance (noted s2 name) (active_line A name ++ blink)
                                    (2 * n)))).
  { rewrite (tick_matched E A (noted s2 name) name pre d post C count interval color);
      try assumption; try reflexivity.
    2:{ cbn [noted notification_settings_list]. rewrite Hl2. exact Hset. }
    erewrite bind_ok.
    2:{ unfold notification_blink. fold n. apply notification_blink_ok; [exact Hsl|].
        intros k Hk. cbn [advance noted ndev]. rewrite Hd2.
        rewrite <- (Hdev (S k)) by lia. f_equal. lia. }
    rewrite advance_advance. reflexivity. }
  eexists color, _. split.
  { rewrite (bind_ok _ _ _ _ _ Ht).
    unfold bind at 1, deliver. cbn [fold_left notification_event].
    exact Hb. }
  cbn [cleared advance noted trace meter_color NOTIFY].
  assert (Hdc : display_commands (trace s2 ++ active_line A name ++ blink)
                = display_commands (trace s)
                  ++ EvG810 (color_string color)
                     :: alternate (2 * n) (EvG810 (color_string C))
                          (EvG810 (color_string color))).
  { rewrite !display_commands_app, Ht2, display_commands_active_line.
    unfold blink. rewrite display_commands_blink_trace.
    cbn [app]. rewrite <- app_assoc. reflexivity. }
  split; [exact Hdc | split; [| split; [exact Hm2 | reflexivity]]].
  rewrite Hdc. rewrite last_app_cons.
  destruct n as [|n'] eqn:En; [lia|].
  replace (2 * S n')%nat with (S (S (2 * n'))) by lia. cbn [alternate].
  rewrite last_cons_cons.
  change (EvG810 (color_string C) :: EvG810 (color_string color)
            :: alternate (2 * n') (EvG810 (color_string C)) (EvG810 (color_string color)))
    with (alternate (S (S (2 * n'))) (EvG810 (color_string C)) (EvG810 (color_string color))).
  replace (S (S (2 * n'))) with (2 * S n')%nat by lia.
  apply last_alternate.
Qed.

Lemma blink_returns_to_load_color_witness :
  exists color s',
    (tick Sample.connected Sample.quiet;;
     deliver [["Spotify"; "0"]%string];;
     tick Sample.connected Sample.quiet)%py (Sample.pending "")
    = (Ok tt, s')
    /\ display_commands (trace s')
       = display_commands (trace (Sample.pending ""))
         ++ EvG810 (color_string color)
            :: alternate (2 * Z.to_nat 1)
                 (EvG810 (color_string [255; 255; 255])) (EvG810 (color_string color))
    /\ last (display_commands (trace s')) = Some (EvG810 (color_string color))
    /\ meter_color s' = Some color
    /\ NOTIFY s' = EmptyString.
Proof.
  apply (blink_returns_to_load_color Sample.connected Sample.quiet (Sample.pending "") 40
           "Spotify" ["0"%string] [Sample.telegram] [] Sample.spotify
           [255; 255; 255] 1 Sample.seconds_0_5).
  - reflexivity.
  - split; [cbn; lia |].
    cbn. repeat (constructor; [unfold percentage; lia |]). constructor.
  - reflexivity.
  - unfold percentage. lia.
  - discriminate.
  - reflexivity.
  - repeat constructor. exists (VStr "Telegram Desktop"). split; vm_compute; reflexivity.
  - repeat split; vm_compute; reflexivity.
  - lia.
  - vm_compute. reflexivity.
  - intros k _. reflexivity.
Defined.

(** ** The quiet mode *)

Section Silent.

Lemma silent_ret {A} (a : A) : silent (ret a).
Proof. intros s b s' [= _ <-]. reflexivity. Qed.

Lemma silent_raise {A} e : silent (@raise A e).
Proof. intros s b s' H. discriminate. Qed.

Lemma silent_lift {A} (r : result A) : silent (lift r).
Proof. intros s b s' [= _ <-]. reflexivity. Qed.

Lemma silent_gets {A} (g : machine -> A) : silent (gets g).
Proof. intros s b s' [= _ <-]. reflexivity. Qed.

Lemma silent_bind {A B} (c : M A) (k : A -> M B) :
  silent c -> (forall a, silent (k a)) -> silent (bind c k).
Proof.
  intros Hc Hk s b s' H. unfold bind in H.
  destruct (c s) as [[a | e] s1] eqn:E; [| discriminate].
  rewrite (Hk a s1 b s' H). apply (Hc s a s1 E).
Qed.

Lemma silent_modify g : (forall s, trace (g s) = trace s) -> silent (modify g).
Proof. intros Hg s b s' [= _ <-]. rewrite Hg. reflexivity. Qed.

Lemma silent_emit ev : is_print ev = false -> silent (emit ev).
Proof.
  intros Hev s b s' H. rewrite emit_advance in H. injection H as _ <-.
  cbn [advance trace]. unfold prints. rewrite List.filter_app. cbn [List.filter].
  rewrite Hev. apply app_nil_r.
Qed.

(** A message and [exit()]: this never ends normally. *)
Lemma silent_stop {A} l : silent (print l;; @exit A)%py.
Proof. intros s b s' H. unfold print, exit, bind, emit, modify, raise in H. discriminate. Qed.

Lemma silent_sleep secs : silent (sleep secs).
Proof.
  unfold sleep. destruct (sleep_ok secs); [apply silent_emit; reflexivity|].
  destruct secs; cbv zeta; try destruct (_ || _); apply silent_raise.
Qed.

Lemma silent_set_keyboard_color E rgb ie : silent (set_keyboard_color E rgb ie).
Proof.
  unfold set_keyboard_color. apply silent_bind.
  - intros s b s' H. rewrite g810_led_advance in H. injection H as _ <-.
    cbn [advance trace]. unfold prints. rewrite List.filter_app. apply app_nil_r.
  - intros [| |]; [apply silent_ret | apply silent_stop |].
    destruct (ie =? 0); [apply silent_stop | apply silent_ret].
Qed.

Lemma silent_for_range n body : silent body -> silent (for_range n body).
Proof.
  intros Hb. induction n; cbn [for_range]; [apply silent_ret|].
  apply silent_bind; [exact Hb | intros _; assumption].
Qed.

Lemma silent_notification_blink E c1 c2 count interval :
  silent (notification_blink E c1 c2 count interval).
Proof.
  unfold notification_blink. apply silent_for_range.
  repeat (apply silent_bind; [| intros _]);
    first [apply silent_set_keyboard_color | apply silent_sleep].
Qed.

Lemma silent_getitem d key : silent (getitem d key).
Proof. unfold getitem. destruct (d !! key); [apply silent_ret | apply silent_raise]. Qed.

Lemma silent_blink_first_match E name settings :
  silent (blink_first_match E name settings).
Proof.
  induction settings as [|d settings IH]; cbn [blink_first_match]; [apply silent_ret|].
  apply silent_bind; [apply silent_getitem | intros n].
  destruct (name_eq name n); [| exact IH].
  apply silent_bind; [apply silent_getitem | intros c].
  apply silent_bind; [apply silent_gets | intros mc].
  apply silent_bind; [destruct mc; [apply silent_ret | apply silent_raise] | intros color2].
  apply silent_bind; [apply silent_getitem | intros k].
  apply silent_bind; [apply silent_getitem | intros i].
  apply silent_bind; [destruct k; first [apply silent_ret | apply silent_raise] | intros count].
  apply silent_bind; [destruct c; first [apply silent_ret | apply silent_raise] | intros color1].
  apply silent_bind; [destruct i; first [apply silent_ret | apply silent_raise] | intros interval].
  apply silent_notification_blink.
Qed.

Lemma silent_record_sample v : silent (record_sample v).
Proof.
  intros s b s'. unfold record_sample, bind, gets, set_cpu_load_cache, set_current_sampling,
    modify, raise, lift, ret. cbn -[Nat.ltb Nat.leb].
  destruct (current_sampling s <? length (cpu_load_cache s))%nat; [| discriminate].
  cbn -[Nat.ltb Nat.leb].
  destruct (length (<[current_sampling s:=v]> (cpu_load_cache s)) <=? current_sampling s + 1)%nat;
    cbn; intros [= _ <-]; reflexivity.
Qed.

Variable E : env.
Variable A : args.
Hypothesis quiet : verbose A = 0.

Lemma silent_tick : silent (tick E A).
Proof.
  unfold tick. apply silent_bind; [apply silent_gets | intros name].
  destruct (String.eqb name "").
  - unfold monitoring. rewrite quiet. change (0 =? 0) with true. cbv iota.
    apply silent_bind; [| intros reading].
    { unfold psutil_cpu_percent.
      apply silent_bind; [apply silent_emit; reflexivity | intros _].
      apply silent_bind; [apply silent_gets | intros n].
      apply silent_bind; [apply silent_modify; reflexivity | intros _; apply silent_ret]. }
    apply silent_bind; [apply silent_lift | intros sample].
    apply silent_bind; [apply silent_record_sample | intros cpu_load].
    apply silent_bind; [apply silent_lift | intros color].
    apply silent_bind; [apply silent_modify; reflexivity | intros _].
    apply silent_bind; [apply silent_set_keyboard_color | intros _].
    apply silent_bind; [apply silent_ret | intros _; apply silent_sleep].
  - unfold blinking. rewrite quiet. change (0 =? 0) with true. cbv iota.
    apply silent_bind; [apply silent_gets | intros name'].
    apply silent_bind; [apply silent_ret | intros _].
    apply silent_bind; [apply silent_gets | intros settings].
    apply silent_bind; [apply silent_blink_first_match | intros _].
    apply silent_modify. reflexivity.
Qed.

Lemma silent_deliver messages : silent (deliver messages).
Proof.
  intros s b s' H. unfold deliver in H. injection H as _ <-.
  destruct (deliver_step messages s) as (name & ->). reflexivity.
Qed.

Lemma silent_main_loop bus fuel : forall n, silent (main_loop E A bus fuel n).
Proof.
  induction fuel as [|fuel IH]; intros n; cbn [main_loop]; [apply silent_ret|].
  apply silent_bind; [| intros _].
  { destruct (notify A =? 0); [apply silent_ret | apply silent_deliver]. }
  apply silent_bind; [apply silent_tick | intros _; apply IH].
Qed.

Lemma silent_setup ios fos doc : silent (setup A ios fos doc).
Proof.
  unfold setup. destruct (notify A =? 0); [apply silent_ret|].
  destruct (parse_notification_settings_from_xml ios fos doc) as [l | e].
  - apply silent_bind; [apply silent_modify; reflexivity | intros _].
    apply silent_emit. reflexivity.
  - destruct e; first [apply silent_raise | intros s b s' H; discriminate].
Qed.

End Silent.

(** X25: without the verbose mode the program prints only when it stops: a run
    of any number of iterations that ends normally, the setup included,
    has printed nothing. *)
Theorem quiet_run_prints_nothing :
  forall (E : env) (A : args) (bus : nat -> list dbus_message)
         (ios : string -> result Z) (fos : string -> result float)
         (doc : result element) (fuel : nat) (s : machine),
    verbose A = 0 ->
    fst (main E A bus ios fos doc fuel s) = Ok tt ->
    prints (trace (snd (main E A bus ios fos doc fuel s))) = prints (trace s).
Proof.
  intros E A bus ios fos doc fuel s Hq Hok.
  assert (H : silent (main E A bus ios fos doc fuel)).
  { unfold main. apply silent_bind; [apply silent_setup | intros _].
    apply silent_main_loop. exact Hq. }
  destruct (main E A bus ios fos doc fuel s) as [r s'] eqn:Em. cbn [fst snd] in Hok |- *.
  subst r. apply (H s tt s' Em).
Qed.

Lemma quiet_run_prints_nothing_witness :
  prints (trace (snd (main Sample.connected Sample.quiet (fun _ => [])
                        Sample.int_of_string Sample.float_of_string (Ok Sample.document)
                        2 initial)))
  = prints (trace initial).
Proof.
  apply (quiet_run_prints_nothing Sample.connected Sample.quiet (fun _ => [])
           Sample.int_of_string Sample.float_of_string (Ok Sample.document) 2 initial).
  - reflexivity.
  - vm_compute. reflexivity.
Defined.
